(** * M48: Z-probe repeatability test (MK4duo, src/commands/gcode/calibrate/m48.h)

    A shallow embedding of [gcode_M48] and the properties of its sampling
    protocol: parameter gates, the randomised movement pattern, the
    probe/accumulate loop and the statistics it reports.

    Conventions of the embedding.
    - [float] and [double] values are real numbers: rounding, overflow and
      infinities are not modelled.  A probe reading is an [option R], where
      [None] stands for the not-a-number failure indicator.
    - [uint8_t] and [int8_t] values are integers of [Z]; the conversion of a
      parsed byte to [int8_t] is written out.
    - Calls to collaborators (serial output, motion, probe, bed levelling,
      status display) are recorded, in order, in a trace of events.
    - The three [while] loops of the routine run on fuel; a result [None]
      means that the fuel was exhausted. *)

From Stdlib Require Import Reals Lra Lia ZArith List String Bool.
From Stdlib Require Import Strings.Byte.
Import ListNotations.

Module M48.

Local Open Scope R_scope.

(** ** Numeric types and the macros of the firmware *)

(** The value of a parsed byte ([parser.value_byte()] returns [uint8_t]). *)
Definition uint8_t (b : byte) : Z := Z.of_N (Byte.to_N b).

(** Conversion of an 8-bit unsigned value to [int8_t] (two's complement). *)
Definition int8_t (z : Z) : Z := if (z <? 128)%Z then z else (z - 256)%Z.

Definition WITHIN (v lo hi : Z) : bool := ((lo <=? v) && (v <=? hi))%Z.

Definition fgt (a b : R) : bool := if Rgt_dec a b then true else false.
Definition flt (a b : R) : bool := if Rlt_dec a b then true else false.

(** [NOMORE(v, n)]: [if (v > n) v = n]; [NOLESS(v, n)]: [if (v < n) v = n]. *)
Definition NOMORE (v n : R) : R := if fgt v n then n else v.
Definition NOLESS (v n : R) : R := if flt v n then n else v.

(** [LIMIT(v, n1, n2)]: [if (v < n1) v = n1; else if (v > n2) v = n2]. *)
Definition LIMIT (v n1 n2 : R) : R :=
  if flt v n1 then n1 else if fgt v n2 then n2 else v.

Definition MIN (a b : R) : R := if flt a b then a else b.
Definition sq (x : R) : R := x * x.
Definition SQRT (x : R) : R := sqrt x.
Definition RADIANS (d : R) : R := d * PI / 180.

(** The cast [(int) x] of a real value: truncation towards zero. *)
Definition int_of_float (x : R) : Z :=
  if Rle_dec 0 x then Int_part x else (- Int_part (- x))%Z.

(** A reading is not a number when the probe failed. *)
Definition isnan (t : option R) : bool :=
  match t with Some _ => false | None => true end.

(** ** Request, machine and build configuration *)

Inductive ProbePtRaiseEnum := PROBE_PT_RAISE | PROBE_PT_STOW.

(** What the parser holds for one M48 line: for a letter followed by a value,
    [Some] of the value read by [value_byte] or [linearval]. *)
Record Parser := {
  seen_V : option byte;
  seen_P : option byte;
  seen_X : option R;
  seen_Y : option R;
  boolval_E : bool;
  seen_L : option byte;
  seen_S : bool
}.

(** The machine as the routine sees it: build options, geometry, and the
    answer of the collaborators it queries. *)
Record Machine := {
  MECH_DELTA : bool;
  HAS_LEVELING : bool;
  HAS_LCD : bool;
  X_MIN_BED : R;
  X_MAX_BED : R;
  Y_MIN_BED : R;
  Y_MAX_BED : R;
  probe_radius : R;                       (* mechanics.data.probe_radius *)
  axis_unhomed_error : bool;
  current_position_X : R;
  current_position_Y : R;
  probe_offset_X : R;                     (* probe.data.offset[X_AXIS] *)
  probe_offset_Y : R;
  position_is_reachable_by_probe : R -> R -> bool
}.

(** ** Events: the calls the routine makes to its collaborators *)

Inductive Event :=
| SERIAL_ERROR (msg : string)                       (* SERIAL_LM(ER, msg) *)
| SERIAL_ECHO (msg : string)                        (* SERIAL_EM(msg) *)
| ECHO_START (radius angle : R) (dir : Z)           (* "Starting radius: " *)
| ECHO_PULLING (x y : R)                 (* "Pulling point towards center:" *)
| ECHO_GOING_TO (x y : R)        (* "Going to:"; the Z printed is not kept *)
| ECHO_SAMPLE (n n_samples : Z) (z : R) (detail : option (R * R * R * R * R))
| ECHO_SUMMARY (mean min max range : R)     (* "Mean: " ... " Range: " *)
| ECHO_STD_DEV (sigma : R)                  (* "Standard Deviation: " *)
| LCD_POINT (n n_samples : Z)
| LCD_DEVIATION (sigma : R)
| set_bed_leveling_enabled (enable : bool)
| setup_for_endstop_or_probe_move
| check_pt (x y : R) (raise_after : ProbePtRaiseEnum) (verbose_level : Z)
| randomSeed
| do_blocking_move_to_xy (x y : R)
| STOW_PROBE
| clean_up_after_endstop_or_probe_move
| restore_bed_leveling_state
| report_current_position.

(** ** The monad: state (trace and call counters), fuel, divergence *)

Record World := {
  trace : list Event;
  probe_calls : nat;       (* number of probe reads made so far *)
  rand_calls : nat         (* number of random draws made so far *)
}.

Definition W0 : World := {| trace := []; probe_calls := 0; rand_calls := 0 |}.

Definition M (A : Type) : Type := nat -> World -> option (A * World).

Definition ret {A} (a : A) : M A := fun _ w => Some (a, w).

Definition bind {A B} (m : M A) (k : A -> M B) : M B :=
  fun fuel w =>
    match m fuel w with
    | Some (a, w') => k a fuel w'
    | None => None
    end.

Declare Scope m48_scope.
Delimit Scope m48_scope with m48.
Notation "x <- m ;; k" := (bind m (fun x => k))
  (at level 61, m at next level, right associativity) : m48_scope.
Notation "m ;; k" := (bind m (fun _ => k))
  (at level 61, right associativity) : m48_scope.
Local Open Scope m48_scope.

Definition emit (e : Event) : M unit :=
  fun _ w => Some (tt, {| trace := trace w ++ [e];
                          probe_calls := probe_calls w;
                          rand_calls := rand_calls w |}).

Definition when (b : bool) (m : M unit) : M unit := if b then m else ret tt.

(** [while (cond) body], on the fuel of the monad. *)
Fixpoint while_fuel {S} (cond : S -> bool) (body : S -> M S)
    (n : nat) (s : S) : M S :=
  match n with
  | O => fun _ _ => None
  | Datatypes.S n' =>
      if cond s then s' <- body s ;; while_fuel cond body n' s' else ret s
  end.

Definition while {S} (cond : S -> bool) (body : S -> M S) (s : S) : M S :=
  fun fuel w => while_fuel cond body fuel s fuel w.

(** ** The routine *)

(** The locals fixed by the parameter gates, read-only afterwards. *)
Record Locals := {
  verbose_level : Z;
  n_samples : Z;
  raise_after : ProbePtRaiseEnum;
  X_probe_location : R;
  Y_probe_location : R;
  n_legs : Z;
  schizoid_flag : bool
}.

(** The locals of the sample loop. *)
Record Stats := {
  mean : R;
  sigma : R;
  min : R;
  max : R;
  sample_set : list R;
  probing_good : bool
}.

(** [a[i] = v] and [a[i]] on an array held as a list.  The routine only
    writes and reads below the length of [sample_set]. *)
Fixpoint array_set (a : list R) (i : nat) (v : R) : list R :=
  match a, i with
  | [], _ => []
  | _ :: t, O => v :: t
  | h :: t, Datatypes.S i' => h :: array_set t i' v
  end.

Definition array_get (a : list R) (i : nat) : R := nth i a 0.

(** [sum = 0.0; for (j = 0; j <= n; j++) sum += f(sample_set[j])]. *)
Definition sum_to (f : R -> R) (a : list R) (n : nat) : R :=
  fold_left (fun sum j => sum + f (array_get a j)) (seq 0 (Datatypes.S n)) 0.

(** [const int dir = (random(0, 10) > 5.0) ? -1 : 1]. *)
Definition dir_of_draw (r : Z) : Z := if (r >? 5)%Z then (-1)%Z else 1%Z.

Section Routine.

Variable mach : Machine.

(** The reading returned by the k-th probe read of the run (k from 0). *)
Variable check_pt_result : nat -> option R.

(** The k-th value of the pseudo-random generator after [randomSeed]. *)
Variable random_long : nat -> N.

Definition emit_check_pt (x y : R) (r : ProbePtRaiseEnum) (v : Z)
  : M (option R) :=
  fun _ w => Some (check_pt_result (probe_calls w),
                   {| trace := trace w ++ [check_pt x y r v];
                      probe_calls := Datatypes.S (probe_calls w);
                      rand_calls := rand_calls w |}).

(** [random(howsmall, howbig)] of the Arduino core: [howsmall] when the range
    is empty, else [howsmall + random() % (howbig - howsmall)]. *)
Definition random (howsmall howbig : Z) : M Z :=
  fun _ w =>
    Some (if (howsmall >=? howbig)%Z then howsmall
          else (howsmall
                + Z.rem (Z.of_N (random_long (rand_calls w)))
                        (howbig - howsmall))%Z,
          {| trace := trace w;
             probe_calls := probe_calls w;
             rand_calls := Datatypes.S (rand_calls w) |}).

(** Lines 53-92: the gates.  [None] is an early [return]. *)
Definition M48_parameters (p : Parser) : M (option Locals) :=
  if axis_unhomed_error mach then ret None else
  let verbose_level :=
    int8_t (match seen_V p with Some b => uint8_t b | None => 1%Z end) in
  if negb (WITHIN verbose_level 0 4) then
    (emit (SERIAL_ERROR "?Verbose Level not plausible (0-4).") ;; ret None)
  else
  when (verbose_level >? 0)%Z
    (emit (SERIAL_ECHO "M48 Z-Probe Repeatability Test")) ;;
  let n_samples :=
    int8_t (match seen_P p with Some b => uint8_t b | None => 10%Z end) in
  if negb (WITHIN n_samples 4 50) then
    (emit (SERIAL_ERROR "?Sample size not plausible (4-50).") ;; ret None)
  else
  let raise_after := if boolval_E p then PROBE_PT_STOW else PROBE_PT_RAISE in
  let X_current := current_position_X mach in
  let Y_current := current_position_Y mach in
  let X_probe_location :=
    match seen_X p with
    | Some x => x
    | None => X_current + probe_offset_X mach
    end in
  let Y_probe_location :=
    match seen_Y p with
    | Some y => y
    | None => Y_current + probe_offset_Y mach
    end in
  if negb (position_is_reachable_by_probe mach
             X_probe_location Y_probe_location) then
    (emit (SERIAL_ERROR "? (X,Y) out of bounds.") ;; ret None)
  else
  let L_seen := match seen_L p with Some _ => true | None => false end in
  let n_legs := match seen_L p with Some b => uint8_t b | None => 0%Z end in
  if (n_legs >? 15)%Z then
    (emit (SERIAL_ERROR "?Number of legs in movement not plausible (0-15).") ;;
     ret None)
  else
  let n_legs := if (n_legs =? 1)%Z then 2%Z else n_legs in
  let schizoid_flag := seen_S p in
  let n_legs := if schizoid_flag && negb L_seen then 7%Z else n_legs in
  ret (Some {| verbose_level := verbose_level;
               n_samples := n_samples;
               raise_after := raise_after;
               X_probe_location := X_probe_location;
               Y_probe_location := Y_probe_location;
               n_legs := n_legs;
               schizoid_flag := schizoid_flag |}).

Section Validated.

Variable c : Locals.

(** Lines 159-162: the two loops that bring [angle] back after the step. *)
Definition wrap_angle (angle : R) : M R :=
  angle <- while (fun a => fgt a 360) (fun a => ret (a - 360)) angle ;;
  while (fun a => flt a 0) (fun a => ret (a + 360)) angle.

(** Lines 170-177 (delta): scale the point towards the centre until the
    probe can reach it. *)
Definition pull_to_center (XY : R * R) : M (R * R) :=
  while (fun XY => negb (position_is_reachable_by_probe mach (fst XY) (snd XY)))
        (fun XY =>
           let X_current := fst XY * 0.8 in
           let Y_current := snd XY * 0.8 in
           when (verbose_level c >? 3)%Z
             (emit (ECHO_PULLING X_current Y_current)) ;;
           ret (X_current, Y_current))
        XY.

(** Lines 144-191: the legs of one sample; [legs] iterations remain. *)
Fixpoint legs_loop (dir : Z) (radius : R) (legs : nat) (angle : R) : M unit :=
  match legs with
  | O => ret tt
  | Datatypes.S legs' =>
      delta_angle <-
        (if schizoid_flag c then ret (IZR dir * 2 * 72)
         else (r <- random 25 45 ;; ret (IZR dir * IZR r))) ;;
      angle <- wrap_angle (angle + delta_angle) ;;
      let X_current :=
        X_probe_location c - probe_offset_X mach
        + cos (RADIANS angle) * radius in
      let Y_current :=
        Y_probe_location c - probe_offset_Y mach
        + sin (RADIANS angle) * radius in
      XY <- (if MECH_DELTA mach then pull_to_center (X_current, Y_current)
             else ret (LIMIT X_current (X_MIN_BED mach) (X_MAX_BED mach),
                       LIMIT Y_current (Y_MIN_BED mach) (Y_MAX_BED mach))) ;;
      when (verbose_level c >? 3)%Z (emit (ECHO_GOING_TO (fst XY) (snd XY))) ;;
      emit (do_blocking_move_to_xy (fst XY) (snd XY)) ;;
      legs_loop dir radius legs' angle
  end.

(** Lines 124-192: the movement pattern before one probe read. *)
Definition legs_pattern : M unit :=
  r <- random 0 10 ;;
  let dir := dir_of_draw r in
  r <- random 0 360 ;;
  let angle := IZR r in
  r <- (if MECH_DELTA mach then
          random (int_of_float (0.1250000000 * probe_radius mach))
                 (int_of_float (0.3333333333 * probe_radius mach))
        else
          random 5 (int_of_float
                      (0.125 * MIN (X_MAX_BED mach) (Y_MAX_BED mach)))) ;;
  let radius := IZR r in
  when (verbose_level c >? 3)%Z (emit (ECHO_START radius angle dir)) ;;
  legs_loop dir radius (Z.to_nat (n_legs c - 1)) angle.

(** Lines 204-219: the statistics after [sample_set[n]] has been written. *)
Definition update_stats (st : Stats) (n : nat) (sample : R) : Stats :=
  let sample_set := array_set (sample_set st) n sample in
  let sum := sum_to (fun s => s) sample_set n in
  let mean := sum / INR (n + 1) in
  let min := NOMORE (min st) sample in
  let max := NOLESS (max st) sample in
  let sum := sum_to (fun s => sq (s - mean)) sample_set n in
  let sigma := SQRT (sum / INR (n + 1)) in
  {| mean := mean; sigma := sigma; min := min; max := max;
     sample_set := sample_set; probing_good := true |}.

(** Lines 120-234: one pass of the probe loop, for sample index [n]. *)
Definition sample_pass (n : nat) (st : Stats) : M Stats :=
  when (HAS_LCD mach) (emit (LCD_POINT (Z.of_nat n + 1) (n_samples c))) ;;
  when (negb (n_legs c =? 0)%Z) legs_pattern ;;
  z <- emit_check_pt (X_probe_location c) (Y_probe_location c)
         (raise_after c) 0 ;;
  match z with
  | None =>
      (* not a number: [probing_good = false; break]; the value left in
         [sample_set[n]] is not read again *)
      ret {| mean := mean st; sigma := sigma st; min := min st;
             max := max st; sample_set := sample_set st;
             probing_good := false |}
  | Some sample =>
      let st := update_stats st n sample in
      when ((verbose_level c >? 0) && (verbose_level c >? 1))%Z
        (emit (ECHO_SAMPLE (Z.of_nat n + 1) (n_samples c) sample
                 (if (verbose_level c >? 2)%Z
                  then Some (mean st, sigma st, min st, max st,
                             max st - min st)
                  else None))) ;;
      ret st
  end.

(** Line 119: [for (n = 0; n < n_samples; n++)], with [todo] passes left. *)
Fixpoint probe_loop (todo : nat) (n : nat) (st : Stats) : M Stats :=
  match todo with
  | O => ret st
  | Datatypes.S todo' =>
      st <- sample_pass n st ;;
      if probing_good st then probe_loop todo' (Datatypes.S n) st
      else ret st
  end.

(** Line 109: the initial values of the locals of the loop. *)
Definition stats_init (probing_good : bool) : Stats :=
  {| mean := 0; sigma := 0; min := 99999.9; max := -99999.9;
     sample_set := repeat 0 (Z.to_nat (n_samples c));
     probing_good := probing_good |}.

(** Lines 99-270: everything after the gates. *)
Definition M48_probe : M unit :=
  when (verbose_level c >? 2)%Z (emit (SERIAL_ECHO "Positioning the probe...")) ;;
  when (HAS_LEVELING mach) (emit (set_bed_leveling_enabled false)) ;;
  emit setup_for_endstop_or_probe_move ;;
  t <- emit_check_pt (X_probe_location c) (Y_probe_location c)
         (raise_after c) (verbose_level c) ;;
  let st := stats_init (negb (isnan t)) in
  st <- (if probing_good st then
           (emit randomSeed ;;
            probe_loop (Z.to_nat (n_samples c)) 0 st)
         else ret st) ;;
  emit STOW_PROBE ;;
  when (probing_good st)
    (emit (SERIAL_ECHO "Finished!") ;;
     when (verbose_level c >? 0)%Z
       (emit (ECHO_SUMMARY (mean st) (min st) (max st) (max st - min st))) ;;
     emit (ECHO_STD_DEV (sigma st)) ;;
     when (HAS_LCD mach) (emit (LCD_DEVIATION (sigma st)))) ;;
  emit clean_up_after_endstop_or_probe_move ;;
  when (HAS_LEVELING mach) (emit restore_bed_leveling_state) ;;
  emit report_current_position.

End Validated.

Definition gcode_M48 (p : Parser) : M unit :=
  c <- M48_parameters p ;;
  match c with
  | None => ret tt
  | Some c => M48_probe c
  end.

End Routine.

(** ** Reading the outcome of a run *)

(** The world [w] after the events [evs] and nothing else. *)
Definition log (w : World) (evs : list Event) : World :=
  {| trace := trace w ++ evs;
     probe_calls := probe_calls w;
     rand_calls := rand_calls w |}.

(** [m] started in [w] returns [r] whenever it is given enough fuel. *)
Definition converges {A} (m : M A) (w : World) (r : A * World) : Prop :=
  exists f0, forall fuel, (f0 <= fuel)%nat -> m fuel w = Some r.

(** The world [w] after one more random draw. *)
Definition drawn (w : World) : World :=
  {| trace := trace w;
     probe_calls := probe_calls w;
     rand_calls := Datatypes.S (rand_calls w) |}.

(** [m] makes no probe read. *)
Definition keeps_reads {A} (m : M A) : Prop :=
  forall fuel w a w', m fuel w = Some (a, w') -> probe_calls w' = probe_calls w.

(** The same for the loop [while_fuel], whose bound is a separate argument. *)
Definition loops {S} (cond : S -> bool) (body : S -> M S)
    (s : S) (w : World) (r : S * World) : Prop :=
  exists n0, forall n fuel, (n0 <= n)%nat -> (n0 <= fuel)%nat ->
    while_fuel cond body n s fuel w = Some r.

Definition count (f : Event -> bool) (l : list Event) : nat :=
  List.length (filter f l).

Definition is_probe_read (e : Event) : bool :=
  match e with check_pt _ _ _ _ => true | _ => false end.

Definition is_motion (e : Event) : bool :=
  match e with do_blocking_move_to_xy _ _ => true | _ => false end.

Definition is_stow (e : Event) : bool :=
  match e with STOW_PROBE => true | _ => false end.

Definition is_restore (e : Event) : bool :=
  match e with restore_bed_leveling_state => true | _ => false end.

Definition is_report (e : Event) : bool :=
  match e with report_current_position => true | _ => false end.

(** Calls that act on the machine, as opposed to serial or display output. *)
Definition is_mechanical (e : Event) : bool :=
  match e with
  | set_bed_leveling_enabled _ | setup_for_endstop_or_probe_move
  | check_pt _ _ _ _ | do_blocking_move_to_xy _ _ | STOW_PROBE
  | clean_up_after_endstop_or_probe_move | restore_bed_leveling_state => true
  | _ => false
  end.

(** The lines of the final block (lines 242-258). *)
Definition is_final_block (e : Event) : bool :=
  match e with
  | SERIAL_ECHO msg => String.eqb msg "Finished!"
  | ECHO_SUMMARY _ _ _ _ | ECHO_STD_DEV _ | LCD_DEVIATION _ => true
  | _ => false
  end.

Definition is_summary (e : Event) : bool :=
  match e with ECHO_SUMMARY _ _ _ _ => true | _ => false end.

(** What the movement pattern of one sample may emit. *)
Definition is_legs_event (e : Event) : bool :=
  match e with
  | ECHO_START _ _ _ | ECHO_PULLING _ _ | ECHO_GOING_TO _ _
  | do_blocking_move_to_xy _ _ => true
  | _ => false
  end.

(** What the probe loop may emit. *)
Definition is_loop_event (e : Event) : bool :=
  match e with
  | LCD_POINT _ _ | ECHO_SAMPLE _ _ _ _ | check_pt _ _ _ _ => true
  | _ => is_legs_event e
  end.

(** The error lines of the gates. *)
Definition MSG_VERBOSE : string := "?Verbose Level not plausible (0-4).".
Definition MSG_SAMPLES : string := "?Sample size not plausible (4-50).".
Definition MSG_BOUNDS : string := "? (X,Y) out of bounds.".
Definition MSG_LEGS : string :=
  "?Number of legs in movement not plausible (0-15).".

(** The values of the options as the routine reads them, with defaults. *)
Definition asked_verbose (p : Parser) : Z :=
  match seen_V p with Some b => uint8_t b | None => 1%Z end.
Definition asked_samples (p : Parser) : Z :=
  match seen_P p with Some b => uint8_t b | None => 10%Z end.
Definition asked_legs (p : Parser) : Z :=
  match seen_L p with Some b => uint8_t b | None => 0%Z end.
Definition asked_X (mach : Machine) (p : Parser) : R :=
  match seen_X p with
  | Some x => x
  | None => current_position_X mach + probe_offset_X mach
  end.
Definition asked_Y (mach : Machine) (p : Parser) : R :=
  match seen_Y p with
  | Some y => y
  | None => current_position_Y mach + probe_offset_Y mach
  end.

Definition verbose_ok (p : Parser) : Prop := (0 <= asked_verbose p <= 4)%Z.
Definition samples_ok (p : Parser) : Prop := (4 <= asked_samples p <= 50)%Z.
Definition legs_ok (p : Parser) : Prop := (0 <= asked_legs p <= 15)%Z.
Definition target_ok (mach : Machine) (p : Parser) : Prop :=
  position_is_reachable_by_probe mach (asked_X mach p) (asked_Y mach p) = true.

(** The locals after the gates, when every gate is passed. *)
Definition locals_of (mach : Machine) (p : Parser) : Locals :=
  {| verbose_level := asked_verbose p;
     n_samples := asked_samples p;
     raise_after := if boolval_E p then PROBE_PT_STOW else PROBE_PT_RAISE;
     X_probe_location := asked_X mach p;
     Y_probe_location := asked_Y mach p;
     n_legs :=
       (let n_legs := asked_legs p in
        let n_legs := if (n_legs =? 1)%Z then 2%Z else n_legs in
        if seen_S p && negb (match seen_L p with Some _ => true | None => false end)
        then 7%Z else n_legs);
     schizoid_flag := seen_S p |}.

(** The title line, printed once the verbose level is accepted. *)
Definition title (p : Parser) : list Event :=
  if (asked_verbose p >? 0)%Z
  then [SERIAL_ECHO "M48 Z-Probe Repeatability Test"] else [].

(** The moves of one pass of the probe loop: none without legs, else
    [n_legs - 1]. *)
Definition moves_per_pass (c : Locals) : nat :=
  if (n_legs c =? 0)%Z then 0%nat else Z.to_nat (n_legs c - 1).

(** The progress line of pass number [k] (from 1) at verbose level 3 or 4,
    printed from the statistics [st] (lines 222-232). *)
Definition progress_line (c : Locals) (k : nat) (sample : R) (st : Stats)
  : Event :=
  ECHO_SAMPLE (Z.of_nat k) (n_samples c) sample
    (Some (mean st, sigma st, min st, max st, max st - min st)).

(** The calls between the gates and the probe loop (lines 99-112), the final
    block (lines 242-258) and the calls that end every run (lines 263-270). *)
Definition prologue (mach : Machine) (c : Locals) : list Event :=
  (if (verbose_level c >? 2)%Z
   then [SERIAL_ECHO "Positioning the probe..."] else [])
  ++ (if HAS_LEVELING mach then [set_bed_leveling_enabled false] else [])
  ++ [setup_for_endstop_or_probe_move;
      check_pt (X_probe_location c) (Y_probe_location c) (raise_after c)
        (verbose_level c)].

Definition final_block (mach : Machine) (c : Locals) (st : Stats)
  : list Event :=
  [SERIAL_ECHO "Finished!"]
  ++ (if (verbose_level c >? 0)%Z
      then [ECHO_SUMMARY (mean st) (min st) (max st) (max st - min st)]
      else [])
  ++ [ECHO_STD_DEV (sigma st)]
  ++ (if HAS_LCD mach then [LCD_DEVIATION (sigma st)] else []).

Definition epilogue (mach : Machine) : list Event :=
  [clean_up_after_endstop_or_probe_move]
  ++ (if HAS_LEVELING mach then [restore_bed_leveling_state] else [])
  ++ [report_current_position].

(** The legs of the movement pattern as the spec words them: 2 for a supplied
    1, 7 for the star pattern without a supplied value, else the supplied
    value, 0 by default. *)
Definition legs_by_rule (supplied : option Z) (schizoid : bool) : Z :=
  match supplied with
  | Some l => if (l =? 1)%Z then 2%Z else l
  | None => if schizoid then 7%Z else 0%Z
  end.

(** ** Reference statistics of a list of samples *)

Definition sum_list (l : list R) : R := fold_right Rplus 0 l.

Definition mean_of (l : list R) : R := sum_list l / INR (List.length l).

Definition sigma_of (l : list R) : R :=
  sqrt (sum_list (map (fun s => (s - mean_of l) * (s - mean_of l)) l)
        / INR (List.length l)).

(** [min(d, s1 .. sk)] and [max(d, s1 .. sk)]. *)
Definition min_from (d : R) (l : list R) : R := fold_left Rmin l d.
Definition max_from (d : R) (l : list R) : R := fold_left Rmax l d.

(** [min(s1 .. sk)] and [max(s1 .. sk)] of a non-empty list. *)
Definition min_of (l : list R) : R :=
  match l with [] => 0 | s :: t => min_from s t end.
Definition max_of (l : list R) : R :=
  match l with [] => 0 | s :: t => max_from s t end.

(** The readings [from], [from + 1], ... are the successful [samples]. *)
Definition reads (check_pt_result : nat -> option R) (from : nat)
    (samples : list R) : Prop :=
  map check_pt_result (seq from (List.length samples)) = map Some samples.

(** The pull loop leaves every point after finitely many scalings. *)
Definition pulls_in (mach : Machine) : Prop :=
  MECH_DELTA mach = true ->
  forall x y, exists n,
    position_is_reachable_by_probe mach (x * 0.8 ^ n) (y * 0.8 ^ n) = true.

(** Modelled from the spec: [position_is_reachable_by_probe] is not in the
    source file.  For center-pivoted kinematics the spec bounds the reachable
    points by a radius from the central pivot. *)
Definition within_radius (radius x y : R) : bool :=
  if Rle_dec (x * x + y * y) (radius * radius) then true else false.

(** The pull loop takes at most [N] scalings, and ends on a reachable point,
    from every waypoint of a pattern around the target of [c]: every angle,
    every radius from 0 to a third of the reachable radius. *)
Definition pulls_within (mach : Machine) (c : Locals) (N : nat) : Prop :=
  forall (angle radius : R) (w : World),
    0 <= radius <= 0.3333333333 * probe_radius mach ->
    let X_current := X_probe_location c - probe_offset_X mach
                     + cos (RADIANS angle) * radius in
    let Y_current := Y_probe_location c - probe_offset_Y mach
                     + sin (RADIANS angle) * radius in
    exists (n : nat) (evs : list Event),
      (n <= N)%nat
      /\ converges (pull_to_center mach c (X_current, Y_current)) w
           ((X_current * 0.8 ^ n, Y_current * 0.8 ^ n), log w evs)
      /\ position_is_reachable_by_probe mach
           (X_current * 0.8 ^ n) (Y_current * 0.8 ^ n) = true
      /\ count is_motion evs = 0%nat.

(** A request with an option out of its range, and a trace that reports the
    message of one of the options that are out of range. *)
Definition invalid_parameter (p : Parser) : Prop :=
  ~ verbose_ok p \/ ~ samples_ok p \/ ~ legs_ok p.

Definition reports_invalid_parameter (p : Parser) (tr : list Event) : Prop :=
  (~ verbose_ok p /\ In (SERIAL_ERROR MSG_VERBOSE) tr)
  \/ (~ samples_ok p /\ In (SERIAL_ERROR MSG_SAMPLES) tr)
  \/ (~ legs_ok p /\ In (SERIAL_ERROR MSG_LEGS) tr).

(** ** Sample machines, probes and requests *)

(** A Cartesian machine with bed levelling, homed, at the middle of a
    200 x 200 bed, whose probe reaches every point. *)
Definition bench : Machine :=
  {| MECH_DELTA := false; HAS_LEVELING := true; HAS_LCD := false;
     X_MIN_BED := 0; X_MAX_BED := 200; Y_MIN_BED := 0; Y_MAX_BED := 200;
     probe_radius := 0;
     axis_unhomed_error := false;
     current_position_X := 100; current_position_Y := 100;
     probe_offset_X := 0; probe_offset_Y := 0;
     position_is_reachable_by_probe := fun _ _ => true |}.

(** The same machine built without bed levelling. *)
Definition bench_without_leveling : Machine :=
  {| MECH_DELTA := false; HAS_LEVELING := false; HAS_LCD := false;
     X_MIN_BED := 0; X_MAX_BED := 200; Y_MIN_BED := 0; Y_MAX_BED := 200;
     probe_radius := 0;
     axis_unhomed_error := false;
     current_position_X := 100; current_position_Y := 100;
     probe_offset_X := 0; probe_offset_Y := 0;
     position_is_reachable_by_probe := fun _ _ => true |}.

(** The same machine with a probe that reaches no point. *)
Definition bench_out_of_reach : Machine :=
  {| MECH_DELTA := false; HAS_LEVELING := true; HAS_LCD := false;
     X_MIN_BED := 0; X_MAX_BED := 200; Y_MIN_BED := 0; Y_MAX_BED := 200;
     probe_radius := 0;
     axis_unhomed_error := false;
     current_position_X := 100; current_position_Y := 100;
     probe_offset_X := 0; probe_offset_Y := 0;
     position_is_reachable_by_probe := fun _ _ => false |}.

(** A delta machine whose probe reaches the points within 100 of the
    centre, homed at the centre. *)
Definition delta_100 : Machine :=
  {| MECH_DELTA := true; HAS_LEVELING := true; HAS_LCD := false;
     X_MIN_BED := -100; X_MAX_BED := 100; Y_MIN_BED := -100; Y_MAX_BED := 100;
     probe_radius := 100;
     axis_unhomed_error := false;
     current_position_X := 0; current_position_Y := 0;
     probe_offset_X := 0; probe_offset_Y := 0;
     position_is_reachable_by_probe := within_radius 100 |}.

(** A probe that always reads [z], and one that never reads. *)
Definition steady (z : R) : nat -> option R := fun _ => Some z.
Definition dead : nat -> option R := fun _ => None.

(** A probe whose first reading is [z0] and all the others [z]. *)
Definition steady_after (z0 z : R) : nat -> option R :=
  fun i => match i with O => Some z0 | _ => Some z end.

(** A generator that always yields 0. *)
Definition zeros : nat -> N := fun _ => 0%N.

(** "M48" with the options given, the others left out. *)
Definition request (V P L : option byte) (S : bool) : Parser :=
  {| seen_V := V; seen_P := P; seen_X := None; seen_Y := None;
     boolval_E := false; seen_L := L; seen_S := S |}.

(** "M48 X.. Y..": the target given, the other options left out. *)
Definition request_at (x y : R) : Parser :=
  {| seen_V := None; seen_P := None; seen_X := Some x; seen_Y := Some y;
     boolval_E := false; seen_L := None; seen_S := false |}.

(** A probe whose reading number 2 is 100000 and all the others 1. *)
Definition spike : nat -> option R :=
  fun i => if Nat.eqb i 2 then Some 100000 else Some 1.

(** The ten values [random(0, 10)] can return. *)
Definition draws_0_10 : list Z := [0; 1; 2; 3; 4; 5; 6; 7; 8; 9]%Z.

(** ** Invariants of a run *)

(** Whenever [m] returns, its result satisfies [Q] and the events it has
    added to the trace all satisfy [P]. *)
Definition hoare {A} (P : Event -> Prop) (Q : A -> Prop) (m : M A) : Prop :=
  forall fuel w a w',
    m fuel w = Some (a, w') ->
    Q a /\ exists evs, trace w' = trace w ++ evs /\ Forall P evs.

(** The five gates are passed. *)
Definition all_gates (mach : Machine) (p : Parser) : Prop :=
  axis_unhomed_error mach = false /\ verbose_ok p /\ samples_ok p
  /\ target_ok mach p /\ legs_ok p.

(** What [random(howsmall, howbig)] may return. *)
Definition drawn_from (howsmall howbig r : Z) : Prop :=
  ((howsmall < howbig)%Z -> (howsmall <= r < howbig)%Z)
  /\ ((howbig <= howsmall)%Z -> r = howsmall).

(** A waypoint after the correction of lines 167-181: reachable by the probe
    on a delta build, within the bed on the others (on each axis whose
    bounds are in order). *)
Definition corrected (mach : Machine) (x y : R) : Prop :=
  if MECH_DELTA mach then position_is_reachable_by_probe mach x y = true
  else (X_MIN_BED mach <= X_MAX_BED mach ->
        X_MIN_BED mach <= x <= X_MAX_BED mach)
       /\ (Y_MIN_BED mach <= Y_MAX_BED mach ->
           Y_MIN_BED mach <= y <= Y_MAX_BED mach).

(** The greatest radius of the pattern of a Cartesian build (lines 127-134):
    the radius is drawn from 5 up to an eighth of the shorter side of the bed,
    and is 5 when that leaves nothing to draw from. *)
Definition pattern_radius (mach : Machine) : R :=
  Rmax 5 (0.125 * MIN (X_MAX_BED mach) (Y_MAX_BED mach)).

(** On a Cartesian build the point ([x], [y]) is, on each axis, no further
    than the pattern radius from the centre of the pattern (the target less
    the probe offset), when the centre is within the bed on that axis. *)
Definition near_target (mach : Machine) (c : Locals) (x y : R) : Prop :=
  MECH_DELTA mach = false ->
  (X_MIN_BED mach <= X_probe_location c - probe_offset_X mach
                  <= X_MAX_BED mach ->
   Rabs (x - (X_probe_location c - probe_offset_X mach))
   <= pattern_radius mach)
  /\ (Y_MIN_BED mach <= Y_probe_location c - probe_offset_Y mach
                     <= Y_MAX_BED mach ->
      Rabs (y - (Y_probe_location c - probe_offset_Y mach))
      <= pattern_radius mach).

(** The calls and the lines that lines 99-270 can produce, each with the
    guard it stands under and what is known of its arguments. *)
Definition emitted (mach : Machine) (c : Locals) (e : Event) : Prop :=
  match e with
  | SERIAL_ERROR _ => False
  | SERIAL_ECHO msg =>
      (msg = "Positioning the probe..."%string /\ (2 < verbose_level c)%Z)
      \/ msg = "Finished!"%string
  | ECHO_START _ angle dir =>
      (3 < verbose_level c)%Z /\ n_legs c <> 0%Z
      /\ (dir = 1%Z \/ dir = (-1)%Z) /\ 0 <= angle < 360
  | ECHO_PULLING _ _ =>
      (3 < verbose_level c)%Z /\ n_legs c <> 0%Z /\ MECH_DELTA mach = true
  | ECHO_GOING_TO x y =>
      (3 < verbose_level c)%Z /\ n_legs c <> 0%Z /\ corrected mach x y
  | ECHO_SAMPLE k n _ detail =>
      (1 < verbose_level c)%Z /\ (1 <= k)%Z /\ n = n_samples c
      /\ (((2 < verbose_level c)%Z /\ detail <> None)
          \/ ((verbose_level c <= 2)%Z /\ detail = None))
  | ECHO_SUMMARY _ _ _ _ => (0 < verbose_level c)%Z
  | ECHO_STD_DEV _ => True
  | LCD_POINT k n => HAS_LCD mach = true /\ (1 <= k)%Z /\ n = n_samples c
  | LCD_DEVIATION _ => HAS_LCD mach = true
  | set_bed_leveling_enabled enable =>
      HAS_LEVELING mach = true /\ enable = false
  | setup_for_endstop_or_probe_move => True
  | check_pt x y r v =>
      x = X_probe_location c /\ y = Y_probe_location c /\ r = raise_after c
      /\ (v = verbose_level c \/ v = 0%Z)
  | randomSeed => True
  | do_blocking_move_to_xy x y =>
      n_legs c <> 0%Z /\ corrected mach x y /\ near_target mach c x y
  | STOW_PROBE => True
  | clean_up_after_endstop_or_probe_move => True
  | restore_bed_leveling_state => HAS_LEVELING mach = true
  | report_current_position => True
  end.

(** The least verbose level at which a line is printed; 0 for the calls
    that are not serial output and for the lines always printed. *)
Definition level_of (e : Event) : Z :=
  match e with
  | SERIAL_ECHO msg =>
      if String.eqb msg "M48 Z-Probe Repeatability Test" then 1%Z
      else if String.eqb msg "Positioning the probe..." then 3%Z
      else 0%Z
  | ECHO_START _ _ _ | ECHO_PULLING _ _ | ECHO_GOING_TO _ _ => 4%Z
  | ECHO_SAMPLE _ _ _ None => 2%Z
  | ECHO_SAMPLE _ _ _ (Some _) => 3%Z
  | ECHO_SUMMARY _ _ _ _ => 1%Z
  | _ => 0%Z
  end.

(** A move that stays where the machine can go. *)
Definition safe_move (mach : Machine) (e : Event) : Prop :=
  match e with
  | do_blocking_move_to_xy x y => corrected mach x y
  | _ => True
  end.


(** The progress lines of lines 220-234, and what they show: the number of
    the sample and the reading. *)
Definition is_sample_line (e : Event) : bool :=
  match e with ECHO_SAMPLE _ _ _ _ => true | _ => false end.

Definition line_key (e : Event) : Z * option R :=
  match e with
  | ECHO_SAMPLE k _ sample _ => (k, Some sample)
  | _ => (0%Z, None)
  end.

Definition shown (evs : list Event) : list (Z * option R) :=
  map line_key (filter is_sample_line evs).

(** The readings number [from], [from + 1], ... ([j] of them), each with its
    number. *)
Definition numbered_reads (check_pt_result : nat -> option R) (from j : nat)
  : list (Z * option R) :=
  map (fun k => (Z.of_nat k, check_pt_result k)) (seq from j).

(** A probe read at the target of the request, with its way of raising. *)
Definition read_at_target (mach : Machine) (p : Parser) (e : Event) : Prop :=
  match e with
  | check_pt x y r _ =>
      x = asked_X mach p /\ y = asked_Y mach p
      /\ r = (if boolval_E p then PROBE_PT_STOW else PROBE_PT_RAISE)
  | _ => True
  end.

Definition is_level_off (e : Event) : bool :=
  match e with set_bed_leveling_enabled _ => true | _ => false end.

Definition is_setup (e : Event) : bool :=
  match e with setup_for_endstop_or_probe_move => true | _ => false end.

Definition is_clean_up (e : Event) : bool :=
  match e with clean_up_after_endstop_or_probe_move => true | _ => false end.

(** The calls that open and close the mechanical part of a run. *)
Definition is_bracket (e : Event) : bool :=
  match e with
  | set_bed_leveling_enabled _ | setup_for_endstop_or_probe_move | STOW_PROBE
  | clean_up_after_endstop_or_probe_move | restore_bed_leveling_state
  | report_current_position => true
  | _ => false
  end.


(** The lines of [N] scalings by the pull loop from the point ([x], [y])
    (lines 173-176). *)
Definition pulling_lines (c : Locals) (x y : R) (N : nat) : list Event :=
  if (verbose_level c >? 3)%Z
  then map (fun k => ECHO_PULLING (x * 0.8 ^ k) (y * 0.8 ^ k)) (seq 1 N)
  else [].

(** * Properties *)

(** ** Convergence of the combinators *)

Lemma converges_ret {A} (a : A) w : converges (ret a) w (a, w).
Proof. exists 0%nat. reflexivity. Qed.

Lemma converges_bind {A B} (m : M A) (k : A -> M B) w a w' r :
  converges m w (a, w') -> converges (k a) w' r -> converges (bind m k) w r.
Proof.
  intros [f1 H1] [f2 H2]. exists (Nat.max f1 f2). intros fuel Hf.
  unfold bind. rewrite H1 by lia. apply H2. lia.
Qed.

Lemma converges_unique {A} (m : M A) w r1 r2 :
  converges m w r1 -> converges m w r2 -> r1 = r2.
Proof.
  intros [f1 H1] [f2 H2].
  specialize (H1 (Nat.max f1 f2) (Nat.le_max_l _ _)).
  specialize (H2 (Nat.max f1 f2) (Nat.le_max_r _ _)).
  congruence.
Qed.

Lemma converges_total {A} (m : M A) w r :
  (forall fuel, m fuel w = Some r) -> converges m w r.
Proof. intros H. exists 0%nat. intros. apply H. Qed.

Lemma loops_done {S} (cond : S -> bool) body s w :
  cond s = false -> loops cond body s w (s, w).
Proof.
  intros Hc. exists 1%nat. intros n fuel Hn _.
  destruct n; [lia|]. simpl. rewrite Hc. reflexivity.
Qed.

Lemma loops_step {S} (cond : S -> bool) body s w s' w' r :
  cond s = true -> converges (body s) w (s', w') ->
  loops cond body s' w' r -> loops cond body s w r.
Proof.
  intros Hc [f1 H1] [n2 H2]. exists (Datatypes.S (Nat.max f1 n2)).
  intros n fuel Hn Hf. destruct n; [lia|]. simpl. rewrite Hc.
  unfold bind. rewrite H1 by lia. apply H2; lia.
Qed.

Lemma loops_converges {S} (cond : S -> bool) body s w r :
  loops cond body s w r -> converges (while cond body s) w r.
Proof.
  intros [n0 H]. exists n0. intros fuel Hf. unfold while. apply H; lia.
Qed.

(** ** Comparisons of the firmware macros *)

Lemma fgt_true a b : a > b -> fgt a b = true.
Proof. intros H. unfold fgt. destruct (Rgt_dec a b); [reflexivity | lra]. Qed.

Lemma fgt_false a b : a <= b -> fgt a b = false.
Proof. intros H. unfold fgt. destruct (Rgt_dec a b); [lra | reflexivity]. Qed.

Lemma flt_true a b : a < b -> flt a b = true.
Proof. intros H. unfold flt. destruct (Rlt_dec a b); [reflexivity | lra]. Qed.

Lemma flt_false a b : b <= a -> flt a b = false.
Proof. intros H. unfold flt. destruct (Rlt_dec a b); [lra | reflexivity]. Qed.

Lemma NOMORE_Rmin v n : NOMORE v n = Rmin v n.
Proof.
  unfold NOMORE, fgt, Rmin.
  destruct (Rgt_dec v n), (Rle_dec v n); lra.
Qed.

Lemma NOLESS_Rmax v n : NOLESS v n = Rmax v n.
Proof.
  unfold NOLESS, flt, Rmax.
  destruct (Rlt_dec v n), (Rle_dec v n); lra.
Qed.

Lemma nat_above (x : R) : exists k : nat, x <= INR k.
Proof.
  exists (Z.to_nat (up x)).
  destruct (archimed x) as [Hup _].
  destruct (Z_le_gt_dec 0 (up x)) as [Hz | Hz].
  - rewrite INR_IZR_INZ, Z2Nat.id by assumption. lra.
  - assert (IZR (up x) <= 0) by (apply (IZR_le _ 0); lia).
    pose proof (pos_INR (Z.to_nat (up x))). lra.
Qed.

(** ** The angle loops (lines 159-162) *)

Lemma wrap_down_loops (k : nat) : forall a w,
  a <= 360 * (INR k + 1) ->
  exists j : nat,
    loops (fun a => fgt a 360) (fun a => ret (a - 360)) a w
          (a - 360 * INR j, w)
    /\ a - 360 * INR j <= 360
    /\ (j <> 0%nat -> 0 < a - 360 * INR j).
Proof.
  induction k as [|k IH]; intros a w Ha.
  - exists 0%nat. simpl in *. replace (a - 360 * 0) with a by ring.
    repeat split; [|lra|congruence].
    apply loops_done. apply fgt_false. lra.
  - destruct (Rle_dec a 360) as [Hle | Hgt].
    + exists 0%nat. simpl. replace (a - 360 * 0) with a by ring.
      repeat split; [|lra|congruence].
      apply loops_done. apply fgt_false. exact Hle.
    + rewrite S_INR in Ha.
      destruct (IH (a - 360) w) as (j & Hl & Hub & Hpos); [lra|].
      exists (Datatypes.S j). rewrite S_INR.
      replace (a - 360 * (INR j + 1)) with (a - 360 - 360 * INR j) by ring.
      repeat split; [|exact Hub|].
      * eapply loops_step; [apply fgt_true; lra | apply converges_ret | exact Hl].
      * intros _. destruct j as [|j'].
        -- simpl. lra.
        -- apply Hpos. congruence.
Qed.

Lemma wrap_up_loops (k : nat) : forall a w,
  - (360 * INR k) <= a ->
  exists j : nat,
    loops (fun a => flt a 0) (fun a => ret (a + 360)) a w
          (a + 360 * INR j, w)
    /\ 0 <= a + 360 * INR j
    /\ (j <> 0%nat -> a + 360 * INR j < 360).
Proof.
  induction k as [|k IH]; intros a w Ha.
  - exists 0%nat. simpl in *. replace (a + 360 * 0) with a by ring.
    repeat split; [|lra|congruence].
    apply loops_done. apply flt_false. lra.
  - destruct (Rle_dec 0 a) as [Hge | Hlt].
    + exists 0%nat. simpl. replace (a + 360 * 0) with a by ring.
      repeat split; [|lra|congruence].
      apply loops_done. apply flt_false. exact Hge.
    + rewrite S_INR in Ha.
      destruct (IH (a + 360) w) as (j & Hl & Hlb & Hlt'); [lra|].
      exists (Datatypes.S j). rewrite S_INR.
      replace (a + 360 * (INR j + 1)) with (a + 360 + 360 * INR j) by ring.
      repeat split; [|exact Hlb|].
      * eapply loops_step; [apply flt_true; lra | apply converges_ret | exact Hl].
      * intros _. destruct j as [|j'].
        -- simpl. lra.
        -- apply Hlt'. congruence.
Qed.

(** The two loops together: they stop, on a value between 0 and 360 (both
    included) that differs from the input by a multiple of 360. *)
Lemma wrap_angle_converges (angle : R) (w : World) :
  exists k : Z,
    converges (wrap_angle angle) w (angle + 360 * IZR k, w)
    /\ 0 <= angle + 360 * IZR k <= 360.
Proof.
  destruct (nat_above (angle / 360)) as [k1 Hk1].
  destruct (wrap_down_loops k1 angle w) as (j1 & Hl1 & Hub & Hpos).
  { pose proof (pos_INR k1).
    replace angle with (360 * (angle / 360)) by (field; lra). lra. }
  set (a1 := angle - 360 * INR j1) in *.
  destruct (nat_above (- a1 / 360)) as [k2 Hk2].
  destruct (wrap_up_loops k2 a1 w) as (j2 & Hl2 & Hlb & Hlt).
  { replace a1 with (- (360 * (- a1 / 360))) by (field; lra). lra. }
  exists (Z.of_nat j2 - Z.of_nat j1)%Z.
  rewrite minus_IZR, <- !INR_IZR_INZ.
  replace (angle + 360 * (INR j2 - INR j1)) with (a1 + 360 * INR j2)
    by (unfold a1; ring).
  split.
  - unfold wrap_angle. eapply converges_bind.
    + apply loops_converges. exact Hl1.
    + apply loops_converges. exact Hl2.
  - split; [exact Hlb|].
    destruct j2 as [|j2'].
    + simpl. lra.
    + assert (Datatypes.S j2' <> 0%nat) by congruence. apply Hlt in H. lra.
Qed.

(** ** The primitive actions *)

Lemma log_nil w : log w [] = w.
Proof. destruct w. unfold log. simpl. rewrite app_nil_r. reflexivity. Qed.

Lemma log_log w a b : log (log w a) b = log w (a ++ b).
Proof. unfold log. simpl. rewrite app_assoc. reflexivity. Qed.

Lemma converges_emit e w : converges (emit e) w (tt, log w [e]).
Proof. apply converges_total. reflexivity. Qed.

Lemma converges_when_emit (b : bool) e w :
  converges (when b (emit e)) w (tt, log w (if b then [e] else [])).
Proof.
  destruct b; simpl.
  - apply converges_emit.
  - rewrite log_nil. apply converges_ret.
Qed.

Lemma count_app f a b : count f (a ++ b) = (count f a + count f b)%nat.
Proof. unfold count. rewrite filter_app, length_app. reflexivity. Qed.

Lemma count_zero (P : Event -> Prop) (f : Event -> bool) evs :
  (forall e, P e -> f e = false) -> Forall P evs -> count f evs = 0%nat.
Proof.
  intros HP H. induction H as [|e l He _ IH]; [reflexivity|].
  unfold count in *. simpl. rewrite (HP e He). exact IH.
Qed.

(** ** The pull loop of the delta build (lines 170-177) *)

Section Legs.

Variable mach : Machine.
Variable random_long : nat -> N.
Variable c : Locals.

Lemma pull_to_center_loops (N : nat) : forall x y w,
  position_is_reachable_by_probe mach (x * 0.8 ^ N) (y * 0.8 ^ N) = true ->
  exists (n : nat) evs,
    (n <= N)%nat
    /\ converges (pull_to_center mach c (x, y)) w
         ((x * 0.8 ^ n, y * 0.8 ^ n), log w evs)
    /\ position_is_reachable_by_probe mach (x * 0.8 ^ n) (y * 0.8 ^ n) = true
    /\ Forall (fun e => is_legs_event e = true) evs
    /\ count is_motion evs = 0%nat.
Proof.
  unfold pull_to_center.
  set (cond := fun XY : R * R =>
         negb (position_is_reachable_by_probe mach (fst XY) (snd XY))).
  set (body := fun XY : R * R =>
         bind (when (verbose_level c >? 3)%Z
                 (emit (ECHO_PULLING (fst XY * 0.8) (snd XY * 0.8))))
              (fun _ => ret (fst XY * 0.8, snd XY * 0.8))).
  assert (Hloops : forall N x y w,
    position_is_reachable_by_probe mach (x * 0.8 ^ N) (y * 0.8 ^ N) = true ->
    exists (n : nat) evs,
      (n <= N)%nat
      /\ loops cond body (x, y) w ((x * 0.8 ^ n, y * 0.8 ^ n), log w evs)
      /\ position_is_reachable_by_probe mach (x * 0.8 ^ n) (y * 0.8 ^ n) = true
      /\ Forall (fun e => is_legs_event e = true) evs
      /\ count is_motion evs = 0%nat).
  { clear N. intros N. induction N as [|N IH]; intros x y w HN.
    - exists 0%nat, []. simpl in *. rewrite !Rmult_1_r in *. rewrite log_nil.
      repeat split; auto.
      apply loops_done. unfold cond. simpl. rewrite HN. reflexivity.
    - destruct (position_is_reachable_by_probe mach x y) eqn:Hxy.
      + exists 0%nat, []. simpl. rewrite !Rmult_1_r. rewrite log_nil.
        repeat split; auto; [lia|].
        apply loops_done. unfold cond. simpl. rewrite Hxy. reflexivity.
      + destruct (IH (x * 0.8) (y * 0.8)
                    (log w (if (verbose_level c >? 3)%Z
                            then [ECHO_PULLING (x * 0.8) (y * 0.8)] else [])))
          as (n & evs & Hn & Hl & Hr & Hev & Hmv).
        { replace (x * 0.8 * 0.8 ^ N) with (x * 0.8 ^ Datatypes.S N)
            by (simpl; ring).
          replace (y * 0.8 * 0.8 ^ N) with (y * 0.8 ^ Datatypes.S N)
            by (simpl; ring).
          exact HN. }
        rewrite log_log in Hl.
        replace (x * 0.8 * 0.8 ^ n) with (x * 0.8 ^ Datatypes.S n) in *
          by (simpl; ring).
        replace (y * 0.8 * 0.8 ^ n) with (y * 0.8 ^ Datatypes.S n) in *
          by (simpl; ring).
        exists (Datatypes.S n),
          ((if (verbose_level c >? 3)%Z
            then [ECHO_PULLING (x * 0.8) (y * 0.8)] else []) ++ evs).
        repeat split; [lia| |exact Hr| |].
        * eapply loops_step; [unfold cond; simpl; rewrite Hxy; reflexivity
                             | | exact Hl].
          unfold body. eapply converges_bind;
            [apply converges_when_emit | apply converges_ret].
        * apply Forall_app. split; [|exact Hev].
          destruct (verbose_level c >? 3)%Z; repeat constructor.
        * rewrite count_app, Hmv.
          destruct (verbose_level c >? 3)%Z; reflexivity. }
  intros x y w HN.
  destruct (Hloops N x y w HN) as (n & evs & Hn & Hl & Hrest).
  exists n, evs. split; [exact Hn|]. split; [|exact Hrest].
  apply loops_converges. exact Hl.
Qed.

(** ** The movement pattern (lines 124-192) *)

Lemma converges_random lo hi w :
  exists r, converges (random random_long lo hi) w (r, drawn w).
Proof. eexists. apply converges_total. reflexivity. Qed.

Lemma delta_angle_converges (dir : Z) w :
  exists d w1,
    converges (if schizoid_flag c then ret (IZR dir * 2 * 72)
               else bind (random random_long 25 45)
                         (fun r => ret (IZR dir * IZR r))) w (d, w1)
    /\ trace w1 = trace w /\ probe_calls w1 = probe_calls w.
Proof.
  destruct (schizoid_flag c).
  - exists (IZR dir * 2 * 72), w. split; [apply converges_ret | auto].
  - destruct (converges_random 25 45 w) as [r Hr].
    exists (IZR dir * IZR r), (drawn w). split; [|auto].
    eapply converges_bind; [exact Hr | apply converges_ret].
Qed.

Lemma correction_converges (X Y : R) w :
  pulls_in mach ->
  exists XY evs,
    converges (if MECH_DELTA mach then pull_to_center mach c (X, Y)
               else ret (LIMIT X (X_MIN_BED mach) (X_MAX_BED mach),
                         LIMIT Y (Y_MIN_BED mach) (Y_MAX_BED mach)))
              w (XY, log w evs)
    /\ Forall (fun e => is_legs_event e = true) evs
    /\ count is_motion evs = 0%nat.
Proof.
  intros Hp. unfold pulls_in in Hp.
  destruct (MECH_DELTA mach).
  - destruct (Hp eq_refl X Y) as [N HN].
    destruct (pull_to_center_loops N X Y w HN) as (n & evs & _ & Hc & _ & Hev & Hmv).
    eauto.
  - exists (LIMIT X (X_MIN_BED mach) (X_MAX_BED mach),
            LIMIT Y (Y_MIN_BED mach) (Y_MAX_BED mach)), [].
    rewrite log_nil. repeat split; [apply converges_ret | constructor].
Qed.

Lemma legs_loop_converges (dir : Z) (radius : R) :
  pulls_in mach ->
  forall legs angle w,
  exists w' evs,
    converges (legs_loop mach random_long c dir radius legs angle) w (tt, w')
    /\ trace w' = trace w ++ evs
    /\ probe_calls w' = probe_calls w
    /\ Forall (fun e => is_legs_event e = true) evs
    /\ count is_motion evs = legs.
Proof.
  intros Hp. induction legs as [|legs IH]; intros angle w.
  - exists w, []. rewrite app_nil_r.
    repeat split; [apply converges_ret | constructor].
  - destruct (delta_angle_converges dir w) as (d & w1 & Hd & Ht1 & Hp1).
    destruct (wrap_angle_converges (angle + d) w1) as (k & Hw & _).
    set (a := angle + d + 360 * IZR k) in *.
    destruct (correction_converges
                (X_probe_location c - probe_offset_X mach + cos (RADIANS a) * radius)
                (Y_probe_location c - probe_offset_Y mach + sin (RADIANS a) * radius)
                w1 Hp) as (XY & evs1 & Hx & Hev1 & Hmv1).
    set (evs2 := if (verbose_level c >? 3)%Z
                 then [ECHO_GOING_TO (fst XY) (snd XY)] else []).
    set (w2 := log (log (log w1 evs1) evs2)
                   [do_blocking_move_to_xy (fst XY) (snd XY)]).
    destruct (IH a w2) as (w' & evs3 & Hl & Ht3 & Hp3 & Hev3 & Hmv3).
    exists w', (evs1 ++ evs2 ++ [do_blocking_move_to_xy (fst XY) (snd XY)] ++ evs3).
    split; [|split; [|split; [|split]]].
    + simpl legs_loop.
      eapply converges_bind; [exact Hd|].
      eapply converges_bind; [exact Hw|].
      eapply converges_bind; [exact Hx|].
      eapply converges_bind; [apply converges_when_emit|].
      eapply converges_bind; [apply converges_emit|].
      exact Hl.
    + rewrite Ht3. unfold w2. simpl. rewrite Ht1.
      rewrite <- !app_assoc. reflexivity.
    + rewrite Hp3. unfold w2. simpl. exact Hp1.
    + apply Forall_app. split; [exact Hev1|].
      apply Forall_app. split; [unfold evs2;
        destruct (verbose_level c >? 3)%Z; repeat constructor|].
      apply Forall_app. split; [repeat constructor | exact Hev3].
    + rewrite !count_app, Hmv1, Hmv3. unfold evs2.
      destruct (verbose_level c >? 3)%Z; reflexivity.
Qed.

Lemma legs_pattern_converges w :
  pulls_in mach ->
  exists w' evs,
    converges (legs_pattern mach random_long c) w (tt, w')
    /\ trace w' = trace w ++ evs
    /\ probe_calls w' = probe_calls w
    /\ Forall (fun e => is_legs_event e = true) evs
    /\ count is_motion evs = Z.to_nat (n_legs c - 1).
Proof.
  intros Hp. unfold legs_pattern.
  destruct (converges_random 0 10 w) as [r1 H1].
  destruct (converges_random 0 360 (drawn w)) as [r2 H2].
  assert (H3 : exists r3,
    converges (if MECH_DELTA mach then
                 random random_long
                   (int_of_float (0.1250000000 * probe_radius mach))
                   (int_of_float (0.3333333333 * probe_radius mach))
               else
                 random random_long 5
                   (int_of_float (0.125 * MIN (X_MAX_BED mach) (Y_MAX_BED mach))))
              (drawn (drawn w)) (r3, drawn (drawn (drawn w)))).
  { destruct (MECH_DELTA mach); apply converges_random. }
  destruct H3 as [r3 H3].
  set (evs0 := if (verbose_level c >? 3)%Z
               then [ECHO_START (IZR r3) (IZR r2) (dir_of_draw r1)] else []).
  destruct (legs_loop_converges (dir_of_draw r1) (IZR r3) Hp
              (Z.to_nat (n_legs c - 1)) (IZR r2)
              (log (drawn (drawn (drawn w))) evs0))
    as (w' & evs & Hl & Ht & Hpc & Hev & Hmv).
  exists w', (evs0 ++ evs).
  split; [|split; [|split; [|split]]].
  - eapply converges_bind; [exact H1|].
    eapply converges_bind; [exact H2|].
    eapply converges_bind; [exact H3|].
    eapply converges_bind; [apply converges_when_emit|].
    exact Hl.
  - rewrite Ht. simpl. rewrite app_assoc. reflexivity.
  - rewrite Hpc. reflexivity.
  - apply Forall_app. split; [|exact Hev].
    unfold evs0. destruct (verbose_level c >? 3)%Z; repeat constructor.
  - rewrite count_app, Hmv. unfold evs0.
    destruct (verbose_level c >? 3)%Z; reflexivity.
Qed.

End Legs.

(** ** The statistics (lines 204-219) *)

Lemma array_set_length a : forall i v,
  List.length (array_set a i v) = List.length a.
Proof.
  induction a as [|h t IH]; intros [|i] v; simpl; auto.
Qed.

Lemma firstn_array_set a : forall i v,
  (i < List.length a)%nat ->
  firstn (Datatypes.S i) (array_set a i v) = firstn i a ++ [v].
Proof.
  induction a as [|h t IH]; intros [|i] v Hi; simpl in *; try lia.
  - reflexivity.
  - f_equal. apply IH. lia.
Qed.

Lemma firstn_snoc_nth (a : list R) : forall m,
  (m < List.length a)%nat ->
  firstn (Datatypes.S m) a = firstn m a ++ [array_get a m].
Proof.
  unfold array_get.
  induction a as [|h t IH]; intros [|m] Hm; simpl in *; try lia.
  - reflexivity.
  - f_equal. apply IH. lia.
Qed.

Lemma sum_list_snoc l x : sum_list (l ++ [x]) = sum_list l + x.
Proof.
  unfold sum_list. induction l as [|h t IH]; simpl; [ring|].
  rewrite IH. ring.
Qed.

Lemma sum_loop_firstn (f : R -> R) (a : list R) (m : nat) :
  (m <= List.length a)%nat ->
  fold_left (fun sum j => sum + f (array_get a j)) (seq 0 m) 0
  = sum_list (map f (firstn m a)).
Proof.
  induction m as [|m IH]; intros Hm.
  - reflexivity.
  - rewrite seq_S, fold_left_app. simpl fold_left.
    rewrite IH by lia.
    rewrite firstn_snoc_nth by lia.
    rewrite map_app. simpl map. rewrite sum_list_snoc. reflexivity.
Qed.

Lemma sum_to_firstn f a n :
  (n < List.length a)%nat ->
  sum_to f a n = sum_list (map f (firstn (Datatypes.S n) a)).
Proof. intros H. unfold sum_to. apply sum_loop_firstn. lia. Qed.

(** One update: the new sample is stored behind the earlier ones, the mean
    and the deviation are those of all the samples stored so far. *)
Lemma update_stats_spec (st : Stats) (prev : list R) (sample : R) :
  firstn (List.length prev) (sample_set st) = prev ->
  (List.length prev < List.length (sample_set st))%nat ->
  let st' := update_stats st (List.length prev) sample in
  firstn (Datatypes.S (List.length prev)) (sample_set st') = prev ++ [sample]
  /\ List.length (sample_set st') = List.length (sample_set st)
  /\ mean st' = mean_of (prev ++ [sample])
  /\ sigma st' = sigma_of (prev ++ [sample])
  /\ min st' = Rmin (min st) sample
  /\ max st' = Rmax (max st) sample
  /\ probing_good st' = true.
Proof.
  intros Hprev Hlen. simpl.
  assert (Hset : firstn (Datatypes.S (List.length prev))
                   (array_set (sample_set st) (List.length prev) sample)
                 = prev ++ [sample]).
  { rewrite firstn_array_set by exact Hlen. rewrite Hprev. reflexivity. }
  assert (Hn : INR (List.length prev + 1) = INR (List.length (prev ++ [sample]))).
  { rewrite length_app. reflexivity. }
  assert (Hmean : sum_to (fun s => s)
                    (array_set (sample_set st) (List.length prev) sample)
                    (List.length prev) / INR (List.length prev + 1)
                  = mean_of (prev ++ [sample])).
  { rewrite sum_to_firstn by (rewrite array_set_length; exact Hlen).
    rewrite Hset, map_id, Hn. reflexivity. }
  repeat split.
  - exact Hset.
  - apply array_set_length.
  - exact Hmean.
  - unfold SQRT, sigma_of. rewrite Hmean.
    rewrite sum_to_firstn by (rewrite array_set_length; exact Hlen).
    rewrite Hset, Hn. reflexivity.
  - apply NOMORE_Rmin.
  - apply NOLESS_Rmax.
Qed.

(** ** The probe loop (lines 119-236) *)

Lemma legs_event_loop_event e : is_legs_event e = true -> is_loop_event e = true.
Proof. destruct e; simpl; congruence. Qed.

Lemma legs_event_no_read e : is_legs_event e = true -> is_probe_read e = false.
Proof. destruct e; simpl; congruence. Qed.

Section Loop.

Variable mach : Machine.
Variable check_pt_result : nat -> option R.
Variable random_long : nat -> N.
Variable c : Locals.

Hypothesis Hpulls : pulls_in mach.

Lemma optional_pattern_converges w :
  exists w' evs,
    converges (when (negb (n_legs c =? 0)%Z) (legs_pattern mach random_long c))
              w (tt, w')
    /\ trace w' = trace w ++ evs
    /\ probe_calls w' = probe_calls w
    /\ Forall (fun e => is_legs_event e = true) evs
    /\ count is_motion evs = moves_per_pass c.
Proof.
  unfold moves_per_pass. destruct (n_legs c =? 0)%Z; simpl.
  - exists w, []. rewrite app_nil_r.
    repeat split; [apply converges_ret | constructor].
  - apply legs_pattern_converges. exact Hpulls.
Qed.

Lemma sample_pass_converges (n : nat) (st : Stats) w :
  exists w' evs,
    converges (sample_pass mach check_pt_result random_long c n st) w
      (match check_pt_result (probe_calls w) with
       | Some sample => update_stats st n sample
       | None => {| mean := mean st; sigma := sigma st; min := min st;
                    max := max st; sample_set := sample_set st;
                    probing_good := false |}
       end, w')
    /\ trace w' = trace w ++ evs
    /\ probe_calls w' = Datatypes.S (probe_calls w)
    /\ Forall (fun e => is_loop_event e = true) evs
    /\ count is_probe_read evs = 1%nat
    /\ count is_motion evs = moves_per_pass c
    /\ (forall sample,
          check_pt_result (probe_calls w) = Some sample ->
          (verbose_level c >? 2)%Z = true ->
          In (progress_line c (Datatypes.S n) sample
                (update_stats st n sample)) evs).
Proof.
  set (evs1 := if HAS_LCD mach
               then [LCD_POINT (Z.of_nat n + 1) (n_samples c)] else []).
  destruct (optional_pattern_converges (log w evs1))
    as (w2 & evs2 & Hc2 & Ht2 & Hp2 & Hev2 & Hmv2).
  simpl in Ht2, Hp2.
  set (read := check_pt (X_probe_location c) (Y_probe_location c)
                 (raise_after c) 0).
  set (w3 := {| trace := trace w2 ++ [read];
                probe_calls := Datatypes.S (probe_calls w2);
                rand_calls := rand_calls w2 |}).
  assert (Hread : converges
            (emit_check_pt check_pt_result (X_probe_location c)
               (Y_probe_location c) (raise_after c) 0)
            w2 (check_pt_result (probe_calls w), w3)).
  { apply converges_total. intros fuel. unfold emit_check_pt.
    rewrite <- Hp2. reflexivity. }
  assert (Hev12 : Forall (fun e => is_loop_event e = true) (evs1 ++ evs2)).
  { apply Forall_app. split.
    - unfold evs1. destruct (HAS_LCD mach); repeat constructor.
    - eapply Forall_impl; [|exact Hev2]. apply legs_event_loop_event. }
  assert (Hrd12 : count is_probe_read (evs1 ++ evs2) = 0%nat).
  { rewrite count_app.
    rewrite (count_zero (fun e => is_legs_event e = true) is_probe_read evs2
               legs_event_no_read Hev2).
    unfold evs1. destruct (HAS_LCD mach); reflexivity. }
  assert (Hmv12 : count is_motion (evs1 ++ evs2) = moves_per_pass c).
  { rewrite count_app, Hmv2. unfold evs1. destruct (HAS_LCD mach); reflexivity. }
  destruct (check_pt_result (probe_calls w)) as [sample|] eqn:E.
  - set (st' := update_stats st n sample).
    set (evs4 := if ((verbose_level c >? 0) && (verbose_level c >? 1))%Z
                 then [ECHO_SAMPLE (Z.of_nat n + 1) (n_samples c) sample
                         (if (verbose_level c >? 2)%Z
                          then Some (mean st', sigma st', min st', max st',
                                     max st' - min st')
                          else None)]
                 else []).
    exists (log w3 evs4), (evs1 ++ evs2 ++ [read] ++ evs4).
    split; [|split; [|split; [|split; [|split; [|split]]]]].
    + unfold sample_pass.
      eapply converges_bind; [apply converges_when_emit|].
      eapply converges_bind; [exact Hc2|].
      eapply converges_bind; [exact Hread|].
      eapply converges_bind; [apply converges_when_emit | apply converges_ret].
    + simpl. rewrite Ht2. rewrite <- !app_assoc. reflexivity.
    + simpl. rewrite Hp2. reflexivity.
    + rewrite app_assoc. apply Forall_app. split; [exact Hev12|].
      unfold evs4.
      destruct ((verbose_level c >? 0) && (verbose_level c >? 1))%Z;
        repeat constructor.
    + rewrite app_assoc, count_app, Hrd12. unfold evs4.
      destruct ((verbose_level c >? 0) && (verbose_level c >? 1))%Z; reflexivity.
    + rewrite app_assoc, count_app, Hmv12. unfold evs4.
      destruct ((verbose_level c >? 0) && (verbose_level c >? 1))%Z;
        unfold count, read; simpl; lia.
    + intros sample' Hs' Hv. inversion Hs'; subst sample'.
      apply in_or_app. right. apply in_or_app. right.
      apply in_or_app. right. unfold evs4. rewrite Hv.
      destruct (Z.gtb_spec (verbose_level c) 2); [|discriminate].
      destruct (Z.gtb_spec (verbose_level c) 0); [|lia].
      destruct (Z.gtb_spec (verbose_level c) 1); [|lia].
      left. unfold progress_line. rewrite Nat2Z.inj_succ. reflexivity.
  - exists w3, (evs1 ++ evs2 ++ [read]).
    split; [|split; [|split; [|split; [|split; [|split]]]]].
    + unfold sample_pass.
      eapply converges_bind; [apply converges_when_emit|].
      eapply converges_bind; [exact Hc2|].
      eapply converges_bind; [exact Hread | apply converges_ret].
    + simpl. rewrite Ht2. rewrite <- !app_assoc. reflexivity.
    + simpl. rewrite Hp2. reflexivity.
    + rewrite app_assoc. apply Forall_app. split; [exact Hev12|].
      repeat constructor.
    + rewrite app_assoc, count_app, Hrd12. reflexivity.
    + rewrite app_assoc, count_app, Hmv12. unfold count, read. simpl. lia.
    + intros sample' Hs'. discriminate.
Qed.

Lemma reads_cons from sample samples :
  reads check_pt_result from (sample :: samples) ->
  check_pt_result from = Some sample
  /\ reads check_pt_result (Datatypes.S from) samples.
Proof.
  unfold reads. simpl. intros H. inversion H. split; reflexivity || assumption.
Qed.

(** Passes whose reads all succeed. *)
Lemma probe_loop_good : forall samples prev st w,
  reads check_pt_result (probe_calls w) samples ->
  firstn (List.length prev) (sample_set st) = prev ->
  (List.length prev + List.length samples <= List.length (sample_set st))%nat ->
  probing_good st = true ->
  exists st' w' evs,
    converges (probe_loop mach check_pt_result random_long c
                 (List.length samples) (List.length prev) st) w (st', w')
    /\ trace w' = trace w ++ evs
    /\ probe_calls w' = (probe_calls w + List.length samples)%nat
    /\ Forall (fun e => is_loop_event e = true) evs
    /\ count is_probe_read evs = List.length samples
    /\ count is_motion evs = (List.length samples * moves_per_pass c)%nat
    /\ firstn (List.length prev + List.length samples) (sample_set st')
       = prev ++ samples
    /\ min st' = min_from (min st) samples
    /\ max st' = max_from (max st) samples
    /\ probing_good st' = true
    /\ (samples = [] -> st' = st)
    /\ (samples <> [] ->
        mean st' = mean_of (prev ++ samples)
        /\ sigma st' = sigma_of (prev ++ samples))
    /\ (samples <> [] -> (verbose_level c >? 2)%Z = true ->
        In (progress_line c (List.length prev + List.length samples)
              (last samples 0) st') evs).
Proof.
  induction samples as [|s t IH]; intros prev st w Hreads Hprev Hlen Hgood.
  - exists st, w, []. simpl. rewrite !app_nil_r, !Nat.add_0_r.
    split; [apply converges_ret|].
    repeat (split; [solve [auto | constructor]|]).
    split; intros H; congruence.
  - apply reads_cons in Hreads. destruct Hreads as [Hs Ht].
    destruct (sample_pass_converges (List.length prev) st w)
      as (w1 & evs1 & Hc1 & Ht1 & Hp1 & Hev1 & Hrd1 & Hmv1 & Hecho1).
    rewrite Hs in Hc1. specialize (Hecho1 s Hs).
    simpl List.length in Hlen.
    destruct (update_stats_spec st prev s Hprev ltac:(lia))
      as (Hset & Hl & Hmean & Hsigma & Hmin & Hmax & Hg).
    set (st1 := update_stats st (List.length prev) s) in *.
    assert (Hlen1 : List.length (prev ++ [s]) = Datatypes.S (List.length prev)).
    { rewrite length_app. simpl. lia. }
    destruct (IH (prev ++ [s]) st1 w1)
      as (st' & w' & evs & Hc & Htr & Hpc & Hev & Hrd & Hmv
          & Hset' & Hmin' & Hmax' & Hg' & Hnil & Hcons & Hecho).
    { rewrite Hp1. exact Ht. }
    { rewrite Hlen1. exact Hset. }
    { rewrite Hlen1, Hl. lia. }
    { exact Hg. }
    rewrite Hlen1 in Hc, Hset', Hecho.
    exists st', w', (evs1 ++ evs).
    split; [|split; [|split; [|split; [|split; [|split;
      [|split; [|split; [|split; [|split; [|split; [|split]]]]]]]]]]].
    + simpl probe_loop. eapply converges_bind; [exact Hc1|].
      fold st1. rewrite Hg. exact Hc.
    + rewrite Htr, Ht1, app_assoc. reflexivity.
    + rewrite Hpc, Hp1. simpl. lia.
    + apply Forall_app. split; assumption.
    + rewrite count_app, Hrd1, Hrd. reflexivity.
    + rewrite count_app, Hmv1, Hmv. simpl. lia.
    + simpl List.length. rewrite Nat.add_succ_r.
      change (Datatypes.S (List.length prev + List.length t))
        with (Datatypes.S (List.length prev) + List.length t)%nat.
      rewrite Hset', <- app_assoc. reflexivity.
    + rewrite Hmin', Hmin. reflexivity.
    + rewrite Hmax', Hmax. reflexivity.
    + exact Hg'.
    + discriminate.
    + intros _. replace (prev ++ s :: t) with ((prev ++ [s]) ++ t)
        by (rewrite <- app_assoc; reflexivity).
      destruct t as [|s' t'].
      * rewrite (Hnil eq_refl), app_nil_r. split; assumption.
      * apply Hcons. discriminate.
    + intros _ Hv. apply in_or_app.
      destruct t as [|s' t'].
      * left. rewrite (Hnil eq_refl). simpl.
        replace (List.length prev + 1)%nat
          with (Datatypes.S (List.length prev)) by lia.
        apply Hecho1. exact Hv.
      * right.
        replace (List.length prev + List.length (s :: s' :: t'))%nat
          with (Datatypes.S (List.length prev) + List.length (s' :: t'))%nat
          by (simpl; lia).
        apply Hecho; [discriminate | exact Hv].
Qed.

(** Passes up to the first failing read: the loop stops there. *)
Lemma probe_loop_fail : forall good todo n st w,
  reads check_pt_result (probe_calls w) good ->
  check_pt_result (probe_calls w + List.length good)%nat = None ->
  (List.length good < todo)%nat ->
  exists st' w' evs,
    converges (probe_loop mach check_pt_result random_long c todo n st) w
              (st', w')
    /\ trace w' = trace w ++ evs
    /\ probe_calls w' = Datatypes.S (probe_calls w + List.length good)
    /\ Forall (fun e => is_loop_event e = true) evs
    /\ count is_probe_read evs = Datatypes.S (List.length good)
    /\ probing_good st' = false.
Proof.
  induction good as [|s t IH]; intros todo n st w Hreads Hfail Htodo;
    (destruct todo as [|todo]; [simpl in Htodo; lia|]);
    destruct (sample_pass_converges n st w)
      as (w1 & evs1 & Hc1 & Ht1 & Hp1 & Hev1 & Hrd1 & _ & _).
  - simpl in Hfail. rewrite Nat.add_0_r in Hfail. rewrite Hfail in Hc1.
    eexists _, w1, evs1.
    split; [|split; [|split; [|split; [|split]]]].
    + simpl probe_loop. eapply converges_bind; [exact Hc1|].
      simpl. apply converges_ret.
    + exact Ht1.
    + rewrite Hp1. simpl. lia.
    + exact Hev1.
    + exact Hrd1.
    + reflexivity.
  - apply reads_cons in Hreads. destruct Hreads as [Hs Ht].
    rewrite Hs in Hc1.
    destruct (IH todo (Datatypes.S n) (update_stats st n s) w1)
      as (st' & w' & evs & Hc & Htr & Hpc & Hev & Hrd & Hg).
    { rewrite Hp1. exact Ht. }
    { rewrite Hp1. simpl in Hfail. rewrite <- Hfail. f_equal. lia. }
    { simpl in Htodo. lia. }
    exists st', w', (evs1 ++ evs).
    split; [|split; [|split; [|split; [|split]]]].
    + simpl probe_loop. eapply converges_bind; [exact Hc1|].
      simpl. exact Hc.
    + rewrite Htr, Ht1, app_assoc. reflexivity.
    + rewrite Hpc, Hp1. simpl. lia.
    + apply Forall_app. split; assumption.
    + rewrite count_app, Hrd1, Hrd. reflexivity.
    + exact Hg.
Qed.

(** ** After the gates (lines 99-270) *)

Lemma final_block_converges (st : Stats) w :
  converges
    (bind (emit (SERIAL_ECHO "Finished!")) (fun _ =>
     bind (when (verbose_level c >? 0)%Z
             (emit (ECHO_SUMMARY (mean st) (min st) (max st) (max st - min st))))
          (fun _ =>
     bind (emit (ECHO_STD_DEV (sigma st))) (fun _ =>
     when (HAS_LCD mach) (emit (LCD_DEVIATION (sigma st)))))))
    w (tt, log w (final_block mach c st)).
Proof.
  unfold final_block. rewrite <- !log_log.
  eapply converges_bind; [apply converges_emit|].
  eapply converges_bind; [apply converges_when_emit|].
  eapply converges_bind; [apply converges_emit|].
  apply converges_when_emit.
Qed.

Lemma epilogue_converges w :
  converges
    (bind (emit clean_up_after_endstop_or_probe_move) (fun _ =>
     bind (when (HAS_LEVELING mach) (emit restore_bed_leveling_state)) (fun _ =>
     emit report_current_position)))
    w (tt, log w (epilogue mach)).
Proof.
  unfold epilogue. rewrite <- !log_log.
  eapply converges_bind; [apply converges_emit|].
  eapply converges_bind; [apply converges_when_emit|].
  apply converges_emit.
Qed.

(** The world after the prologue, whose last call is the first probe read. *)
Lemma prologue_trace w :
  {| trace := trace (log (log (log w
                (if (verbose_level c >? 2)%Z
                 then [SERIAL_ECHO "Positioning the probe..."] else []))
                (if HAS_LEVELING mach
                 then [set_bed_leveling_enabled false] else []))
                [setup_for_endstop_or_probe_move])
              ++ [check_pt (X_probe_location c) (Y_probe_location c)
                    (raise_after c) (verbose_level c)];
     probe_calls := Datatypes.S (probe_calls w);
     rand_calls := rand_calls w |}
  = {| trace := trace w ++ prologue mach c;
       probe_calls := Datatypes.S (probe_calls w);
       rand_calls := rand_calls w |}.
Proof.
  unfold prologue. simpl. f_equal. rewrite <- !app_assoc. reflexivity.
Qed.

(** Every read succeeds: the loop runs to its end and the final block is
    printed from the statistics of the samples of the loop. *)
Lemma M48_probe_success (t : R) (samples : list R) w :
  check_pt_result (probe_calls w) = Some t ->
  reads check_pt_result (Datatypes.S (probe_calls w)) samples ->
  List.length samples = Z.to_nat (n_samples c) ->
  exists st w' evs,
    converges (M48_probe mach check_pt_result random_long c) w (tt, w')
    /\ trace w' = trace w ++ prologue mach c ++ [randomSeed] ++ evs
                   ++ [STOW_PROBE] ++ final_block mach c st ++ epilogue mach
    /\ probe_calls w' = Datatypes.S (probe_calls w + List.length samples)
    /\ Forall (fun e => is_loop_event e = true) evs
    /\ count is_probe_read evs = List.length samples
    /\ count is_motion evs = (List.length samples * moves_per_pass c)%nat
    /\ firstn (List.length samples) (sample_set st) = samples
    /\ min st = min_from 99999.9 samples
    /\ max st = max_from (-99999.9) samples
    /\ (samples <> [] ->
        mean st = mean_of samples /\ sigma st = sigma_of samples).
Proof.
  intros Ht Hreads Hlen.
  set (w4 := {| trace := trace w ++ prologue mach c;
                probe_calls := Datatypes.S (probe_calls w);
                rand_calls := rand_calls w |}).
  destruct (probe_loop_good samples [] (stats_init c true) (log w4 [randomSeed]))
    as (st & w6 & evs & Hloop & Htr & Hpc & Hev & Hrd & Hmv
        & Hset & Hmin & Hmax & Hgood & _ & Hstat & _).
  { exact Hreads. }
  { reflexivity. }
  { simpl. rewrite repeat_length. lia. }
  { reflexivity. }
  exists st, (log (log (log w6 [STOW_PROBE]) (final_block mach c st))
                  (epilogue mach)), evs.
  simpl in Hset, Hstat, Hmin, Hmax.
  split; [|split; [|split; [|split; [|split; [|split; [|split; [|split;
    [|split]]]]]]]]; try assumption.
  - unfold M48_probe.
    eapply converges_bind; [apply converges_when_emit|].
    eapply converges_bind; [apply converges_when_emit|].
    eapply converges_bind; [apply converges_emit|].
    eapply converges_bind.
    { apply converges_total. intros fuel. unfold emit_check_pt.
      simpl probe_calls. rewrite Ht. simpl rand_calls.
      rewrite prologue_trace. reflexivity. }
    cbv zeta. simpl isnan. simpl negb.
    eapply converges_bind.
    { change (probing_good (stats_init c true)) with true. cbv iota.
      eapply converges_bind; [apply converges_emit|].
      rewrite <- Hlen. exact Hloop. }
    eapply converges_bind; [apply converges_emit|].
    eapply converges_bind.
    { rewrite Hgood. apply final_block_converges. }
    apply epilogue_converges.
  - unfold log at 1 2 3. cbn [trace]. rewrite Htr.
    unfold log, w4. cbn [trace]. rewrite <- !app_assoc. reflexivity.
Qed.

Lemma reads_of_prefix (j : nat) : forall from,
  (forall i, (i < j)%nat -> check_pt_result (from + i)%nat <> None) ->
  exists good, List.length good = j /\ reads check_pt_result from good.
Proof.
  induction j as [|j IH]; intros from H.
  - exists []. split; reflexivity.
  - destruct (check_pt_result from) as [s|] eqn:E.
    + destruct (IH (Datatypes.S from)) as (good & Hl & Hr).
      { intros i Hi. replace (Datatypes.S from + i)%nat
          with (from + Datatypes.S i)%nat by lia.
        apply H. lia. }
      exists (s :: good). split; [simpl; congruence|].
      unfold reads in *. simpl. rewrite E, Hr. reflexivity.
    + exfalso. apply (H 0%nat); [lia|]. rewrite Nat.add_0_r. exact E.
Qed.

(** The read number [j] of the run (0 is the read of the prologue) is the
    first that fails: no read follows it and no final block is printed. *)
Lemma M48_probe_failure (j : nat) w :
  (forall i, (i < j)%nat -> check_pt_result (probe_calls w + i)%nat <> None) ->
  check_pt_result (probe_calls w + j)%nat = None ->
  (j <= Z.to_nat (n_samples c))%nat ->
  exists w' evs,
    converges (M48_probe mach check_pt_result random_long c) w (tt, w')
    /\ trace w' = trace w ++ prologue mach c ++ evs
                   ++ [STOW_PROBE] ++ epilogue mach
    /\ probe_calls w' = Datatypes.S (probe_calls w + j)
    /\ Forall (fun e => is_loop_event e = true \/ e = randomSeed) evs
    /\ count is_probe_read evs = j.
Proof.
  intros Hok Hfail Hj.
  set (w4 := {| trace := trace w ++ prologue mach c;
                probe_calls := Datatypes.S (probe_calls w);
                rand_calls := rand_calls w |}).
  destruct j as [|j].
  - rewrite Nat.add_0_r in Hfail.
    exists (log (log w4 [STOW_PROBE]) (epilogue mach)), [].
    split; [|split; [|split; [|split]]].
    + unfold M48_probe.
      eapply converges_bind; [apply converges_when_emit|].
      eapply converges_bind; [apply converges_when_emit|].
      eapply converges_bind; [apply converges_emit|].
      eapply converges_bind.
      { apply converges_total. intros fuel. unfold emit_check_pt.
        simpl probe_calls. rewrite Hfail. simpl rand_calls.
        rewrite prologue_trace. reflexivity. }
      cbv zeta. simpl isnan. simpl negb.
      eapply converges_bind.
      { change (probing_good (stats_init c false)) with false. cbv iota.
        apply converges_ret. }
      eapply converges_bind; [apply converges_emit|].
      eapply converges_bind.
      { change (probing_good (stats_init c false)) with false.
        apply converges_ret. }
      apply epilogue_converges.
    + unfold log, w4. cbn [trace]. rewrite <- !app_assoc. reflexivity.
    + simpl. lia.
    + constructor.
    + reflexivity.
  - assert (H0 : exists t, check_pt_result (probe_calls w) = Some t).
    { destruct (check_pt_result (probe_calls w)) as [t|] eqn:E; [eauto|].
      exfalso. apply (Hok 0%nat); [lia|]. rewrite Nat.add_0_r. exact E. }
    destruct H0 as [t Ht].
    destruct (reads_of_prefix j (Datatypes.S (probe_calls w)))
      as (good & Hlg & Hreads).
    { intros i Hi. replace (Datatypes.S (probe_calls w) + i)%nat
        with (probe_calls w + Datatypes.S i)%nat by lia.
      apply Hok. lia. }
    destruct (probe_loop_fail good (Z.to_nat (n_samples c)) 0%nat
                (stats_init c true) (log w4 [randomSeed]))
      as (st & w6 & evs & Hloop & Htr & Hpc & Hev & Hrd & Hgood).
    { exact Hreads. }
    { simpl. rewrite Hlg. rewrite <- Hfail. f_equal. lia. }
    { lia. }
    exists (log (log w6 [STOW_PROBE]) (epilogue mach)), (randomSeed :: evs).
    split; [|split; [|split; [|split]]].
    + unfold M48_probe.
      eapply converges_bind; [apply converges_when_emit|].
      eapply converges_bind; [apply converges_when_emit|].
      eapply converges_bind; [apply converges_emit|].
      eapply converges_bind.
      { apply converges_total. intros fuel. unfold emit_check_pt.
        simpl probe_calls. rewrite Ht. simpl rand_calls.
        rewrite prologue_trace. reflexivity. }
      cbv zeta. simpl isnan. simpl negb.
      eapply converges_bind.
      { change (probing_good (stats_init c true)) with true. cbv iota.
        eapply converges_bind; [apply converges_emit | exact Hloop]. }
      eapply converges_bind; [apply converges_emit|].
      eapply converges_bind.
      { rewrite Hgood. apply converges_ret. }
      apply epilogue_converges.
    + unfold log at 1 2. cbn [trace]. rewrite Htr.
      unfold log, w4. cbn [trace]. rewrite <- !app_assoc. reflexivity.
    + simpl. rewrite Hpc. simpl. lia.
    + constructor; [right; reflexivity|].
      eapply Forall_impl; [|exact Hev]. intros e He. left. exact He.
    + change (randomSeed :: evs) with ([randomSeed] ++ evs).
      rewrite count_app, Hrd, Hlg. reflexivity.
Qed.

End Loop.

(** ** The gates (lines 53-92) *)

Lemma uint8_t_range b : (0 <= uint8_t b <= 255)%Z.
Proof. unfold uint8_t. pose proof (Byte.to_N_bounded b). lia. Qed.

Lemma asked_verbose_range p : (0 <= asked_verbose p <= 255)%Z.
Proof.
  unfold asked_verbose. destruct (seen_V p); [apply uint8_t_range | lia].
Qed.

Lemma asked_samples_range p : (0 <= asked_samples p <= 255)%Z.
Proof.
  unfold asked_samples. destruct (seen_P p); [apply uint8_t_range | lia].
Qed.

Lemma asked_legs_range p : (0 <= asked_legs p <= 255)%Z.
Proof.
  unfold asked_legs. destruct (seen_L p); [apply uint8_t_range | lia].
Qed.

(** Through [int8_t] a byte is within a range of small values exactly when
    the byte itself is, and then the conversion leaves it unchanged. *)
Lemma WITHIN_int8_t v lo hi :
  (0 <= v <= 255)%Z -> (0 <= lo)%Z -> (hi <= 127)%Z ->
  (WITHIN (int8_t v) lo hi = true <-> (lo <= v <= hi)%Z).
Proof.
  intros Hv Hlo Hhi. unfold WITHIN, int8_t.
  destruct (Z.ltb_spec v 128); rewrite andb_true_iff, !Z.leb_le; lia.
Qed.

Lemma int8_t_small v : (0 <= v <= 127)%Z -> int8_t v = v.
Proof.
  intros Hv. unfold int8_t. destruct (Z.ltb_spec v 128); lia.
Qed.

Lemma legs_by_rule_code mach p :
  n_legs (locals_of mach p)
  = legs_by_rule (option_map uint8_t (seen_L p)) (seen_S p).
Proof.
  unfold locals_of, legs_by_rule, asked_legs. simpl.
  destruct (seen_L p), (seen_S p); reflexivity.
Qed.

Lemma range_dec (lo v hi : Z) : {(lo <= v <= hi)%Z} + {~ (lo <= v <= hi)%Z}.
Proof.
  destruct (Z_le_dec lo v), (Z_le_dec v hi); (left; lia) || (right; lia).
Qed.

Section Gates.

Variable mach : Machine.
Variable p : Parser.

Lemma M48_parameters_unhomed fuel w :
  axis_unhomed_error mach = true ->
  M48_parameters mach p fuel w = Some (None, w).
Proof. intros H. unfold M48_parameters. rewrite H. reflexivity. Qed.

Lemma M48_parameters_verbose fuel w :
  axis_unhomed_error mach = false -> ~ verbose_ok p ->
  M48_parameters mach p fuel w
  = Some (None, log w [SERIAL_ERROR MSG_VERBOSE]).
Proof.
  intros Hh Hv. unfold M48_parameters. rewrite Hh.
  fold (asked_verbose p).
  destruct (WITHIN (int8_t (asked_verbose p)) 0 4) eqn:E.
  - exfalso. apply Hv.
    apply (WITHIN_int8_t _ 0 4) in E; [exact E | apply asked_verbose_range | lia | lia].
  - reflexivity.
Qed.

Lemma verbose_gate_open :
  verbose_ok p ->
  WITHIN (int8_t (asked_verbose p)) 0 4 = true
  /\ int8_t (asked_verbose p) = asked_verbose p.
Proof.
  intros Hv. unfold verbose_ok in Hv. split.
  - apply WITHIN_int8_t; [apply asked_verbose_range | lia | lia | exact Hv].
  - apply int8_t_small. lia.
Qed.

Lemma samples_gate_open :
  samples_ok p ->
  WITHIN (int8_t (asked_samples p)) 4 50 = true
  /\ int8_t (asked_samples p) = asked_samples p.
Proof.
  intros Hs. unfold samples_ok in Hs. split.
  - apply WITHIN_int8_t; [apply asked_samples_range | lia | lia | exact Hs].
  - apply int8_t_small. lia.
Qed.

Lemma M48_parameters_samples fuel w :
  axis_unhomed_error mach = false -> verbose_ok p -> ~ samples_ok p ->
  M48_parameters mach p fuel w
  = Some (None, log w (title p ++ [SERIAL_ERROR MSG_SAMPLES])).
Proof.
  intros Hh Hv Hs. unfold M48_parameters. rewrite Hh.
  fold (asked_verbose p) (asked_samples p).
  destruct (verbose_gate_open Hv) as [Ev Ev']. rewrite Ev, Ev'.
  destruct (WITHIN (int8_t (asked_samples p)) 4 50) eqn:E.
  - exfalso. apply Hs.
    apply (WITHIN_int8_t _ 4 50) in E; [exact E | apply asked_samples_range | lia | lia].
  - unfold title, bind, when. simpl negb. cbv iota.
    destruct (asked_verbose p >? 0)%Z; simpl; unfold log; simpl;
      rewrite <- ?app_assoc; reflexivity.
Qed.

Lemma M48_parameters_target fuel w :
  axis_unhomed_error mach = false -> verbose_ok p -> samples_ok p ->
  ~ target_ok mach p ->
  M48_parameters mach p fuel w
  = Some (None, log w (title p ++ [SERIAL_ERROR MSG_BOUNDS])).
Proof.
  intros Hh Hv Hs Ht. unfold M48_parameters. rewrite Hh.
  fold (asked_verbose p) (asked_samples p) (asked_X mach p) (asked_Y mach p).
  destruct (verbose_gate_open Hv) as [Ev Ev']. rewrite Ev, Ev'.
  destruct (samples_gate_open Hs) as [Es Es']. rewrite Es, Es'.
  unfold target_ok in Ht.
  destruct (position_is_reachable_by_probe mach (asked_X mach p) (asked_Y mach p));
    [congruence|].
  unfold title, bind, when. simpl negb. cbv iota.
  destruct (asked_verbose p >? 0)%Z; simpl; unfold log; simpl;
    rewrite <- ?app_assoc; reflexivity.
Qed.

Lemma M48_parameters_legs fuel w :
  axis_unhomed_error mach = false -> verbose_ok p -> samples_ok p ->
  target_ok mach p -> ~ legs_ok p ->
  M48_parameters mach p fuel w
  = Some (None, log w (title p ++ [SERIAL_ERROR MSG_LEGS])).
Proof.
  intros Hh Hv Hs Ht Hl. unfold M48_parameters. rewrite Hh.
  fold (asked_verbose p) (asked_samples p) (asked_X mach p) (asked_Y mach p)
       (asked_legs p).
  destruct (verbose_gate_open Hv) as [Ev Ev']. rewrite Ev, Ev'.
  destruct (samples_gate_open Hs) as [Es Es']. rewrite Es, Es'.
  unfold target_ok in Ht. rewrite Ht.
  unfold legs_ok in Hl. pose proof (asked_legs_range p) as Hr.
  destruct (Z.gtb_spec (asked_legs p) 15); [|lia].
  unfold title, bind, when. simpl negb. cbv iota.
  destruct (asked_verbose p >? 0)%Z; simpl; unfold log; simpl;
    rewrite <- ?app_assoc; reflexivity.
Qed.

Lemma M48_parameters_pass fuel w :
  axis_unhomed_error mach = false -> verbose_ok p -> samples_ok p ->
  target_ok mach p -> legs_ok p ->
  M48_parameters mach p fuel w
  = Some (Some (locals_of mach p), log w (title p)).
Proof.
  intros Hh Hv Hs Ht Hl. unfold M48_parameters. rewrite Hh.
  fold (asked_verbose p) (asked_samples p) (asked_X mach p) (asked_Y mach p)
       (asked_legs p).
  destruct (verbose_gate_open Hv) as [Ev Ev']. rewrite Ev, Ev'.
  destruct (samples_gate_open Hs) as [Es Es']. rewrite Es, Es'.
  unfold target_ok in Ht. rewrite Ht.
  unfold legs_ok in Hl.
  destruct (Z.gtb_spec (asked_legs p) 15); [lia|].
  unfold title, bind, when, locals_of. simpl negb. cbv iota.
  destruct (asked_verbose p >? 0)%Z; simpl; unfold log; simpl;
    rewrite ?app_nil_r; [reflexivity | destruct w; reflexivity].
Qed.

(** A run that leaves the gates with locals has passed each of them. *)
Lemma M48_parameters_inv fuel w c w' :
  M48_parameters mach p fuel w = Some (Some c, w') ->
  axis_unhomed_error mach = false /\ verbose_ok p /\ samples_ok p
  /\ target_ok mach p /\ legs_ok p
  /\ c = locals_of mach p /\ w' = log w (title p).
Proof.
  intros H.
  destruct (axis_unhomed_error mach) eqn:Hh.
  { rewrite M48_parameters_unhomed in H by exact Hh. discriminate. }
  destruct (range_dec 0 (asked_verbose p) 4) as [Hv | Hv].
  2:{ rewrite M48_parameters_verbose in H by assumption. discriminate. }
  destruct (range_dec 4 (asked_samples p) 50) as [Hs | Hs].
  2:{ rewrite M48_parameters_samples in H by assumption. discriminate. }
  destruct (position_is_reachable_by_probe mach (asked_X mach p) (asked_Y mach p))
    eqn:Ht.
  2:{ rewrite M48_parameters_target in H; try assumption; [discriminate|].
      unfold target_ok. rewrite Ht. discriminate. }
  destruct (range_dec 0 (asked_legs p) 15) as [Hl | Hl].
  2:{ rewrite M48_parameters_legs in H by assumption. discriminate. }
  rewrite M48_parameters_pass in H by assumption.
  inversion H. repeat split; auto; apply Hv || apply Hs || apply Hl.
Qed.

End Gates.

(** ** Reachability within a radius and the pull loop *)

Lemma pulls_in_cartesian mach : MECH_DELTA mach = false -> pulls_in mach.
Proof. intros H Hd. congruence. Qed.

Lemma pow_08_pos (n : nat) : 0 < 0.8 ^ n.
Proof. apply pow_lt. lra. Qed.

Lemma pow_08_below (B r : R) :
  0 < r -> 0 <= B -> exists N : nat, 0.8 ^ N * B <= r.
Proof.
  intros Hr HB.
  assert (Habs : Rabs 0.8 < 1) by (rewrite Rabs_pos_eq; lra).
  assert (Hy : 0 < r / (B + 1)) by (apply Rdiv_lt_0_compat; lra).
  destruct (pow_lt_1_zero 0.8 Habs (r / (B + 1)) Hy) as [N HN].
  exists N. specialize (HN N (Nat.le_refl N)).
  pose proof (pow_08_pos N) as Hp.
  rewrite Rabs_pos_eq in HN by lra.
  assert (H1 : 0.8 ^ N * (B + 1) < r).
  { apply (Rmult_lt_compat_r (B + 1)) in HN; [|lra].
    replace (r / (B + 1) * (B + 1)) with r in HN by (field; lra).
    exact HN. }
  nra.
Qed.

Lemma within_radius_true (r x y : R) :
  x * x + y * y <= r * r -> within_radius r x y = true.
Proof.
  intros H. unfold within_radius.
  destruct (Rle_dec (x * x + y * y) (r * r)); [reflexivity | lra].
Qed.

Lemma within_radius_scaled (r B x y q : R) :
  0 <= q -> 0 <= B -> x * x + y * y <= B * B -> q * B <= r ->
  within_radius r (x * q) (y * q) = true.
Proof.
  intros Hq HB Hxy Hr. unfold within_radius.
  destruct (Rle_dec (x * q * (x * q) + y * q * (y * q)) (r * r)) as [|Hn];
    [reflexivity|].
  exfalso. apply Hn.
  assert (H1 : x * q * (x * q) + y * q * (y * q) <= (q * B) * (q * B)).
  { replace (x * q * (x * q) + y * q * (y * q))
      with (q * q * (x * x + y * y)) by ring.
    replace (q * B * (q * B)) with (q * q * (B * B)) by ring.
    apply Rmult_le_compat_l; [nra | exact Hxy]. }
  assert (H2 : 0 <= q * B) by nra.
  nra.
Qed.

(** Reachability within a positive radius lets the pull loop end: from a
    point at distance at most [B], [N] scalings are enough as soon as
    [0.8 ^ N * B] is below the radius. *)
Lemma pulls_in_within_radius mach :
  (forall x y, position_is_reachable_by_probe mach x y
               = within_radius (probe_radius mach) x y) ->
  0 < probe_radius mach ->
  pulls_in mach.
Proof.
  intros Hreach Hrad _ x y.
  destruct (pow_08_below (Rabs x + Rabs y) (probe_radius mach) Hrad) as [N HN].
  { pose proof (Rabs_pos x). pose proof (Rabs_pos y). lra. }
  exists N. rewrite Hreach.
  apply within_radius_scaled with (B := Rabs x + Rabs y).
  - left. apply pow_08_pos.
  - pose proof (Rabs_pos x). pose proof (Rabs_pos y). lra.
  - pose proof (Rabs_pos x). pose proof (Rabs_pos y).
    assert (x * x = Rabs x * Rabs x).
    { unfold Rabs. destruct (Rcase_abs x); ring. }
    assert (y * y = Rabs y * Rabs y).
    { unfold Rabs. destruct (Rcase_abs y); ring. }
    nra.
  - exact HN.
Qed.

Lemma within_radius_bound (r x y : R) :
  0 < r -> within_radius r x y = true -> - r <= x <= r /\ - r <= y <= r.
Proof.
  intros Hr H. unfold within_radius in H.
  destruct (Rle_dec (x * x + y * y) (r * r)); [|discriminate].
  repeat split; nra.
Qed.

Lemma int_of_float_floor (x : R) :
  0 <= x -> (0 <= int_of_float x)%Z /\ IZR (int_of_float x) <= x.
Proof.
  intros Hx. unfold int_of_float.
  destruct (Rle_dec 0 x) as [_|Hn]; [|contradiction].
  destruct (base_Int_part x) as [Hle Hgt]. split; [|exact Hle].
  assert (H : (-1 < Int_part x)%Z) by (apply lt_IZR; lra). lia.
Qed.

(** The radius drawn for a delta build (lines 127-130) is at most a third of
    the reachable radius, and not negative. *)
Lemma delta_radius_draw mach rnd fuel w :
  0 < probe_radius mach ->
  exists r,
    random rnd (int_of_float (0.1250000000 * probe_radius mach))
               (int_of_float (0.3333333333 * probe_radius mach)) fuel w
    = Some (r, drawn w)
    /\ 0 <= IZR r <= 0.3333333333 * probe_radius mach.
Proof.
  intros Hr. unfold random.
  destruct (int_of_float_floor (0.1250000000 * probe_radius mach))
    as [Hlo0 Hlo]; [lra|].
  destruct (int_of_float_floor (0.3333333333 * probe_radius mach))
    as [Hhi0 Hhi]; [lra|].
  set (lo := int_of_float (0.1250000000 * probe_radius mach)) in *.
  set (hi := int_of_float (0.3333333333 * probe_radius mach)) in *.
  set (raw := Z.of_N (rnd (rand_calls w))).
  eexists. split; [reflexivity|].
  destruct (Z.geb_spec lo hi) as [Hge | Hlt].
  - split; [apply (IZR_le 0); exact Hlo0 | lra].
  - assert (Hraw : (0 <= raw)%Z) by (unfold raw; lia).
    pose proof (Z.rem_bound_pos raw (hi - lo) Hraw ltac:(lia)) as Hb.
    split.
    + apply (IZR_le 0). lia.
    + apply Rle_trans with (IZR hi); [apply IZR_le; lia | exact Hhi].
Qed.

(** Every waypoint of the pattern lies within a distance fixed by the
    machine: the target is reachable, the radius of the pattern is at most
    the reachable radius, and only the probe offset adds to it. *)
Lemma candidate_bound (r ox oy X Y radius angle : R) :
  0 < r -> within_radius r X Y = true -> 0 <= radius <= r ->
  let B := (2 * r + Rabs ox) + (2 * r + Rabs oy) in
  let cx := X - ox + cos (RADIANS angle) * radius in
  let cy := Y - oy + sin (RADIANS angle) * radius in
  0 <= B /\ cx * cx + cy * cy <= B * B.
Proof.
  intros Hr Hin Hrad B cx cy.
  destruct (within_radius_bound r X Y Hr Hin) as [HX HY].
  pose proof (COS_bound (RADIANS angle)) as Hc.
  pose proof (SIN_bound (RADIANS angle)) as Hs.
  pose proof (Rabs_pos ox) as Hox. pose proof (Rabs_pos oy) as Hoy.
  assert (Hox' : - Rabs ox <= ox <= Rabs ox).
  { split; [|apply Rle_abs]. pose proof (Rle_abs (- ox)).
    rewrite Rabs_Ropp in H. lra. }
  assert (Hoy' : - Rabs oy <= oy <= Rabs oy).
  { split; [|apply Rle_abs]. pose proof (Rle_abs (- oy)).
    rewrite Rabs_Ropp in H. lra. }
  assert (Hcr : - r <= cos (RADIANS angle) * radius <= r) by (split; nra).
  assert (Hsr : - r <= sin (RADIANS angle) * radius <= r) by (split; nra).
  assert (Hcx : - (2 * r + Rabs ox) <= cx <= 2 * r + Rabs ox)
    by (unfold cx; lra).
  assert (Hcy : - (2 * r + Rabs oy) <= cy <= 2 * r + Rabs oy)
    by (unfold cy; lra).
  split; [unfold B; lra|].
  assert (cx * cx <= (2 * r + Rabs ox) * (2 * r + Rabs ox)) by nra.
  assert (cy * cy <= (2 * r + Rabs oy) * (2 * r + Rabs oy)) by nra.
  unfold B. nra.
Qed.

(** ** Which probe reads a run depends on *)

Lemma keeps_ret {A} (a : A) : keeps_reads (ret a).
Proof. intros fuel w a' w' H. inversion H. reflexivity. Qed.

Lemma keeps_bind {A B} (m : M A) (k : A -> M B) :
  keeps_reads m -> (forall a, keeps_reads (k a)) -> keeps_reads (bind m k).
Proof.
  intros Hm Hk fuel w b w' H. unfold bind in H.
  destruct (m fuel w) as [[a w1]|] eqn:E; [|discriminate].
  rewrite (Hk a _ _ _ _ H). exact (Hm _ _ _ _ E).
Qed.

Lemma bind_inv {A B} (m : M A) (k : A -> M B) fuel w r :
  bind m k fuel w = Some r ->
  exists a w1, m fuel w = Some (a, w1) /\ k a fuel w1 = Some r.
Proof.
  unfold bind. destruct (m fuel w) as [[a w1]|]; [eauto | discriminate].
Qed.

Lemma bind_agree {A B} (m : M A) (k k' : A -> M B) fuel w :
  (forall a w1, m fuel w = Some (a, w1) -> k a fuel w1 = k' a fuel w1) ->
  bind m k fuel w = bind m k' fuel w.
Proof.
  intros H. unfold bind. destruct (m fuel w) as [[a w1]|]; [|reflexivity].
  apply H. reflexivity.
Qed.

Lemma keeps_emit e : keeps_reads (emit e).
Proof. intros fuel w a w' H. inversion H. reflexivity. Qed.

Lemma keeps_when (b : bool) m : keeps_reads m -> keeps_reads (when b m).
Proof. intros H. destruct b; [exact H | apply keeps_ret]. Qed.

Lemma keeps_random rnd lo hi : keeps_reads (random rnd lo hi).
Proof. intros fuel w a w' H. inversion H. reflexivity. Qed.

Lemma keeps_while {S} (cond : S -> bool) (body : S -> M S) s :
  (forall s, keeps_reads (body s)) -> keeps_reads (while cond body s).
Proof.
  intros Hb.
  assert (H : forall n s, keeps_reads (while_fuel cond body n s)).
  { induction n as [|n IH]; intros s0; simpl.
    - intros fuel w a w' H. discriminate.
    - destruct (cond s0); [|apply keeps_ret].
      apply keeps_bind; [apply Hb | apply IH]. }
  intros fuel w a w' Hw. unfold while in Hw. exact (H _ _ _ _ _ _ Hw).
Qed.

Lemma keeps_wrap_angle a : keeps_reads (wrap_angle a).
Proof.
  unfold wrap_angle. apply keeps_bind; [|intros a'];
    apply keeps_while; intros s; apply keeps_ret.
Qed.

Lemma keeps_pull_to_center mach c XY : keeps_reads (pull_to_center mach c XY).
Proof.
  unfold pull_to_center. apply keeps_while. intros s.
  apply keeps_bind; [apply keeps_when, keeps_emit | intros _; apply keeps_ret].
Qed.

Lemma keeps_legs_loop mach rnd c dir radius legs :
  forall angle, keeps_reads (legs_loop mach rnd c dir radius legs angle).
Proof.
  induction legs as [|legs IH]; intros angle; simpl.
  - apply keeps_ret.
  - apply keeps_bind.
    { destruct (schizoid_flag c); [apply keeps_ret|].
      apply keeps_bind; [apply keeps_random | intros r; apply keeps_ret]. }
    intros d. apply keeps_bind; [apply keeps_wrap_angle|].
    intros a. apply keeps_bind.
    { destruct (MECH_DELTA mach); [apply keeps_pull_to_center | apply keeps_ret]. }
    intros XY. apply keeps_bind; [apply keeps_when, keeps_emit|].
    intros _. apply keeps_bind; [apply keeps_emit|].
    intros _. apply IH.
Qed.

Lemma keeps_legs_pattern mach rnd c : keeps_reads (legs_pattern mach rnd c).
Proof.
  unfold legs_pattern.
  apply keeps_bind; [apply keeps_random|]. intros r1.
  apply keeps_bind; [apply keeps_random|]. intros r2.
  apply keeps_bind; [destruct (MECH_DELTA mach); apply keeps_random|].
  intros r3. apply keeps_bind; [apply keeps_when, keeps_emit|].
  intros _. apply keeps_legs_loop.
Qed.

Section Readings.

Variable mach : Machine.
Variables check_pt_result check_pt_result' : nat -> option R.
Variable random_long : nat -> N.
Variable c : Locals.

(** The two probes agree from the read number 1 on. *)
Hypothesis Hagree :
  forall i, (1 <= i)%nat -> check_pt_result i = check_pt_result' i.

Lemma sample_pass_reads_once cpr n st fuel w st' w' :
  sample_pass mach cpr random_long c n st fuel w = Some (st', w') ->
  probe_calls w' = Datatypes.S (probe_calls w).
Proof.
  unfold sample_pass. intros H.
  apply bind_inv in H. destruct H as (u1 & w1 & E1 & H).
  apply keeps_when in E1; [|apply keeps_emit].
  apply bind_inv in H. destruct H as (u2 & w2 & E2 & H).
  apply keeps_when in E2; [|apply keeps_legs_pattern].
  apply bind_inv in H. destruct H as (z & w3 & E3 & H).
  unfold emit_check_pt in E3. inversion E3; subst; clear E3.
  destruct (cpr (probe_calls w2)).
  - apply bind_inv in H. destruct H as (u4 & w4 & E4 & H).
    apply keeps_when in E4; [|apply keeps_emit].
    inversion H; subst. simpl in E4. lia.
  - inversion H; subst. simpl. lia.
Qed.

Lemma sample_pass_agree n st fuel w :
  (1 <= probe_calls w)%nat ->
  sample_pass mach check_pt_result random_long c n st fuel w
  = sample_pass mach check_pt_result' random_long c n st fuel w.
Proof.
  intros Hw. unfold sample_pass.
  apply bind_agree. intros u1 w1 E1.
  apply keeps_when in E1; [|apply keeps_emit].
  apply bind_agree. intros u2 w2 E2.
  apply keeps_when in E2; [|apply keeps_legs_pattern].
  unfold bind, emit_check_pt.
  rewrite (Hagree (probe_calls w2)) by lia. reflexivity.
Qed.

Lemma probe_loop_agree : forall todo n st fuel w,
  (1 <= probe_calls w)%nat ->
  probe_loop mach check_pt_result random_long c todo n st fuel w
  = probe_loop mach check_pt_result' random_long c todo n st fuel w.
Proof.
  induction todo as [|todo IH]; intros n st fuel w Hw; [reflexivity|].
  simpl. unfold bind.
  rewrite <- (sample_pass_agree n st fuel w Hw).
  destruct (sample_pass mach check_pt_result random_long c n st fuel w)
    as [[st1 w1]|] eqn:E; [|reflexivity].
  destruct (probing_good st1); [|reflexivity].
  apply IH. apply sample_pass_reads_once in E. lia.
Qed.

Lemma bind_emit_check_pt {B} cpr x y r v (k : option R -> M B) fuel w :
  bind (emit_check_pt cpr x y r v) k fuel w
  = k (cpr (probe_calls w)) fuel
      {| trace := trace w ++ [check_pt x y r v];
         probe_calls := Datatypes.S (probe_calls w);
         rand_calls := rand_calls w |}.
Proof. reflexivity. Qed.

Lemma bind_agree_left {A B} (m m' : M A) (k : A -> M B) fuel w :
  m fuel w = m' fuel w -> bind m k fuel w = bind m' k fuel w.
Proof. intros H. unfold bind. rewrite H. reflexivity. Qed.

(** Past the gates, a run cannot tell two successful first readings apart. *)
Lemma M48_probe_agree fuel w :
  probe_calls w = 0%nat ->
  check_pt_result 0%nat <> None -> check_pt_result' 0%nat <> None ->
  M48_probe mach check_pt_result random_long c fuel w
  = M48_probe mach check_pt_result' random_long c fuel w.
Proof.
  intros Hw H0 H0'. unfold M48_probe.
  apply bind_agree. intros u1 w1 E1.
  apply keeps_when in E1; [|apply keeps_emit].
  apply bind_agree. intros u2 w2 E2.
  apply keeps_when in E2; [|apply keeps_emit].
  apply bind_agree. intros u3 w3 E3.
  apply keeps_emit in E3.
  assert (Hw3 : probe_calls w3 = 0%nat) by lia.
  rewrite !bind_emit_check_pt. rewrite Hw3.
  destruct (check_pt_result 0%nat) as [t|]; [|congruence].
  destruct (check_pt_result' 0%nat) as [t'|]; [|congruence].
  cbv zeta. simpl isnan. simpl negb.
  change (probing_good (stats_init c true)) with true. cbv iota.
  apply bind_agree_left.
  apply bind_agree. intros u5 w5 E5.
  apply keeps_emit in E5. simpl in E5.
  apply probe_loop_agree. lia.
Qed.

End Readings.

(** ** Minimum and maximum from an initial value *)

Lemma min_from_covered (d : R) (l : list R) :
  l <> [] -> (forall s, In s l -> s <= d) -> min_from d l = min_of l.
Proof.
  destruct l as [|s t]; [congruence|]. intros _ H.
  unfold min_of, min_from. simpl.
  rewrite Rmin_right; [reflexivity | apply H; left; reflexivity].
Qed.

Lemma max_from_covered (d : R) (l : list R) :
  l <> [] -> (forall s, In s l -> d <= s) -> max_from d l = max_of l.
Proof.
  destruct l as [|s t]; [congruence|]. intros _ H.
  unfold max_of, max_from. simpl.
  rewrite Rmax_right; [reflexivity | apply H; left; reflexivity].
Qed.

Lemma min_from_all_above (l : list R) : forall d x,
  (forall s, In s l -> d < s) ->
  min_from d l = d /\ (d < x -> d < min_from x l).
Proof.
  unfold min_from. induction l as [|s t IH]; intros d x H; simpl.
  - split; auto.
  - assert (Hs : d < s) by (apply H; left; reflexivity).
    assert (Ht : forall s', In s' t -> d < s') by (intros; apply H; right; auto).
    rewrite Rmin_left by lra. split; [exact (proj1 (IH d d Ht))|].
    intros Hx. apply (proj2 (IH d (Rmin x s) Ht)).
    apply Rmin_glb_lt; assumption.
Qed.

Lemma max_from_all_below (l : list R) : forall d x,
  (forall s, In s l -> s < d) ->
  max_from d l = d /\ (x < d -> max_from x l < d).
Proof.
  unfold max_from. induction l as [|s t IH]; intros d x H; simpl.
  - split; auto.
  - assert (Hs : s < d) by (apply H; left; reflexivity).
    assert (Ht : forall s', In s' t -> s' < d) by (intros; apply H; right; auto).
    rewrite Rmax_left by lra. split; [exact (proj1 (IH d d Ht))|].
    intros Hx. apply (proj2 (IH d (Rmax x s) Ht)).
    apply Rmax_lub_lt; assumption.
Qed.

Lemma min_from_below (l : list R) : forall d,
  min_from d l <= d /\ (forall s, In s l -> min_from d l <= s)
  /\ (forall a, a <= d -> (forall s, In s l -> a <= s) -> a <= min_from d l).
Proof.
  unfold min_from. induction l as [|x t IH]; intros d; simpl.
  - split; [lra|]. split; [intros s []|]. intros a Ha _. exact Ha.
  - destruct (IH (Rmin d x)) as (H1 & H2 & H3).
    pose proof (Rmin_l d x). pose proof (Rmin_r d x).
    split; [lra|]. split.
    + intros s [E | Hin]; [subst; lra | apply H2, Hin].
    + intros a Ha Hall. apply H3.
      * apply Rmin_glb; [exact Ha | apply Hall; left; reflexivity].
      * intros s Hs. apply Hall. right. exact Hs.
Qed.

Lemma max_from_above (l : list R) : forall d,
  d <= max_from d l /\ (forall s, In s l -> s <= max_from d l)
  /\ (forall b, d <= b -> (forall s, In s l -> s <= b) -> max_from d l <= b).
Proof.
  unfold max_from. induction l as [|x t IH]; intros d; simpl.
  - split; [lra|]. split; [intros s []|]. intros b Hb _. exact Hb.
  - destruct (IH (Rmax d x)) as (H1 & H2 & H3).
    pose proof (Rmax_l d x). pose proof (Rmax_r d x).
    split; [lra|]. split.
    + intros s [E | Hin]; [subst; lra | apply H2, Hin].
    + intros b Hb Hall. apply H3.
      * apply Rmax_lub; [exact Hb | apply Hall; left; reflexivity].
      * intros s Hs. apply Hall. right. exact Hs.
Qed.

(** With an initial value [d], the minimum is the lesser of [d] and the
    least sample, the maximum the greater of [d] and the greatest sample. *)
Lemma fold_left_Rmin_out (t : list R) : forall d s,
  fold_left Rmin t (Rmin d s) = Rmin d (fold_left Rmin t s).
Proof.
  induction t as [|x t IH]; intros d s; simpl; [reflexivity|].
  rewrite <- Rmin_assoc. apply IH.
Qed.

Lemma fold_left_Rmax_out (t : list R) : forall d s,
  fold_left Rmax t (Rmax d s) = Rmax d (fold_left Rmax t s).
Proof.
  induction t as [|x t IH]; intros d s; simpl; [reflexivity|].
  rewrite <- Rmax_assoc. apply IH.
Qed.

Lemma min_from_Rmin (d : R) (l : list R) :
  l <> [] -> min_from d l = Rmin d (min_of l).
Proof.
  destruct l as [|s t]; [congruence|]. intros _.
  unfold min_from, min_of. simpl. apply fold_left_Rmin_out.
Qed.

Lemma max_from_Rmax (d : R) (l : list R) :
  l <> [] -> max_from d l = Rmax d (max_of l).
Proof.
  destruct l as [|s t]; [congruence|]. intros _.
  unfold max_from, max_of. simpl. apply fold_left_Rmax_out.
Qed.

(** The least and the greatest sample are samples. *)
Lemma min_from_attained (t : list R) : forall s,
  min_from s t = s \/ In (min_from s t) t.
Proof.
  unfold min_from. induction t as [|x t IH]; intros s; simpl; [left; reflexivity|].
  destruct (IH (Rmin s x)) as [E | Hin]; [|right; right; exact Hin].
  rewrite E. unfold Rmin. destruct (Rle_dec s x); [left | right; left]; reflexivity.
Qed.

Lemma max_from_attained (t : list R) : forall s,
  max_from s t = s \/ In (max_from s t) t.
Proof.
  unfold max_from. induction t as [|x t IH]; intros s; simpl; [left; reflexivity|].
  destruct (IH (Rmax s x)) as [E | Hin]; [|right; right; exact Hin].
  rewrite E. unfold Rmax. destruct (Rle_dec s x); [right; left | left]; reflexivity.
Qed.

Lemma min_of_least (l : list R) :
  l <> [] -> In (min_of l) l /\ forall s, In s l -> min_of l <= s.
Proof.
  destruct l as [|s t]; [congruence|]. intros _. unfold min_of. split.
  - destruct (min_from_attained t s) as [E | Hin];
      [left; symmetry; exact E | right; exact Hin].
  - destruct (min_from_below t s) as (H1 & H2 & _).
    intros x [E | Hin]; [subst; exact H1 | apply H2, Hin].
Qed.

Lemma max_of_greatest (l : list R) :
  l <> [] -> In (max_of l) l /\ forall s, In s l -> s <= max_of l.
Proof.
  destruct l as [|s t]; [congruence|]. intros _. unfold max_of. split.
  - destruct (max_from_attained t s) as [E | Hin];
      [left; symmetry; exact E | right; exact Hin].
  - destruct (max_from_above t s) as (H1 & H2 & _).
    intros x [E | Hin]; [subst; exact H1 | apply H2, Hin].
Qed.

(** The minimum kept by the routine is the least sample exactly when some
    sample is at most the initial value; likewise for the maximum. *)
Lemma min_from_exact (d : R) (l : list R) :
  l <> [] ->
  (min_from d l = min_of l <-> exists s, In s l /\ s <= d).
Proof.
  intros Hne. rewrite (min_from_Rmin d l Hne).
  destruct (min_of_least l Hne) as [Hin Hle]. split.
  - intros E. exists (min_of l). split; [exact Hin|].
    rewrite <- E. apply Rmin_l.
  - intros (s & Hs & Hd). apply Rmin_right.
    apply Rle_trans with s; [apply Hle, Hs | exact Hd].
Qed.

Lemma max_from_exact (d : R) (l : list R) :
  l <> [] ->
  (max_from d l = max_of l <-> exists s, In s l /\ d <= s).
Proof.
  intros Hne. rewrite (max_from_Rmax d l Hne).
  destruct (max_of_greatest l Hne) as [Hin Hle]. split.
  - intros E. exists (max_of l). split; [exact Hin|].
    rewrite <- E. apply Rmax_l.
  - intros (s & Hs & Hd). apply Rmax_right.
    apply Rle_trans with s; [exact Hd | apply Hle, Hs].
Qed.

(** ** Prefixes of the probe loop *)

(** The first [k] passes of a longer loop are the loop of [k] passes. *)
Lemma probe_loop_split mach cpr rnd c (k more : nat) :
  forall n st fuel w,
  probing_good st = true ->
  probe_loop mach cpr rnd c (k + more) n st fuel w
  = bind (probe_loop mach cpr rnd c k n st)
         (fun st' => if probing_good st'
                     then probe_loop mach cpr rnd c more (n + k) st'
                     else ret st') fuel w.
Proof.
  induction k as [|k IH]; intros n st fuel w Hgood.
  - simpl. unfold bind, ret. rewrite Hgood, Nat.add_0_r. reflexivity.
  - simpl. unfold bind at 1 2 3.
    destruct (sample_pass mach cpr rnd c n st fuel w) as [[st1 w1]|];
      [|reflexivity].
    destruct (probing_good st1) eqn:Hg1.
    + rewrite IH by exact Hg1.
      replace (n + Datatypes.S k)%nat with (Datatypes.S n + k)%nat by lia.
      reflexivity.
    + unfold ret. rewrite Hg1. reflexivity.
Qed.

(** The loop of [k] passes whose reads all succeed, from the initial values
    of line 109. *)
Lemma probe_loop_statistics mach cpr rnd c (samples : list R) w :
  pulls_in mach ->
  reads cpr (probe_calls w) samples ->
  samples <> [] ->
  (List.length samples <= Z.to_nat (n_samples c))%nat ->
  exists st w',
    converges (probe_loop mach cpr rnd c (List.length samples) 0
                 (stats_init c true)) w (st, w')
    /\ mean st = mean_of samples
    /\ sigma st = sigma_of samples
    /\ min st = min_from 99999.9 samples
    /\ max st = max_from (-99999.9) samples
    /\ ((verbose_level c >? 2)%Z = true ->
        exists evs,
          trace w' = trace w ++ evs
          /\ In (progress_line c (List.length samples) (last samples 0) st)
                evs).
Proof.
  intros Hp Hreads Hne Hlen.
  destruct (probe_loop_good mach cpr rnd c Hp samples [] (stats_init c true) w)
    as (st & w' & evs & Hc & Htr & _ & _ & _ & _ & _ & Hmin & Hmax & _ & _
        & Hstat & Hecho).
  - exact Hreads.
  - reflexivity.
  - simpl. rewrite repeat_length. lia.
  - reflexivity.
  - destruct (Hstat Hne) as [Hmean Hsigma].
    exists st, w'. repeat split; try assumption.
    intros Hv. exists evs. split; [exact Htr|]. apply Hecho; assumption.
Qed.

Lemma final_block_has_summary mach c st :
  (verbose_level c >? 0)%Z = true ->
  In (ECHO_SUMMARY (mean st) (min st) (max st) (max st - min st))
     (final_block mach c st).
Proof.
  intros H. unfold final_block. rewrite H. right. left. reflexivity.
Qed.

(** ** The routine on small inputs *)

Example int8_t_of_200 : int8_t 200 = (-56)%Z.
Proof. reflexivity. Qed.

(** "M48 P200": the byte 200 is negative as an [int8_t]. *)
Example M48_P200_rejected :
  M48_parameters bench (request None (Some xc8) None false) 0%nat W0
  = Some (None, log W0 [SERIAL_ECHO "M48 Z-Probe Repeatability Test";
                        SERIAL_ERROR MSG_SAMPLES]).
Proof. reflexivity. Qed.

(** "M48 V5". *)
Example M48_V5_rejected :
  M48_parameters bench (request (Some x05) None None false) 0%nat W0
  = Some (None, log W0 [SERIAL_ERROR MSG_VERBOSE]).
Proof. reflexivity. Qed.

(** "M48 L20". *)
Example M48_L20_rejected :
  M48_parameters bench (request None None (Some x14) false) 0%nat W0
  = Some (None, log W0 [SERIAL_ECHO "M48 Z-Probe Repeatability Test";
                        SERIAL_ERROR MSG_LEGS]).
Proof. reflexivity. Qed.

(** "M48 S", "M48 S L1" and "M48 S L5". *)
Example star_legs :
  n_legs (locals_of bench (request None None None true)) = 7%Z
  /\ n_legs (locals_of bench (request None None (Some x01) true)) = 2%Z
  /\ n_legs (locals_of bench (request None None (Some x05) true)) = 5%Z.
Proof. repeat split. Qed.

Example dir_of_draw_5_6 : dir_of_draw 5 = 1%Z /\ dir_of_draw 6 = (-1)%Z.
Proof. split; reflexivity. Qed.

(** The four readings 1.000, 1.002, 0.998 and 1.001. *)
Example four_readings :
  mean_of [1.000; 1.002; 0.998; 1.001] = 1.00025
  /\ min_from 99999.9 [1.000; 1.002; 0.998; 1.001] = 0.998
  /\ max_from (-99999.9) [1.000; 1.002; 0.998; 1.001] = 1.002.
Proof.
  unfold mean_of, sum_list, min_from, max_from. simpl.
  split; [lra|]. unfold Rmin, Rmax.
  split; repeat destruct (Rle_dec _ _); lra.
Qed.

(** 360 + 144 comes back to 144, and 0 - 144 to 216. *)
Example wrap_angle_504 : converges (wrap_angle 504) W0 (144, W0).
Proof.
  unfold wrap_angle. eapply converges_bind.
  - apply loops_converges. eapply loops_step.
    + apply fgt_true. lra.
    + apply converges_ret.
    + apply loops_done. apply fgt_false. lra.
  - replace (504 - 360) with 144 by lra.
    apply loops_converges, loops_done. apply flt_false. lra.
Qed.

Example wrap_angle_minus_144 : converges (wrap_angle (-144)) W0 (216, W0).
Proof.
  unfold wrap_angle. eapply converges_bind.
  - apply loops_converges, loops_done. apply fgt_false. lra.
  - apply loops_converges. eapply loops_step.
    + apply flt_true. lra.
    + apply converges_ret.
    + replace (-144 + 360) with 216 by lra.
      apply loops_done. apply flt_false. lra.
Qed.

(** The delta machine of radius 100 always leaves its pull loop. *)
Example delta_100_pulls_in : pulls_in delta_100.
Proof. apply pulls_in_within_radius; [reflexivity | simpl; lra]. Qed.

(** * The claims *)

(** Ranges of the options of a given request. *)
Ltac gate_arith :=
  unfold invalid_parameter, verbose_ok, samples_ok, legs_ok,
    asked_verbose, asked_samples, asked_legs, uint8_t;
  simpl; lia.

(** ** C3: the angle after a step *)

(** C3, as stated, fails: the angle 216 followed by one step of the star
    pattern (+144) is 360, which the loops leave at 360; the result is not
    below 360. *)
Lemma wrap_angle_leaves_360 :
  exists r, converges (wrap_angle (216 + IZR 1 * 2 * 72)) W0 (r, W0)
            /\ ~ (0 <= r < 360).
Proof.
  exists 360. split; [|lra].
  replace (216 + IZR 1 * 2 * 72) with 360 by lra.
  unfold wrap_angle. eapply converges_bind.
  - apply loops_converges, loops_done. apply fgt_false. lra.
  - apply loops_converges, loops_done. apply flt_false. lra.
Qed.

(** C3, amended: for every angle the two loops terminate, on a value in the
    closed interval from 0 to 360 that differs from the input by a multiple
    of 360; no event is emitted. *)
Theorem wrap_angle_closed_turn (angle : R) (w : World) :
  exists (k : Z) (f0 : nat),
    (forall fuel, (f0 <= fuel)%nat ->
       wrap_angle angle fuel w = Some (angle + 360 * IZR k, w))
    /\ 0 <= angle + 360 * IZR k <= 360.
Proof.
  destruct (wrap_angle_converges angle w) as (k & [f0 Hf] & Hin).
  exists k, f0. split; assumption.
Qed.

(** ** C8: the pull loop of the delta build *)

(** C8: with reachability within a positive radius, the radius drawn for
    the pattern is at most a third of the reachable radius, and the pull
    loop ends on a reachable point after a number of scalings by 0.8 that is
    bounded over all the waypoints of the pattern: every angle and every such
    radius, around a reachable target. *)
Theorem pull_to_center_bounded (mach : Machine) (c : Locals) :
  (forall x y, position_is_reachable_by_probe mach x y
               = within_radius (probe_radius mach) x y) ->
  0 < probe_radius mach ->
  position_is_reachable_by_probe mach
    (X_probe_location c) (Y_probe_location c) = true ->
  (forall rnd fuel w, exists r,
      random rnd (int_of_float (0.1250000000 * probe_radius mach))
                 (int_of_float (0.3333333333 * probe_radius mach)) fuel w
      = Some (r, drawn w)
      /\ 0 <= IZR r <= 0.3333333333 * probe_radius mach)
  /\ exists N : nat, pulls_within mach c N.
Proof.
  intros Hreach Hrad Htarget.
  split; [intros rnd fuel w; apply delta_radius_draw; exact Hrad|].
  set (B := (2 * probe_radius mach + Rabs (probe_offset_X mach))
            + (2 * probe_radius mach + Rabs (probe_offset_Y mach))).
  assert (HB : 0 <= B).
  { pose proof (Rabs_pos (probe_offset_X mach)).
    pose proof (Rabs_pos (probe_offset_Y mach)). unfold B. lra. }
  destruct (pow_08_below B (probe_radius mach) Hrad HB) as [N HN].
  exists N. intros angle radius w Hradius X_current Y_current.
  rewrite Hreach in Htarget.
  destruct (candidate_bound (probe_radius mach) (probe_offset_X mach)
              (probe_offset_Y mach) (X_probe_location c) (Y_probe_location c)
              radius angle Hrad Htarget) as [_ Hc]; [lra|].
  fold B X_current Y_current in Hc.
  destruct (pull_to_center_loops mach c N X_current Y_current w)
    as (n & evs & Hn & Hconv & Hr & _ & Hmv).
  { rewrite Hreach. apply within_radius_scaled with (B := B); auto.
    left. apply pow_08_pos. }
  exists n, evs. auto.
Qed.

(** C8 at work: "M48 X90 Y0" on a delta build of radius 100.  The waypoint
    at angle 0 and radius 33 is (123, 0), out of reach, so the loop has to
    scale: no bound 0 will do, and the theorem gives a bound that does. *)
Lemma pull_to_center_bounded_witness :
  (exists N : nat,
     pulls_within delta_100 (locals_of delta_100 (request_at 90 0)) N)
  /\ ~ pulls_within delta_100 (locals_of delta_100 (request_at 90 0)) 0.
Proof.
  split.
  - apply pull_to_center_bounded.
    + reflexivity.
    + simpl. lra.
    + unfold locals_of, asked_X, asked_Y, request_at. simpl.
      apply within_radius_true. lra.
  - intros H. destruct (H 0 33 W0) as (n & evs & Hn & _ & Hr & _).
    { simpl. lra. }
    assert (E : n = 0%nat) by lia. subst n.
    unfold locals_of, asked_X, asked_Y, request_at in Hr. simpl in Hr.
    replace (RADIANS 0) with 0 in Hr by (unfold RADIANS; lra).
    rewrite cos_0, sin_0 in Hr.
    unfold within_radius in Hr.
    destruct (Rle_dec _ _) as [Hle | _] in Hr; [lra | discriminate].
Defined.

(** ** C2: requests with an option out of range *)

Lemma gcode_M48_gate_closed mach cpr rnd p fuel w w' :
  M48_parameters mach p fuel w = Some (None, w') ->
  gcode_M48 mach cpr rnd p fuel w = Some (tt, w').
Proof. intros H. unfold gcode_M48, bind. rewrite H. reflexivity. Qed.

Lemma gcode_M48_gate_open mach cpr rnd p fuel w c w' :
  M48_parameters mach p fuel w = Some (Some c, w') ->
  gcode_M48 mach cpr rnd p fuel w = M48_probe mach cpr rnd c fuel w'.
Proof. intros H. unfold gcode_M48, bind. rewrite H. reflexivity. Qed.

Lemma title_quiet p msg :
  Forall (fun e => is_mechanical e = false) (title p ++ [SERIAL_ERROR msg])
  /\ count is_probe_read (title p ++ [SERIAL_ERROR msg]) = 0%nat
  /\ count is_motion (title p ++ [SERIAL_ERROR msg]) = 0%nat.
Proof.
  unfold title. destruct (asked_verbose p >? 0)%Z; repeat split;
    repeat constructor.
Qed.

(** C2, as stated, fails: with 20 legs asked and a target out of reach, the
    run reports the target and not the legs; no message of an option out of
    range is printed. *)
Lemma legs_gate_behind_target_gate :
  invalid_parameter (request None None (Some x14) false)
  /\ exists w,
       converges (gcode_M48 bench_out_of_reach dead zeros
                    (request None None (Some x14) false)) W0 (tt, w)
       /\ ~ reports_invalid_parameter
              (request None None (Some x14) false) (trace w).
Proof.
  split.
  - right. right. unfold legs_ok, asked_legs, uint8_t. simpl. lia.
  - exists (log W0 [SERIAL_ECHO "M48 Z-Probe Repeatability Test";
                    SERIAL_ERROR MSG_BOUNDS]).
    split; [apply converges_total; reflexivity|].
    unfold reports_invalid_parameter, verbose_ok, samples_ok,
      asked_verbose, asked_samples. simpl.
    intros [[H _] | [[H _] | [_ H]]].
    + apply H. lia.
    + apply H. lia.
    + destruct H as [H | [H | []]]; discriminate.
Qed.

(** C2, amended: a request with the sample count, the verbose level or the
    legs out of range aborts with no motion, no probe read and no other
    call that acts on the machine.  What it prints is decided by the first
    gate that fails, in the order: homing, verbose level, sample count,
    reachable target, legs. *)
Theorem invalid_parameter_aborts mach cpr rnd p fuel w :
  invalid_parameter p ->
  exists evs,
    gcode_M48 mach cpr rnd p fuel w = Some (tt, log w evs)
    /\ Forall (fun e => is_mechanical e = false) evs
    /\ count is_probe_read evs = 0%nat
    /\ count is_motion evs = 0%nat
    /\ (axis_unhomed_error mach = true -> evs = [])
    /\ (axis_unhomed_error mach = false ->
        (~ verbose_ok p -> evs = [SERIAL_ERROR MSG_VERBOSE])
        /\ (verbose_ok p -> ~ samples_ok p ->
            evs = title p ++ [SERIAL_ERROR MSG_SAMPLES])
        /\ (verbose_ok p -> samples_ok p -> ~ target_ok mach p ->
            evs = title p ++ [SERIAL_ERROR MSG_BOUNDS])
        /\ (verbose_ok p -> samples_ok p -> target_ok mach p ->
            evs = title p ++ [SERIAL_ERROR MSG_LEGS])).
Proof.
  intros Hinv.
  destruct (axis_unhomed_error mach) eqn:Hh.
  { exists []. rewrite log_nil.
    split; [apply gcode_M48_gate_closed, M48_parameters_unhomed, Hh|].
    split; [constructor|]. split; [reflexivity|]. split; [reflexivity|].
    split; [reflexivity | discriminate]. }
  destruct (range_dec 0 (asked_verbose p) 4) as [Hv | Hv].
  2:{ exists [SERIAL_ERROR MSG_VERBOSE].
      split; [apply gcode_M48_gate_closed, M48_parameters_verbose; assumption|].
      split; [repeat constructor|]. split; [reflexivity|].
      split; [reflexivity|]. split; [discriminate|].
      intros _. repeat split; intros; solve [reflexivity | contradiction]. }
  destruct (range_dec 4 (asked_samples p) 50) as [Hs | Hs].
  2:{ exists (title p ++ [SERIAL_ERROR MSG_SAMPLES]).
      destruct (title_quiet p MSG_SAMPLES) as (Q1 & Q2 & Q3).
      split; [apply gcode_M48_gate_closed, M48_parameters_samples; assumption|].
      split; [exact Q1|]. split; [exact Q2|]. split; [exact Q3|].
      split; [discriminate|].
      intros _. repeat split; intros; solve [reflexivity | contradiction]. }
  assert (Hl : ~ legs_ok p).
  { destruct Hinv as [H | [H | H]]; [contradiction | contradiction | exact H]. }
  destruct (position_is_reachable_by_probe mach (asked_X mach p) (asked_Y mach p))
    eqn:Ht.
  - exists (title p ++ [SERIAL_ERROR MSG_LEGS]).
    destruct (title_quiet p MSG_LEGS) as (Q1 & Q2 & Q3).
    split; [apply gcode_M48_gate_closed, M48_parameters_legs; assumption|].
    split; [exact Q1|]. split; [exact Q2|]. split; [exact Q3|].
    split; [discriminate|].
    intros _. repeat split; intros; solve [reflexivity | contradiction].
  - assert (Ht' : ~ target_ok mach p) by (unfold target_ok; congruence).
    exists (title p ++ [SERIAL_ERROR MSG_BOUNDS]).
    destruct (title_quiet p MSG_BOUNDS) as (Q1 & Q2 & Q3).
    split; [apply gcode_M48_gate_closed, M48_parameters_target; assumption|].
    split; [exact Q1|]. split; [exact Q2|]. split; [exact Q3|].
    split; [discriminate|].
    intros _. repeat split; intros; solve [reflexivity | contradiction].
Qed.

(** C2 at work: "M48 P3" on the bench. *)
Lemma invalid_parameter_aborts_witness :
  invalid_parameter (request None (Some x03) None false)
  /\ exists evs,
       gcode_M48 bench dead zeros (request None (Some x03) None false)
         0%nat W0
       = Some (tt, log W0 evs)
       /\ evs = title (request None (Some x03) None false)
                ++ [SERIAL_ERROR MSG_SAMPLES].
Proof.
  assert (H : invalid_parameter (request None (Some x03) None false)).
  { right. left. unfold samples_ok, asked_samples, uint8_t. simpl. lia. }
  split; [exact H|].
  destruct (invalid_parameter_aborts bench dead zeros
              (request None (Some x03) None false) 0%nat W0 H)
    as (evs & Hrun & _ & _ & _ & _ & Hmsg).
  exists evs. split; [exact Hrun|].
  destruct (Hmsg eq_refl) as (_ & Hs & _).
  apply Hs; unfold verbose_ok, samples_ok, asked_verbose, asked_samples,
    uint8_t; simpl; lia.
Defined.

(** ** C5: the direction of the pattern *)

Lemma random_0_10_draws rnd fuel w :
  exists r, random rnd 0 10 fuel w = Some (r, drawn w) /\ In r draws_0_10.
Proof.
  unfold random. simpl.
  set (raw := Z.of_N (rnd (rand_calls w))).
  exists (Z.rem raw 10). split; [destruct (Z.rem raw 10); reflexivity|].
  assert (Hraw : (0 <= raw)%Z) by (unfold raw; lia).
  pose proof (Z.rem_bound_pos raw 10 Hraw ltac:(lia)) as Hb.
  unfold draws_0_10. simpl.
  assert (Hc : (Z.rem raw 10 = 0 \/ Z.rem raw 10 = 1 \/ Z.rem raw 10 = 2
                \/ Z.rem raw 10 = 3 \/ Z.rem raw 10 = 4 \/ Z.rem raw 10 = 5
                \/ Z.rem raw 10 = 6 \/ Z.rem raw 10 = 7 \/ Z.rem raw 10 = 8
                \/ Z.rem raw 10 = 9)%Z) by lia.
  intuition.
Qed.

(** C5 on the code: [random(0, 10)] returns one of ten values; the six
    values from 0 to 5 give the direction +1 and the four values from 6 to 9
    give -1, so the two directions are not drawn with the same chance. *)
Theorem dir_of_draw_split :
  (forall rnd fuel w,
     exists r, random rnd 0 10 fuel w = Some (r, drawn w) /\ In r draws_0_10)
  /\ map dir_of_draw draws_0_10 = [1; 1; 1; 1; 1; 1; -1; -1; -1; -1]%Z
  /\ List.length (filter (fun r => dir_of_draw r =? 1)%Z draws_0_10) = 6%nat
  /\ List.length (filter (fun r => dir_of_draw r =? -1)%Z draws_0_10) = 4%nat.
Proof.
  split; [exact random_0_10_draws|]. repeat split.
Qed.

(** ** Whole runs *)

Lemma converges_gcode_M48 mach cpr rnd p w c w1 r :
  (forall fuel, M48_parameters mach p fuel w = Some (Some c, w1)) ->
  converges (M48_probe mach cpr rnd c) w1 r ->
  converges (gcode_M48 mach cpr rnd p) w r.
Proof.
  intros Hg [f0 Hf]. exists f0. intros fuel Hfuel.
  rewrite (gcode_M48_gate_open mach cpr rnd p fuel w c w1 (Hg fuel)).
  apply Hf. exact Hfuel.
Qed.

Lemma loop_event_counts e :
  is_loop_event e = true \/ e = randomSeed ->
  is_stow e = false /\ is_restore e = false /\ is_report e = false
  /\ is_final_block e = false /\ is_summary e = false.
Proof.
  intros [H | H]; [|subst; repeat split].
  destruct e; simpl in H; try discriminate; repeat split.
Qed.

Lemma title_counts p :
  count is_probe_read (title p) = 0%nat /\ count is_stow (title p) = 0%nat
  /\ count is_restore (title p) = 0%nat /\ count is_report (title p) = 0%nat
  /\ count is_final_block (title p) = 0%nat
  /\ count is_summary (title p) = 0%nat.
Proof. unfold title. destruct (asked_verbose p >? 0)%Z; repeat split. Qed.

Lemma prologue_counts mach c :
  count is_probe_read (prologue mach c) = 1%nat
  /\ count is_stow (prologue mach c) = 0%nat
  /\ count is_restore (prologue mach c) = 0%nat
  /\ count is_report (prologue mach c) = 0%nat
  /\ count is_final_block (prologue mach c) = 0%nat
  /\ count is_summary (prologue mach c) = 0%nat.
Proof.
  unfold prologue.
  destruct (verbose_level c >? 2)%Z, (HAS_LEVELING mach); repeat split.
Qed.

Lemma epilogue_counts mach :
  count is_probe_read (epilogue mach) = 0%nat
  /\ count is_stow (epilogue mach) = 0%nat
  /\ count is_restore (epilogue mach)
     = (if HAS_LEVELING mach then 1 else 0)%nat
  /\ count is_report (epilogue mach) = 1%nat
  /\ count is_final_block (epilogue mach) = 0%nat
  /\ count is_summary (epilogue mach) = 0%nat.
Proof. unfold epilogue. destruct (HAS_LEVELING mach); repeat split. Qed.

(** A run past the gates whose read number [j] is the first to fail. *)
Lemma gcode_M48_failure mach cpr rnd p (j : nat) :
  pulls_in mach ->
  axis_unhomed_error mach = false -> verbose_ok p -> samples_ok p ->
  target_ok mach p -> legs_ok p ->
  (j <= Z.to_nat (asked_samples p))%nat ->
  (forall i, (i < j)%nat -> cpr i <> None) -> cpr j = None ->
  exists w' evs,
    converges (gcode_M48 mach cpr rnd p) W0 (tt, w')
    /\ trace w' = (title p ++ prologue mach (locals_of mach p) ++ evs)
                   ++ [STOW_PROBE] ++ epilogue mach
    /\ probe_calls w' = Datatypes.S j
    /\ Forall (fun e => is_loop_event e = true \/ e = randomSeed) evs
    /\ count is_probe_read evs = j.
Proof.
  intros Hp Hh Hv Hs Ht Hl Hj Hok Hfail.
  destruct (M48_probe_failure mach cpr rnd (locals_of mach p) Hp j
              (log W0 (title p)))
    as (w' & evs & Hc & Htr & Hpc & Hev & Hrd); auto.
  exists w', evs. split; [|split; [|split; [|split]]]; auto.
  - eapply converges_gcode_M48; [|exact Hc].
    intros fuel. apply M48_parameters_pass; assumption.
  - rewrite Htr. simpl. rewrite <- !app_assoc. reflexivity.
Qed.

(** A run past the gates whose reads all succeed. *)
Lemma gcode_M48_success mach cpr rnd p (t : R) (samples : list R) :
  pulls_in mach ->
  axis_unhomed_error mach = false -> verbose_ok p -> samples_ok p ->
  target_ok mach p -> legs_ok p ->
  cpr 0%nat = Some t -> reads cpr 1 samples ->
  List.length samples = Z.to_nat (asked_samples p) ->
  exists st w' evs,
    converges (gcode_M48 mach cpr rnd p) W0 (tt, w')
    /\ trace w' = (title p ++ prologue mach (locals_of mach p)
                   ++ [randomSeed] ++ evs)
                  ++ [STOW_PROBE] ++ final_block mach (locals_of mach p) st
                  ++ epilogue mach
    /\ probe_calls w' = Datatypes.S (List.length samples)
    /\ Forall (fun e => is_loop_event e = true) evs
    /\ count is_probe_read evs = List.length samples
    /\ firstn (List.length samples) (sample_set st) = samples
    /\ mean st = mean_of samples
    /\ sigma st = sigma_of samples
    /\ min st = min_from 99999.9 samples
    /\ max st = max_from (-99999.9) samples.
Proof.
  intros Hp Hh Hv Hs Ht Hl H0 Hreads Hlen.
  destruct (M48_probe_success mach cpr rnd (locals_of mach p) Hp t samples
              (log W0 (title p)))
    as (st & w' & evs & Hc & Htr & Hpc & Hev & Hrd & _ & Hset & Hmin & Hmax
        & Hstat); auto.
  assert (Hne : samples <> []).
  { intros E. rewrite E in Hlen. unfold samples_ok in Hs. simpl in Hlen. lia. }
  destruct (Hstat Hne) as [Hmean Hsigma].
  exists st, w', evs.
  split; [|split; [|repeat split; assumption]].
  - eapply converges_gcode_M48; [|exact Hc].
    intros fuel. apply M48_parameters_pass; assumption.
  - rewrite Htr. simpl. rewrite <- !app_assoc. reflexivity.
Qed.

(** ** C6: the legs used by the loop *)

(** C6: when the gates are passed, the legs kept in the locals are 2 for a
    supplied 1, 7 for the star pattern without a supplied value, and else
    the supplied value or 0.  The gates make no probe read and no move, the
    run goes on with these locals, and every pass of the probe loop then
    makes one move per leg but the first. *)
Theorem legs_normalised mach cpr rnd p fuel w c w' :
  M48_parameters mach p fuel w = Some (Some c, w') ->
  let legs := legs_by_rule (option_map uint8_t (seen_L p)) (seen_S p) in
  n_legs c = legs
  /\ (exists evs, w' = log w evs
                  /\ count is_probe_read evs = 0%nat
                  /\ count is_motion evs = 0%nat)
  /\ gcode_M48 mach cpr rnd p fuel w = M48_probe mach cpr rnd c fuel w'
  /\ (pulls_in mach ->
      forall n st w1, exists st' w2 evs,
        converges (sample_pass mach cpr rnd c n st) w1 (st', w2)
        /\ trace w2 = trace w1 ++ evs
        /\ count is_motion evs
           = if (legs =? 0)%Z then 0%nat else Z.to_nat (legs - 1)).
Proof.
  intros H legs.
  destruct (M48_parameters_inv mach p fuel w c w' H)
    as (_ & _ & _ & _ & _ & Hc & Hw).
  assert (Hlegs : n_legs c = legs).
  { rewrite Hc. apply legs_by_rule_code. }
  split; [exact Hlegs|]. split; [|split].
  - exists (title p). split; [exact Hw|].
    unfold title. destruct (asked_verbose p >? 0)%Z; split; reflexivity.
  - apply gcode_M48_gate_open. exact H.
  - intros Hp n st w1.
    destruct (sample_pass_converges mach cpr rnd c Hp n st w1)
      as (w2 & evs & Hconv & Htr & _ & _ & _ & Hmv & _).
    eexists _, w2, evs. split; [exact Hconv|]. split; [exact Htr|].
    rewrite Hmv. unfold moves_per_pass. rewrite Hlegs. reflexivity.
Qed.

(** C6 at work: "M48 L1" on the bench runs with two legs. *)
Lemma legs_normalised_witness :
  M48_parameters bench (request None None (Some x01) false) 0%nat W0
  = Some (Some (locals_of bench (request None None (Some x01) false)),
          log W0 (title (request None None (Some x01) false)))
  /\ n_legs (locals_of bench (request None None (Some x01) false)) = 2%Z.
Proof.
  assert (H : M48_parameters bench (request None None (Some x01) false) 0%nat W0
              = Some (Some (locals_of bench (request None None (Some x01) false)),
                      log W0 (title (request None None (Some x01) false))))
    by reflexivity.
  split; [exact H|].
  exact (proj1 (legs_normalised bench dead zeros _ _ _ _ _ H)).
Defined.

(** ** C4: a probe read fails *)

Lemma first_failure (j : nat) : forall cpr : nat -> option R,
  cpr j = None ->
  exists j0, (j0 <= j)%nat /\ cpr j0 = None
             /\ forall i, (i < j0)%nat -> cpr i <> None.
Proof.
  induction j as [|j IH]; intros cpr Hj.
  - exists 0%nat. repeat split; [lia | exact Hj | intros i Hi; lia].
  - destruct (cpr 0%nat) as [t|] eqn:E0.
    + destruct (IH (fun i => cpr (Datatypes.S i)) Hj) as (j0 & Hle & Hn & Hb).
      exists (Datatypes.S j0). repeat split; [lia | exact Hn |].
      intros [|i] Hi; [congruence | apply Hb; lia].
    + exists 0%nat. repeat split; [lia | exact E0 | intros i Hi; lia].
Qed.

(** C4, as stated, fails on a build without bed levelling: the call that
    restores the compensation is not compiled, so it occurs zero times. *)
Lemma no_restore_without_leveling :
  exists w',
    converges (gcode_M48 bench_without_leveling dead zeros
                 (request None None None false)) W0 (tt, w')
    /\ trace w' = [SERIAL_ECHO "M48 Z-Probe Repeatability Test";
                   setup_for_endstop_or_probe_move;
                   check_pt (100 + 0) (100 + 0) PROBE_PT_RAISE 1;
                   STOW_PROBE;
                   clean_up_after_endstop_or_probe_move;
                   report_current_position]
    /\ count is_restore (trace w') = 0%nat.
Proof.
  exists {| trace := [SERIAL_ECHO "M48 Z-Probe Repeatability Test";
                      setup_for_endstop_or_probe_move;
                      check_pt (100 + 0) (100 + 0) PROBE_PT_RAISE 1;
                      STOW_PROBE;
                      clean_up_after_endstop_or_probe_move;
                      report_current_position];
             probe_calls := 1; rand_calls := 0 |}.
  split; [apply converges_total; intros fuel; reflexivity|].
  split; reflexivity.
Qed.

(** C4, amended: in a run past the gates where one of the reads number 0
    (the read of the prologue) to [n_samples] fails, the first failing read
    is the last read of the run, nothing of the final block is printed, and
    the run ends with one stow of the probe, one restore of the compensation
    when the build has bed levelling (none otherwise) and one report of the
    position. *)
Theorem probe_failure_cleanup mach cpr rnd p (j : nat) :
  pulls_in mach ->
  axis_unhomed_error mach = false -> verbose_ok p -> samples_ok p ->
  target_ok mach p -> legs_ok p ->
  (j <= Z.to_nat (asked_samples p))%nat -> cpr j = None ->
  exists (j0 : nat) w' before,
    (j0 <= j)%nat /\ cpr j0 = None
    /\ (forall i, (i < j0)%nat -> cpr i <> None)
    /\ converges (gcode_M48 mach cpr rnd p) W0 (tt, w')
    /\ trace w' = before ++ [STOW_PROBE] ++ epilogue mach
    /\ count is_probe_read before = Datatypes.S j0
    /\ probe_calls w' = Datatypes.S j0
    /\ count is_probe_read (trace w') = Datatypes.S j0
    /\ count is_final_block (trace w') = 0%nat
    /\ count is_stow (trace w') = 1%nat
    /\ count is_restore (trace w') = (if HAS_LEVELING mach then 1 else 0)%nat
    /\ count is_report (trace w') = 1%nat.
Proof.
  intros Hp Hh Hv Hs Ht Hl Hj Hnone.
  destruct (first_failure j cpr Hnone) as (j0 & Hle & Hfail & Hok).
  destruct (gcode_M48_failure mach cpr rnd p j0 Hp Hh Hv Hs Ht Hl
              ltac:(lia) Hok Hfail)
    as (w' & evs & Hc & Htr & Hpc & Hev & Hrd).
  destruct (title_counts p) as (T1 & T2 & T3 & T4 & T5 & _).
  destruct (prologue_counts mach (locals_of mach p))
    as (P1 & P2 & P3 & P4 & P5 & _).
  destruct (epilogue_counts mach) as (E1 & E2 & E3 & E4 & E5 & _).
  assert (L2 : count is_stow evs = 0%nat).
  { eapply count_zero; [|exact Hev]. intros e He.
    apply (loop_event_counts e He). }
  assert (L3 : count is_restore evs = 0%nat).
  { eapply count_zero; [|exact Hev]. intros e He.
    apply (loop_event_counts e He). }
  assert (L4 : count is_report evs = 0%nat).
  { eapply count_zero; [|exact Hev]. intros e He.
    apply (loop_event_counts e He). }
  assert (L5 : count is_final_block evs = 0%nat).
  { eapply count_zero; [|exact Hev]. intros e He.
    apply (loop_event_counts e He). }
  exists j0, w', (title p ++ prologue mach (locals_of mach p) ++ evs).
  split; [exact Hle|]. split; [exact Hfail|]. split; [exact Hok|].
  split; [exact Hc|]. split; [exact Htr|].
  split; [rewrite !count_app, T1, P1, Hrd; reflexivity|].
  split; [exact Hpc|].
  rewrite Htr. rewrite !count_app.
  rewrite T1, T2, T3, T4, T5, P1, P2, P3, P4, P5, E1, E2, E3, E4, E5,
    L2, L3, L4, L5, Hrd.
  repeat split; try reflexivity; simpl; lia.
Qed.

(** C4 at work: on the bench, the third sample of "M48" fails. *)
Lemma probe_failure_cleanup_witness :
  exists w' before,
    converges (gcode_M48 bench
                 (fun i => if (i <? 3)%nat then Some 1 else None) zeros
                 (request None None None false)) W0 (tt, w')
    /\ trace w' = before ++ [STOW_PROBE] ++ epilogue bench
    /\ count is_probe_read before = 4%nat
    /\ count is_restore (trace w') = 1%nat.
Proof.
  destruct (probe_failure_cleanup bench
              (fun i => if (i <? 3)%nat then Some 1 else None) zeros
              (request None None None false) 3)
    as (j0 & w' & before & Hle & Hfail & _ & Hc & Htr & Hrd & _ & _ & _ & _
        & Hre & _).
  - apply pulls_in_cartesian. reflexivity.
  - reflexivity.
  - gate_arith.
  - gate_arith.
  - reflexivity.
  - gate_arith.
  - gate_arith.
  - reflexivity.
  - assert (E : j0 = 3%nat).
    { destruct (Nat.ltb_spec j0 3); [discriminate | lia]. }
    subst j0. exists w', before. repeat split; assumption.
Defined.

(** ** C7: the final block *)

(** C7, as stated, fails at verbose level 0: "M48 V0 P4" on the bench, with
    a probe that always reads 1, makes its five reads and prints no line
    with the mean, the minimum, the maximum and the range. *)
Lemma silent_run_prints_no_summary :
  exists w',
    converges (gcode_M48 bench (steady 1) zeros
                 (request (Some x00) (Some x04) None false)) W0 (tt, w')
    /\ probe_calls w' = 5%nat
    /\ count is_summary (trace w') = 0%nat.
Proof.
  pose (p := request (Some x00) (Some x04) None false).
  destruct (gcode_M48_success bench (steady 1) zeros p 1 [1; 1; 1; 1])
    as (st & w' & evs & Hc & Htr & Hpc & Hev & _).
  - apply pulls_in_cartesian. reflexivity.
  - reflexivity.
  - unfold p. gate_arith.
  - unfold p. gate_arith.
  - reflexivity.
  - unfold p. gate_arith.
  - reflexivity.
  - reflexivity.
  - reflexivity.
  - exists w'. split; [exact Hc|]. split; [exact Hpc|].
    rewrite Htr, !count_app.
    destruct (title_counts p) as (_ & _ & _ & _ & _ & T).
    destruct (prologue_counts bench (locals_of bench p))
      as (_ & _ & _ & _ & _ & P).
    destruct (epilogue_counts bench) as (_ & _ & _ & _ & _ & E).
    rewrite T, P, E.
    rewrite (count_zero (fun e => is_loop_event e = true) is_summary evs);
      [reflexivity | | exact Hev].
    intros e He. apply (loop_event_counts e (or_introl He)).
Qed.

(** C7, amended: when every read of a run past the gates succeeds, the run
    ends with the stow of the probe, the final block and the closing calls.
    The final block always holds "Finished!" and the standard deviation of
    the samples; it holds the mean, the minimum, the maximum and the range
    when the verbose level is 1 to 4, and not at verbose level 0. *)
Theorem final_block_on_success mach cpr rnd p (t : R) (samples : list R) :
  pulls_in mach ->
  axis_unhomed_error mach = false -> verbose_ok p -> samples_ok p ->
  target_ok mach p -> legs_ok p ->
  cpr 0%nat = Some t -> reads cpr 1 samples ->
  List.length samples = Z.to_nat (asked_samples p) ->
  exists w' before st,
    converges (gcode_M48 mach cpr rnd p) W0 (tt, w')
    /\ trace w' = before ++ [STOW_PROBE]
                   ++ final_block mach (locals_of mach p) st ++ epilogue mach
    /\ In (SERIAL_ECHO "Finished!") (trace w')
    /\ In (ECHO_STD_DEV (sigma_of samples)) (trace w')
    /\ ((1 <= asked_verbose p)%Z ->
        In (ECHO_SUMMARY (mean_of samples) (min_from 99999.9 samples)
              (max_from (-99999.9) samples)
              (max_from (-99999.9) samples - min_from 99999.9 samples))
           (trace w'))
    /\ (asked_verbose p = 0%Z -> count is_summary (trace w') = 0%nat).
Proof.
  intros Hp Hh Hv Hs Ht Hl H0 Hreads Hlen.
  destruct (gcode_M48_success mach cpr rnd p t samples
              Hp Hh Hv Hs Ht Hl H0 Hreads Hlen)
    as (st & w' & evs & Hc & Htr & _ & Hev & _ & _ & Hmean & Hsigma & Hmin
        & Hmax).
  exists w', (title p ++ prologue mach (locals_of mach p) ++ [randomSeed] ++ evs),
    st.
  split; [exact Hc|]. split; [exact Htr|].
  assert (Hin : forall e, In e (final_block mach (locals_of mach p) st) ->
                          In e (trace w')).
  { intros e He. rewrite Htr. apply in_or_app. right.
    apply in_or_app. right. apply in_or_app. left. exact He. }
  split; [apply Hin; left; reflexivity|].
  split.
  { apply Hin. unfold final_block. apply in_or_app. right.
    apply in_or_app. right. left. rewrite Hsigma. reflexivity. }
  split.
  - intros Hv1. apply Hin. unfold final_block. apply in_or_app. right.
    apply in_or_app. left.
    change (verbose_level (locals_of mach p)) with (asked_verbose p).
    destruct (Z.gtb_spec (asked_verbose p) 0); [|lia].
    left. rewrite Hmean, Hmin, Hmax. reflexivity.
  - intros Hv0. rewrite Htr, !count_app.
    destruct (title_counts p) as (_ & _ & _ & _ & _ & T).
    destruct (prologue_counts mach (locals_of mach p))
      as (_ & _ & _ & _ & _ & P).
    destruct (epilogue_counts mach) as (_ & _ & _ & _ & _ & E).
    rewrite T, P, E.
    rewrite (count_zero (fun e => is_loop_event e = true) is_summary evs);
      [| intros e He; apply (loop_event_counts e (or_introl He)) | exact Hev].
    unfold final_block.
    change (verbose_level (locals_of mach p)) with (asked_verbose p).
    rewrite Hv0. simpl. destruct (HAS_LCD mach); reflexivity.
Qed.

(** C7 at work: "M48 P4" on the bench with a probe that always reads 1. *)
Lemma final_block_on_success_witness :
  exists w',
    converges (gcode_M48 bench (steady 1) zeros
                 (request None (Some x04) None false)) W0 (tt, w')
    /\ In (ECHO_STD_DEV (sigma_of [1; 1; 1; 1])) (trace w')
    /\ In (ECHO_SUMMARY (mean_of [1; 1; 1; 1])
             (min_from 99999.9 [1; 1; 1; 1])
             (max_from (-99999.9) [1; 1; 1; 1])
             (max_from (-99999.9) [1; 1; 1; 1]
              - min_from 99999.9 [1; 1; 1; 1]))
          (trace w').
Proof.
  destruct (final_block_on_success bench (steady 1) zeros
              (request None (Some x04) None false) 1 [1; 1; 1; 1])
    as (w' & before & st & Hc & _ & _ & Hsd & Hsum & _).
  - apply pulls_in_cartesian. reflexivity.
  - reflexivity.
  - gate_arith.
  - gate_arith.
  - reflexivity.
  - gate_arith.
  - reflexivity.
  - reflexivity.
  - reflexivity.
  - exists w'. split; [exact Hc|]. split; [exact Hsd|].
    apply Hsum. gate_arith.
Defined.

(** ** C1: the statistics of the samples *)

(** C1, as stated, fails for the minimum: "M48 P4" on the bench with a probe
    that always reads 100000 reports the minimum 99999.9, the initial value
    of line 109, while the least sample is 100000. *)
Lemma reported_minimum_is_capped :
  exists w' mean max range,
    converges (gcode_M48 bench (steady 100000) zeros
                 (request None (Some x04) None false)) W0 (tt, w')
    /\ In (ECHO_SUMMARY mean 99999.9 max range) (trace w')
    /\ min_of [100000; 100000; 100000; 100000] <> 99999.9.
Proof.
  pose (p := request None (Some x04) None false).
  destruct (gcode_M48_success bench (steady 100000) zeros p 100000
              [100000; 100000; 100000; 100000])
    as (st & w' & evs & Hc & Htr & _ & _ & _ & _ & _ & _ & Hmin & _).
  - apply pulls_in_cartesian. reflexivity.
  - reflexivity.
  - unfold p. gate_arith.
  - unfold p. gate_arith.
  - reflexivity.
  - unfold p. gate_arith.
  - reflexivity.
  - reflexivity.
  - reflexivity.
  - assert (Hcap : min st = 99999.9).
    { rewrite Hmin.
      apply (min_from_all_above [100000; 100000; 100000; 100000] 99999.9 0).
      simpl. intros s Hs. intuition; subst; lra. }
    exists w', (mean st), (max st), (max st - min st).
    split; [exact Hc|]. split.
    + rewrite <- Hcap, Htr. apply in_or_app. right. apply in_or_app. right.
      apply in_or_app. left. apply final_block_has_summary. reflexivity.
    + unfold min_of, min_from. simpl. unfold Rmin.
      repeat destruct (Rle_dec _ _); lra.
Qed.

(** C1, amended: after [k] passes of the probe loop whose reads succeed with
    the samples s1 .. sk, the mean is their sum over k and sigma is the
    square root of the sum of their squared distances to that mean over k,
    both computed anew from all the samples stored so far; the minimum is
    min(99999.9, s1 .. sk) and the maximum max(-99999.9, s1 .. sk), which are
    the least and the greatest sample when every sample lies between
    -99999.9 and 99999.9.  At verbose level 3 or 4 the progress line of the
    pass [k] reports these values.  These passes are the first [k] passes of
    any longer loop.  The samples are stored in [sample_set], and the mean
    and sigma are recomputed from what is stored: the passes started at any
    index, from any state whose [sample_set] holds the earlier samples
    [prev], give the mean and the sigma of [prev] and the new samples
    together, whatever mean and sigma that state held before. *)
Theorem running_statistics mach cpr rnd c (samples : list R) w :
  pulls_in mach ->
  reads cpr (probe_calls w) samples ->
  samples <> [] ->
  (List.length samples <= Z.to_nat (n_samples c))%nat ->
  exists st w',
    converges (probe_loop mach cpr rnd c (List.length samples) 0
                 (stats_init c true)) w (st, w')
    /\ mean st = mean_of samples
    /\ sigma st = sigma_of samples
    /\ min st = min_from 99999.9 samples
    /\ max st = max_from (-99999.9) samples
    /\ ((forall s, In s samples -> -99999.9 <= s <= 99999.9) ->
        min st = min_of samples /\ max st = max_of samples)
    /\ ((verbose_level c >? 2)%Z = true ->
        exists evs,
          trace w' = trace w ++ evs
          /\ In (ECHO_SAMPLE (Z.of_nat (List.length samples)) (n_samples c)
                   (last samples 0)
                   (Some (mean_of samples, sigma_of samples,
                          min_from 99999.9 samples,
                          max_from (-99999.9) samples,
                          max_from (-99999.9) samples
                          - min_from 99999.9 samples))) evs)
    /\ (forall more fuel w0,
          probe_loop mach cpr rnd c (List.length samples + more) 0
            (stats_init c true) fuel w0
          = bind (probe_loop mach cpr rnd c (List.length samples) 0
                    (stats_init c true))
                 (fun st' =>
                    if probing_good st'
                    then probe_loop mach cpr rnd c more
                           (List.length samples) st'
                    else ret st') fuel w0)
    /\ firstn (List.length samples) (sample_set st) = samples
    /\ (forall (prev : list R) (st0 : Stats),
          firstn (List.length prev) (sample_set st0) = prev ->
          (List.length prev + List.length samples
           <= List.length (sample_set st0))%nat ->
          probing_good st0 = true ->
          exists st1 w1,
            converges (probe_loop mach cpr rnd c (List.length samples)
                         (List.length prev) st0) w (st1, w1)
            /\ firstn (List.length prev + List.length samples)
                      (sample_set st1) = prev ++ samples
            /\ mean st1 = mean_of (prev ++ samples)
            /\ sigma st1 = sigma_of (prev ++ samples)).
Proof.
  intros Hp Hreads Hne Hlen.
  destruct (probe_loop_statistics mach cpr rnd c samples w Hp Hreads Hne Hlen)
    as (st & w' & Hc & Hmean & Hsigma & Hmin & Hmax & Hecho).
  exists st, w'.
  split; [exact Hc|]. split; [exact Hmean|]. split; [exact Hsigma|].
  split; [exact Hmin|]. split; [exact Hmax|].
  split; [|split; [|split; [|split]]].
  - intros Hin. rewrite Hmin, Hmax. split.
    + apply min_from_covered; [exact Hne|]. intros s Hs. apply Hin. exact Hs.
    + apply max_from_covered; [exact Hne|]. intros s Hs. apply Hin. exact Hs.
  - intros Hv. destruct (Hecho Hv) as (evs & Htr & Hin).
    exists evs. split; [exact Htr|].
    unfold progress_line in Hin.
    rewrite Hmean, Hsigma, Hmin, Hmax in Hin. exact Hin.
  - intros more fuel w0.
    apply (probe_loop_split mach cpr rnd c (List.length samples) more 0).
    reflexivity.
  - destruct (probe_loop_good mach cpr rnd c Hp samples []
                (stats_init c true) w)
      as (st2 & w2 & evs2 & Hc2 & _ & _ & _ & _ & _ & Hset2 & _).
    + exact Hreads.
    + reflexivity.
    + simpl. rewrite repeat_length. lia.
    + reflexivity.
    + pose proof (converges_unique _ _ _ _ Hc Hc2) as E.
      injection E as E1 _. rewrite E1. exact Hset2.
  - intros prev st0 Hprev Hroom Hgood.
    destruct (probe_loop_good mach cpr rnd c Hp samples prev st0 w
                Hreads Hprev Hroom Hgood)
      as (st1 & w1 & evs1 & Hc1 & _ & _ & _ & _ & _ & Hset1 & _ & _ & _ & _
          & Hstat1 & _).
    destruct (Hstat1 Hne) as [Hmean1 Hsigma1].
    exists st1, w1.
    split; [exact Hc1|]. split; [exact Hset1|].
    split; [exact Hmean1 | exact Hsigma1].
Qed.

(** C1 at work: two passes on the bench with a probe that reads 1. *)
Lemma running_statistics_witness :
  exists st w',
    converges (probe_loop bench (steady 1) zeros
                 (locals_of bench (request None None None false)) 2 0
                 (stats_init (locals_of bench (request None None None false))
                    true)) W0 (st, w')
    /\ mean st = mean_of [1; 1]
    /\ min st = min_of [1; 1]
    /\ firstn 2 (sample_set st) = [1; 1].
Proof.
  destruct (running_statistics bench (steady 1) zeros
              (locals_of bench (request None None None false)) [1; 1] W0)
    as (st & w' & Hc & Hmean & _ & _ & _ & Hcov & _ & _ & Hset & _).
  - apply pulls_in_cartesian. reflexivity.
  - reflexivity.
  - discriminate.
  - simpl. lia.
  - exists st, w'. split; [exact Hc|]. split; [exact Hmean|].
    split; [|exact Hset].
    apply Hcov. simpl. intros s Hs. intuition; subst; lra.
Defined.

(** ** C9: what a run reports after its first samples *)

Section Prefix.

Variable mach : Machine.
Variable check_pt_result : nat -> option R.
Variable random_long : nat -> N.
Variable c : Locals.

Hypothesis Hpulls : pulls_in mach.

(** The probe loop ends, whatever the probe reads. *)
Lemma probe_loop_converges_any : forall todo n st w,
  exists st' w' evs,
    converges (probe_loop mach check_pt_result random_long c todo n st) w
              (st', w')
    /\ trace w' = trace w ++ evs.
Proof.
  induction todo as [|todo IH]; intros n st w.
  - exists st, w, []. split; [apply converges_ret|].
    rewrite app_nil_r. reflexivity.
  - destruct (sample_pass_converges mach check_pt_result random_long c Hpulls
                n st w) as (w1 & evs1 & Hc1 & T1 & _).
    remember (match check_pt_result (probe_calls w) with
              | Some sample => update_stats st n sample
              | None => {| mean := mean st; sigma := sigma st; min := min st;
                           max := max st; sample_set := sample_set st;
                           probing_good := false |}
              end) as st1 eqn:Est1.
    destruct (probing_good st1) eqn:Hg.
    + destruct (IH (Datatypes.S n) st1 w1) as (st' & w' & evs & Hc & T).
      exists st', w', (evs1 ++ evs). split.
      * simpl probe_loop. eapply converges_bind; [exact Hc1|].
        cbv beta. rewrite Hg. exact Hc.
      * rewrite T, T1, app_assoc. reflexivity.
    + exists st1, w1, evs1. split; [|exact T1].
      simpl probe_loop. eapply converges_bind; [exact Hc1|].
      cbv beta. rewrite Hg. apply converges_ret.
Qed.

(** The whole loop of a run whose first [k] sample reads succeed: the
    progress line of pass [k] is printed from the statistics of these [k]
    samples, whatever the later reads give; when [k] is the sample count,
    the loop ends on these statistics. *)
Lemma probe_loop_prefix (samples : list R) w :
  reads check_pt_result (probe_calls w) samples ->
  samples <> [] ->
  (List.length samples <= Z.to_nat (n_samples c))%nat ->
  exists st w' evs,
    converges (probe_loop mach check_pt_result random_long c
                 (Z.to_nat (n_samples c)) 0 (stats_init c true)) w (st, w')
    /\ trace w' = trace w ++ evs
    /\ ((verbose_level c >? 2)%Z = true ->
        In (ECHO_SAMPLE (Z.of_nat (List.length samples)) (n_samples c)
              (last samples 0)
              (Some (mean_of samples, sigma_of samples,
                     min_from 99999.9 samples,
                     max_from (-99999.9) samples,
                     max_from (-99999.9) samples
                     - min_from 99999.9 samples))) evs)
    /\ (List.length samples = Z.to_nat (n_samples c) ->
        probing_good st = true
        /\ mean st = mean_of samples /\ sigma st = sigma_of samples
        /\ min st = min_from 99999.9 samples
        /\ max st = max_from (-99999.9) samples).
Proof.
  intros Hreads Hne Hlen.
  destruct (probe_loop_statistics mach check_pt_result random_long c samples w
              Hpulls Hreads Hne Hlen)
    as (stk & wk & Hck & Hmean & Hsigma & Hmin & Hmax & Hecho).
  destruct (probe_loop_good mach check_pt_result random_long c Hpulls
              samples [] (stats_init c true) w)
    as (stk' & wk' & evsk & Hck' & Tk & _ & _ & _ & _ & _ & _ & _ & Hgood & _).
  { exact Hreads. }
  { reflexivity. }
  { simpl. rewrite repeat_length. lia. }
  { reflexivity. }
  simpl List.length in Hck'.
  pose proof (converges_unique _ _ _ _ Hck' Hck) as E.
  injection E as E1 E2. subst stk' wk'.
  set (more := (Z.to_nat (n_samples c) - List.length samples)%nat).
  destruct (probe_loop_converges_any more (0 + List.length samples) stk wk)
    as (st & w' & evs & Hc & T).
  exists st, w', (evsk ++ evs).
  split; [|split; [|split]].
  - assert (En : Z.to_nat (n_samples c) = (List.length samples + more)%nat)
      by (unfold more; lia).
    destruct Hck as [f1 H1]. destruct Hc as [f2 H2].
    exists (Nat.max f1 f2). intros fuel Hf.
    rewrite En at 1.
    rewrite probe_loop_split by reflexivity.
    unfold bind. rewrite H1 by lia. rewrite Hgood. apply H2. lia.
  - rewrite T, Tk, app_assoc. reflexivity.
  - intros Hv. apply in_or_app. left.
    destruct (Hecho Hv) as (evs0 & T0 & Hin).
    rewrite Tk in T0. apply app_inv_head in T0. subst evs0.
    unfold progress_line in Hin.
    rewrite Hmean, Hsigma, Hmin, Hmax in Hin. exact Hin.
  - intros Eall.
    assert (Em : more = 0%nat) by (unfold more; lia).
    rewrite Em in Hc. simpl probe_loop in Hc.
    pose proof (converges_unique _ _ _ _ Hc (converges_ret stk wk)) as E.
    injection E as E1 _. subst st.
    split; [exact Hgood|]. split; [exact Hmean|]. split; [exact Hsigma|].
    split; [exact Hmin | exact Hmax].
Qed.

(** After a successful first read, the run ends when the loop does; after
    a loop that ends well the final block is printed from its statistics. *)
Lemma M48_probe_from_loop (t : R) w st w6 :
  check_pt_result (probe_calls w) = Some t ->
  converges (probe_loop mach check_pt_result random_long c
               (Z.to_nat (n_samples c)) 0 (stats_init c true))
    (log {| trace := trace w ++ prologue mach c;
            probe_calls := Datatypes.S (probe_calls w);
            rand_calls := rand_calls w |} [randomSeed]) (st, w6) ->
  exists w' rest,
    converges (M48_probe mach check_pt_result random_long c) w (tt, w')
    /\ trace w' = trace w6 ++ rest
    /\ (probing_good st = true ->
        rest = [STOW_PROBE] ++ final_block mach c st ++ epilogue mach).
Proof.
  intros Ht Hloop.
  assert (Hfront : forall r,
    converges
      (bind (emit STOW_PROBE) (fun _ =>
       bind (when (probing_good st)
               (bind (emit (SERIAL_ECHO "Finished!")) (fun _ =>
                bind (when (verbose_level c >? 0)%Z
                        (emit (ECHO_SUMMARY (mean st) (min st) (max st)
                                 (max st - min st)))) (fun _ =>
                bind (emit (ECHO_STD_DEV (sigma st))) (fun _ =>
                when (HAS_LCD mach) (emit (LCD_DEVIATION (sigma st))))))))
            (fun _ =>
       bind (emit clean_up_after_endstop_or_probe_move) (fun _ =>
       bind (when (HAS_LEVELING mach) (emit restore_bed_leveling_state))
            (fun _ => emit report_current_position))))) w6 r ->
    converges (M48_probe mach check_pt_result random_long c) w r).
  { intros r Hr. unfold M48_probe.
    eapply converges_bind; [apply converges_when_emit|].
    eapply converges_bind; [apply converges_when_emit|].
    eapply converges_bind; [apply converges_emit|].
    eapply converges_bind.
    { apply converges_total. intros fuel. unfold emit_check_pt.
      simpl probe_calls. rewrite Ht. simpl rand_calls.
      rewrite prologue_trace. reflexivity. }
    cbv zeta. simpl isnan. simpl negb.
    eapply converges_bind.
    { change (probing_good (stats_init c true)) with true. cbv iota.
      eapply converges_bind; [apply converges_emit|].
      exact Hloop. }
    exact Hr. }
  destruct (probing_good st) eqn:Hg.
  - exists (log (log (log w6 [STOW_PROBE]) (final_block mach c st))
                (epilogue mach)),
           ([STOW_PROBE] ++ final_block mach c st ++ epilogue mach).
    split; [|split].
    + apply Hfront.
      eapply converges_bind; [apply converges_emit|].
      eapply converges_bind; [apply final_block_converges|].
      apply epilogue_converges.
    + unfold log. cbn [trace]. rewrite <- !app_assoc. reflexivity.
    + reflexivity.
  - exists (log (log w6 [STOW_PROBE]) (epilogue mach)),
           ([STOW_PROBE] ++ epilogue mach).
    split; [|split].
    + apply Hfront.
      eapply converges_bind; [apply converges_emit|].
      eapply converges_bind; [apply converges_ret|].
      apply epilogue_converges.
    + unfold log. cbn [trace]. rewrite <- !app_assoc. reflexivity.
    + discriminate.
Qed.

End Prefix.

(** A run past the gates whose first read and first [k] sample reads
    succeed: what it prints of the statistics. *)
Lemma run_reports_prefix mach cpr rnd p (t : R) (samples : list R) :
  pulls_in mach -> all_gates mach p ->
  cpr 0%nat = Some t -> reads cpr 1 samples -> samples <> [] ->
  (List.length samples <= Z.to_nat (asked_samples p))%nat ->
  exists w',
    converges (gcode_M48 mach cpr rnd p) W0 (tt, w')
    /\ ((2 < asked_verbose p)%Z ->
        In (ECHO_SAMPLE (Z.of_nat (List.length samples)) (asked_samples p)
              (last samples 0)
              (Some (mean_of samples, sigma_of samples,
                     min_from 99999.9 samples,
                     max_from (-99999.9) samples,
                     max_from (-99999.9) samples
                     - min_from 99999.9 samples))) (trace w'))
    /\ (List.length samples = Z.to_nat (asked_samples p) ->
        (1 <= asked_verbose p)%Z ->
        In (ECHO_SUMMARY (mean_of samples) (min_from 99999.9 samples)
              (max_from (-99999.9) samples)
              (max_from (-99999.9) samples - min_from 99999.9 samples))
           (trace w')).
Proof.
  intros Hp (Hh & Hv & Hs & Ht & Hl) H0 Hreads Hne Hlen.
  set (c := locals_of mach p).
  set (w := log W0 (title p)).
  set (wl := log {| trace := trace w ++ prologue mach c;
                    probe_calls := Datatypes.S (probe_calls w);
                    rand_calls := rand_calls w |} [randomSeed]).
  destruct (probe_loop_prefix mach cpr rnd c Hp samples wl)
    as (st & w6 & evs & Hloop & T6 & Hline & Hfull).
  { exact Hreads. }
  { exact Hne. }
  { exact Hlen. }
  destruct (M48_probe_from_loop mach cpr rnd c t w st w6 H0 Hloop)
    as (w' & rest & Hc & T' & Hrest).
  exists w'. split; [|split].
  - eapply converges_gcode_M48; [|exact Hc].
    intros fuel. apply M48_parameters_pass; assumption.
  - intros Hv3. rewrite T', T6.
    apply in_or_app. left. apply in_or_app. right.
    apply Hline. apply Z.gtb_lt. exact Hv3.
  - intros Eall Hv1.
    destruct (Hfull Eall) as (Hgood & Hmean & Hsigma & Hmin & Hmax).
    rewrite T', (Hrest Hgood).
    apply in_or_app. right. apply in_or_app. right.
    apply in_or_app. left.
    rewrite <- Hmean, <- Hmin, <- Hmax.
    apply final_block_has_summary. apply Z.gtb_lt.
    change (verbose_level c) with (asked_verbose p). lia.
Qed.

(** C9, as stated, fails in its "only": "M48 P4" on the bench with a probe
    that reads 1, 100000, 1, 1 reports the least and the greatest sample,
    although 100000 does not lie between -99999.9 and 99999.9. *)
Lemma extremes_reported_beyond_the_range :
  exists w',
    converges (gcode_M48 bench spike zeros
                 (request None (Some x04) None false)) W0 (tt, w')
    /\ In (ECHO_SUMMARY (mean_of [1; 100000; 1; 1])
             (min_of [1; 100000; 1; 1]) (max_of [1; 100000; 1; 1])
             (max_of [1; 100000; 1; 1] - min_of [1; 100000; 1; 1]))
          (trace w')
    /\ ~ (forall s, In s [1; 100000; 1; 1] -> -99999.9 < s < 99999.9).
Proof.
  pose (p := request None (Some x04) None false).
  destruct (run_reports_prefix bench spike zeros p 1 [1; 100000; 1; 1])
    as (w' & Hc & _ & Hsum).
  - apply pulls_in_cartesian. reflexivity.
  - unfold all_gates, p. repeat split; try reflexivity; gate_arith.
  - reflexivity.
  - reflexivity.
  - discriminate.
  - simpl. lia.
  - exists w'. split; [exact Hc|]. split.
    + assert (Emin : min_from 99999.9 [1; 100000; 1; 1]
                     = min_of [1; 100000; 1; 1]).
      { apply min_from_exact; [discriminate|].
        exists 1. split; [left; reflexivity | lra]. }
      assert (Emax : max_from (-99999.9) [1; 100000; 1; 1]
                     = max_of [1; 100000; 1; 1]).
      { apply max_from_exact; [discriminate|].
        exists 1. split; [left; reflexivity | lra]. }
      rewrite <- Emin, <- Emax. apply Hsum; [reflexivity|].
      unfold p. gate_arith.
    + intros H. specialize (H 100000). simpl in H.
      assert (Hin : -99999.9 < 100000 < 99999.9) by (apply H; auto).
      lra.
Qed.

(** C9, amended: the minimum and the maximum start from 99999.9 and
    -99999.9.  In a run whose first read and first [k] sample reads succeed
    with the samples s1 .. sk, the progress line of pass [k] (verbose level 3
    or 4) reports min(99999.9, s1 .. sk) and max(-99999.9, s1 .. sk), and so
    does the final block when [k] is the sample count (verbose level 1 to
    4); these are the minimum and maximum the loop holds after [k] passes.
    The minimum reported is the least sample exactly when some sample is at
    most 99999.9, and the maximum reported is the greatest sample exactly
    when some sample is at least -99999.9: every sample strictly between
    -99999.9 and 99999.9 is enough for both, and is not needed.  When every
    sample is above 99999.9 the minimum stays at 99999.9, below the least
    sample; when every sample is below -99999.9 the maximum stays at
    -99999.9, above the greatest sample. *)
Theorem sentinel_minimum_maximum mach cpr rnd p (t : R) (samples : list R) :
  pulls_in mach -> all_gates mach p ->
  cpr 0%nat = Some t -> reads cpr 1 samples -> samples <> [] ->
  (List.length samples <= Z.to_nat (asked_samples p))%nat ->
  min (stats_init (locals_of mach p) true) = 99999.9
  /\ max (stats_init (locals_of mach p) true) = -99999.9
  /\ (exists w',
        converges (gcode_M48 mach cpr rnd p) W0 (tt, w')
        /\ ((2 < asked_verbose p)%Z ->
            In (ECHO_SAMPLE (Z.of_nat (List.length samples)) (asked_samples p)
                  (last samples 0)
                  (Some (mean_of samples, sigma_of samples,
                         min_from 99999.9 samples,
                         max_from (-99999.9) samples,
                         max_from (-99999.9) samples
                         - min_from 99999.9 samples))) (trace w'))
        /\ (List.length samples = Z.to_nat (asked_samples p) ->
            (1 <= asked_verbose p)%Z ->
            In (ECHO_SUMMARY (mean_of samples) (min_from 99999.9 samples)
                  (max_from (-99999.9) samples)
                  (max_from (-99999.9) samples - min_from 99999.9 samples))
               (trace w')))
  /\ (forall w, probe_calls w = 1%nat ->
        exists st w1,
          converges (probe_loop mach cpr rnd (locals_of mach p)
                       (List.length samples) 0
                       (stats_init (locals_of mach p) true)) w (st, w1)
          /\ min st = min_from 99999.9 samples
          /\ max st = max_from (-99999.9) samples)
  /\ (min_from 99999.9 samples = min_of samples
      <-> exists s, In s samples /\ s <= 99999.9)
  /\ (max_from (-99999.9) samples = max_of samples
      <-> exists s, In s samples /\ -99999.9 <= s)
  /\ ((forall s, In s samples -> -99999.9 < s < 99999.9) ->
      min_from 99999.9 samples = min_of samples
      /\ max_from (-99999.9) samples = max_of samples)
  /\ ((forall s, In s samples -> 99999.9 < s) ->
      min_from 99999.9 samples = 99999.9
      /\ min_from 99999.9 samples < min_of samples)
  /\ ((forall s, In s samples -> s < -99999.9) ->
      max_from (-99999.9) samples = -99999.9
      /\ max_of samples < max_from (-99999.9) samples).
Proof.
  intros Hp Hg H0 Hreads Hne Hlen.
  split; [reflexivity|]. split; [reflexivity|].
  split; [exact (run_reports_prefix mach cpr rnd p t samples
                   Hp Hg H0 Hreads Hne Hlen)|].
  split.
  { intros w Hw.
    destruct (probe_loop_statistics mach cpr rnd (locals_of mach p) samples w)
      as (st & w1 & Hc & _ & _ & Hmin & Hmax & _).
    - exact Hp.
    - rewrite Hw. exact Hreads.
    - exact Hne.
    - exact Hlen.
    - exists st, w1. split; [exact Hc|]. split; [exact Hmin | exact Hmax]. }
  split; [apply min_from_exact; exact Hne|].
  split; [apply max_from_exact; exact Hne|].
  split; [|split].
  - intros Hin. split.
    + apply min_from_covered; [exact Hne|].
      intros s Hs. destruct (Hin s Hs). lra.
    + apply max_from_covered; [exact Hne|].
      intros s Hs. destruct (Hin s Hs). lra.
  - intros Habove.
    destruct samples as [|s l]; [congruence|].
    destruct (min_from_all_above (s :: l) 99999.9 0 Habove) as [Heq _].
    split; [exact Heq|]. rewrite Heq. unfold min_of.
    apply (min_from_all_above l 99999.9 s).
    + intros s' Hs'. apply Habove. right. exact Hs'.
    + apply Habove. left. reflexivity.
  - intros Hbelow.
    destruct samples as [|s l]; [congruence|].
    destruct (max_from_all_below (s :: l) (-99999.9) 0 Hbelow) as [Heq _].
    split; [exact Heq|]. rewrite Heq. unfold max_of.
    apply (max_from_all_below l (-99999.9) s).
    + intros s' Hs'. apply Hbelow. right. exact Hs'.
    + apply Hbelow. left. reflexivity.
Qed.

(** C9 at work: "M48 V3 P4" on the bench with a probe that reads 100000:
    the progress line of the second pass reports the minimum 99999.9. *)
Lemma sentinel_minimum_maximum_witness :
  exists w' mean sigma max range,
    converges (gcode_M48 bench (steady 100000) zeros
                 (request (Some x03) (Some x04) None false)) W0 (tt, w')
    /\ In (ECHO_SAMPLE 2 4 100000 (Some (mean, sigma, 99999.9, max, range)))
          (trace w').
Proof.
  pose (p := request (Some x03) (Some x04) None false).
  destruct (sentinel_minimum_maximum bench (steady 100000) zeros p 100000
              [100000; 100000])
    as (_ & _ & (w' & Hc & Hline & _) & _ & _ & _ & _ & Habove & _).
  - apply pulls_in_cartesian. reflexivity.
  - unfold all_gates, p. repeat split; try reflexivity; gate_arith.
  - reflexivity.
  - reflexivity.
  - discriminate.
  - unfold p. simpl. lia.
  - destruct Habove as [Hcap _].
    { simpl. intros s Hs. intuition; subst; lra. }
    exists w', (mean_of [100000; 100000]), (sigma_of [100000; 100000]),
      (max_from (-99999.9) [100000; 100000]),
      (max_from (-99999.9) [100000; 100000]
       - min_from 99999.9 [100000; 100000]).
    split; [exact Hc|].
    rewrite <- Hcap at 1. apply Hline. unfold p. gate_arith.
Defined.

(** ** C10: the reading of the prologue *)

(** C10: two probes whose first readings both succeed, and which agree on
    every later reading, give the same run, whatever the two first
    readings are: the first reading only decides whether the loop starts.
    When every read succeeds, the samples stored by the loop, and the mean,
    the deviation, the minimum and the maximum of the final block, are
    those of the readings number 1 to [n_samples], taken inside the loop. *)
Theorem first_reading_is_not_a_sample mach rnd p cpr cpr' :
  cpr 0%nat <> None -> cpr' 0%nat <> None ->
  (forall i, (1 <= i)%nat -> cpr i = cpr' i) ->
  (forall fuel,
     gcode_M48 mach cpr rnd p fuel W0 = gcode_M48 mach cpr' rnd p fuel W0)
  /\ (forall samples,
        pulls_in mach ->
        axis_unhomed_error mach = false -> verbose_ok p -> samples_ok p ->
        target_ok mach p -> legs_ok p ->
        reads cpr 1 samples ->
        List.length samples = Z.to_nat (asked_samples p) ->
        exists w' before st,
          converges (gcode_M48 mach cpr rnd p) W0 (tt, w')
          /\ trace w' = before ++ [STOW_PROBE]
                        ++ final_block mach (locals_of mach p) st
                        ++ epilogue mach
          /\ count is_probe_read before
             = Datatypes.S (List.length samples)
          /\ firstn (List.length samples) (sample_set st) = samples
          /\ mean st = mean_of samples
          /\ sigma st = sigma_of samples
          /\ min st = min_from 99999.9 samples
          /\ max st = max_from (-99999.9) samples).
Proof.
  intros H0 H0' Hagree. split.
  - intros fuel. unfold gcode_M48. apply bind_agree.
    intros [c|] w1 E; [|reflexivity].
    destruct (M48_parameters_inv mach p fuel W0 c w1 E)
      as (_ & _ & _ & _ & _ & _ & Hw1).
    apply M48_probe_agree; try assumption.
    rewrite Hw1. reflexivity.
  - intros samples Hp Hh Hv Hs Ht Hl Hreads Hlen.
    destruct (cpr 0%nat) as [t|] eqn:E0; [|congruence].
    destruct (gcode_M48_success mach cpr rnd p t samples
                Hp Hh Hv Hs Ht Hl E0 Hreads Hlen)
      as (st & w' & evs & Hc & Htr & _ & _ & Hrd & Hset & Hmean & Hsigma
          & Hmin & Hmax).
    exists w',
      (title p ++ prologue mach (locals_of mach p) ++ [randomSeed] ++ evs), st.
    split; [exact Hc|]. split; [exact Htr|].
    split; [|repeat split; assumption].
    rewrite !count_app, Hrd.
    destruct (title_counts p) as (T & _).
    destruct (prologue_counts mach (locals_of mach p)) as (P & _).
    rewrite T, P. reflexivity.
Qed.

(** C10 at work: on the bench, first readings 1 and 2 before samples of 1. *)
Lemma first_reading_is_not_a_sample_witness :
  gcode_M48 bench (steady 1) zeros (request None None None false)
    100%nat W0
  = gcode_M48 bench (steady_after 2 1) zeros (request None None None false)
      100%nat W0.
Proof.
  apply (first_reading_is_not_a_sample bench zeros
           (request None None None false) (steady 1) (steady_after 2 1)).
  - discriminate.
  - discriminate.
  - intros [|i] Hi; [lia | reflexivity].
Defined.

(** * Further properties of the routine *)

(** ** Rules for the invariants of a run *)

Lemma hoare_ret {A} P (Q : A -> Prop) a : Q a -> hoare P Q (ret a).
Proof.
  intros HQ fuel w a' w' H. inversion H; subst.
  split; [exact HQ|]. exists []. rewrite app_nil_r. split; constructor.
Qed.

Lemma hoare_bind {A B} P (Q1 : A -> Prop) (Q2 : B -> Prop) m (k : A -> M B) :
  hoare P Q1 m -> (forall a, Q1 a -> hoare P Q2 (k a)) ->
  hoare P Q2 (bind m k).
Proof.
  intros Hm Hk fuel w b w' H.
  apply bind_inv in H. destruct H as (a & w1 & E1 & E2).
  destruct (Hm _ _ _ _ E1) as (HQ1 & evs1 & Ht1 & Hf1).
  destruct (Hk a HQ1 _ _ _ _ E2) as (HQ2 & evs2 & Ht2 & Hf2).
  split; [exact HQ2|]. exists (evs1 ++ evs2).
  split; [rewrite Ht2, Ht1, app_assoc; reflexivity|].
  apply Forall_app. split; assumption.
Qed.

Lemma hoare_weaken {A} (P P' : Event -> Prop) (Q Q' : A -> Prop) m :
  hoare P Q m -> (forall e, P e -> P' e) -> (forall a, Q a -> Q' a) ->
  hoare P' Q' m.
Proof.
  intros H HP HQ fuel w a w' E.
  destruct (H _ _ _ _ E) as (Ha & evs & Ht & Hf).
  split; [apply HQ, Ha|]. exists evs. split; [exact Ht|].
  eapply Forall_impl; [|exact Hf]. exact HP.
Qed.

Lemma hoare_emit P e : P e -> hoare P (fun _ => True) (emit e).
Proof.
  intros HP fuel w a w' H. inversion H; subst. split; [exact I|].
  exists [e]. split; [reflexivity | repeat constructor; exact HP].
Qed.

Lemma hoare_when_emit P (b : bool) e :
  (b = true -> P e) -> hoare P (fun _ => True) (when b (emit e)).
Proof.
  intros HP. destruct b; simpl.
  - apply hoare_emit, HP. reflexivity.
  - apply hoare_ret. exact I.
Qed.

Lemma hoare_emit_check_pt P cpr x y r v :
  P (check_pt x y r v) -> hoare P (fun _ => True) (emit_check_pt cpr x y r v).
Proof.
  intros HP fuel w a w' H. inversion H; subst. split; [exact I|].
  exists [check_pt x y r v]. split; [reflexivity | repeat constructor; exact HP].
Qed.

Lemma hoare_random P rnd lo hi :
  hoare P (drawn_from lo hi) (random rnd lo hi).
Proof.
  intros fuel w a w' H. unfold random in H. inversion H; subst; clear H.
  split; [|exists []; simpl; rewrite app_nil_r; split; constructor].
  unfold drawn_from.
  set (raw := Z.of_N (rnd (rand_calls w))).
  assert (Hraw : (0 <= raw)%Z) by (unfold raw; lia).
  destruct (Z.geb_spec lo hi) as [Hge | Hlt].
  - split; lia.
  - pose proof (Z.rem_bound_pos raw (hi - lo) Hraw ltac:(lia)). split; lia.
Qed.

Lemma hoare_while {S} P (Inv : S -> Prop) (cond : S -> bool) body s :
  Inv s ->
  (forall s, Inv s -> cond s = true -> hoare P Inv (body s)) ->
  hoare P (fun s' => Inv s' /\ cond s' = false) (while cond body s).
Proof.
  intros Hs Hbody.
  assert (H : forall n s, Inv s ->
            hoare P (fun s' => Inv s' /\ cond s' = false)
                  (while_fuel cond body n s)).
  { induction n as [|n IH]; intros s0 Hs0; simpl.
    - intros fuel w a w' H. discriminate.
    - destruct (cond s0) eqn:Hc.
      + eapply hoare_bind; [apply Hbody; assumption|].
        intros s1 Hs1. apply IH. exact Hs1.
      + apply hoare_ret. split; assumption. }
  intros fuel w a w' Hw. unfold while in Hw.
  exact (H fuel s Hs fuel w a w' Hw).
Qed.

(** ** The angle stays within one turn *)

(** Whenever the two loops return, the angle lies between 0 and 360. *)
Lemma wrap_angle_range P (angle : R) :
  hoare P (fun a => 0 <= a <= 360) (wrap_angle angle).
Proof.
  unfold wrap_angle.
  eapply hoare_bind.
  - apply (hoare_while P (fun _ => True)); [exact I|].
    intros a _ _. apply hoare_ret. exact I.
  - intros a1 [_ H1]. simpl in H1.
    eapply hoare_weaken.
    + apply (hoare_while P (fun a => a <= 360)).
      * unfold fgt in H1. destruct (Rgt_dec a1 360); [discriminate | lra].
      * intros a Ha Hc. apply hoare_ret.
        unfold flt in Hc. destruct (Rlt_dec a 0); [lra | discriminate].
    + auto.
    + intros a [Ha Hc]. simpl in Hc. unfold flt in Hc.
      destruct (Rlt_dec a 0); [discriminate | lra].
Qed.

Lemma LIMIT_within (v lo hi : R) : lo <= hi -> lo <= LIMIT v lo hi <= hi.
Proof.
  intros H. unfold LIMIT, flt, fgt.
  destruct (Rlt_dec v lo); [lra|]. destruct (Rgt_dec v hi); lra.
Qed.

Lemma LIMIT_fixed (v lo hi : R) : lo <= v <= hi -> LIMIT v lo hi = v.
Proof.
  intros H. unfold LIMIT, flt, fgt.
  destruct (Rlt_dec v lo); [lra|]. destruct (Rgt_dec v hi); lra.
Qed.

Lemma LIMIT_near (v lo hi centre r : R) :
  lo <= centre <= hi -> Rabs (v - centre) <= r ->
  Rabs (LIMIT v lo hi - centre) <= r.
Proof.
  intros Hc Hv. unfold LIMIT, flt, fgt.
  destruct (Rlt_dec v lo); [|destruct (Rgt_dec v hi); [|exact Hv]];
    revert Hv; unfold Rabs;
    destruct (Rcase_abs (v - centre)); destruct (Rcase_abs _); lra.
Qed.

(** A point of the circle is no further than the radius on each axis. *)
Lemma on_circle (t radius bound : R) :
  -1 <= t <= 1 -> 0 <= radius <= bound -> Rabs (t * radius) <= bound.
Proof.
  intros Ht Hr. apply Rabs_le. split; nra.
Qed.

(** The radius drawn on a Cartesian build. *)
Lemma cartesian_radius_draw mach (r : Z) :
  drawn_from 5 (int_of_float
                  (0.125 * MIN (X_MAX_BED mach) (Y_MAX_BED mach))) r ->
  0 <= IZR r <= pattern_radius mach.
Proof.
  unfold drawn_from, pattern_radius.
  set (x := 0.125 * MIN (X_MAX_BED mach) (Y_MAX_BED mach)).
  intros [Hin Hout].
  pose proof (Rmax_l 5 x) as H5. pose proof (Rmax_r 5 x) as Hx.
  destruct (Z_lt_le_dec 5 (int_of_float x)) as [Hlt | Hle].
  - specialize (Hin Hlt).
    assert (Hpos : 0 <= x).
    { destruct (Rle_dec 0 x) as [H|H]; [exact H|]. exfalso.
      unfold int_of_float in Hlt.
      destruct (Rle_dec 0 x) as [H'|_]; [contradiction|].
      destruct (base_Int_part (- x)) as [_ Hgt].
      assert (Hz : (-1 < Int_part (- x))%Z) by (apply lt_IZR; lra). lia. }
    destruct (int_of_float_floor x Hpos) as [_ Hfl].
    assert (H1 : IZR r <= IZR (int_of_float x)) by (apply IZR_le; lia).
    assert (H2 : 0 <= IZR r) by (apply (IZR_le 0); lia).
    lra.
  - rewrite (Hout Hle). lra.
Qed.

(** ** The inventory of the events of a run past the gates *)

Section Inventory.

Variable mach : Machine.
Variable check_pt_result : nat -> option R.
Variable random_long : nat -> N.
Variable c : Locals.

Lemma verbose_above (k : Z) :
  (verbose_level c >? k)%Z = true -> (k < verbose_level c)%Z.
Proof. intros H. destruct (Z.gtb_spec (verbose_level c) k); [lia | discriminate]. Qed.

Lemma pull_to_center_inventory XY :
  n_legs c <> 0%Z -> MECH_DELTA mach = true ->
  hoare (fun e => emitted mach c e /\ is_legs_event e = true)
        (fun XY' => position_is_reachable_by_probe mach (fst XY') (snd XY')
                    = true)
        (pull_to_center mach c XY).
Proof.
  intros Hlegs Hd. unfold pull_to_center.
  eapply hoare_weaken.
  - apply (hoare_while (fun e => emitted mach c e /\ is_legs_event e = true)
             (fun _ => True)); [exact I|].
    intros s _ _. eapply hoare_bind.
    + apply hoare_when_emit. intros Hv. simpl.
      split; [|reflexivity].
      split; [apply verbose_above, Hv | split; assumption].
    + intros _ _. apply hoare_ret. exact I.
  - auto.
  - intros XY' [_ Hc]. simpl in Hc. apply negb_false_iff in Hc. exact Hc.
Qed.

Lemma correction_inventory (angle radius : R) :
  n_legs c <> 0%Z ->
  (MECH_DELTA mach = false -> 0 <= radius <= pattern_radius mach) ->
  hoare (fun e => emitted mach c e /\ is_legs_event e = true)
        (fun XY => corrected mach (fst XY) (snd XY)
                   /\ near_target mach c (fst XY) (snd XY))
        (if MECH_DELTA mach
         then pull_to_center mach c
                (X_probe_location c - probe_offset_X mach
                 + cos (RADIANS angle) * radius,
                 Y_probe_location c - probe_offset_Y mach
                 + sin (RADIANS angle) * radius)
         else ret (LIMIT (X_probe_location c - probe_offset_X mach
                          + cos (RADIANS angle) * radius)
                         (X_MIN_BED mach) (X_MAX_BED mach),
                   LIMIT (Y_probe_location c - probe_offset_Y mach
                          + sin (RADIANS angle) * radius)
                         (Y_MIN_BED mach) (Y_MAX_BED mach))).
Proof.
  intros Hlegs Hrad. unfold corrected, near_target.
  destruct (MECH_DELTA mach) eqn:Hd.
  - eapply hoare_weaken; [apply pull_to_center_inventory; assumption|auto|].
    intros XY HXY. split; [exact HXY | discriminate].
  - specialize (Hrad eq_refl).
    apply hoare_ret. simpl. split.
    + split; intros H; apply LIMIT_within; exact H.
    + intros _. split; intros H; apply LIMIT_near; try exact H.
      * replace (X_probe_location c - probe_offset_X mach
                 + cos (RADIANS angle) * radius
                 - (X_probe_location c - probe_offset_X mach))
          with (cos (RADIANS angle) * radius) by ring.
        apply on_circle; [apply COS_bound | exact Hrad].
      * replace (Y_probe_location c - probe_offset_Y mach
                 + sin (RADIANS angle) * radius
                 - (Y_probe_location c - probe_offset_Y mach))
          with (sin (RADIANS angle) * radius) by ring.
        apply on_circle; [apply SIN_bound | exact Hrad].
Qed.

Lemma legs_loop_inventory (dir : Z) (radius : R) :
  n_legs c <> 0%Z ->
  (MECH_DELTA mach = false -> 0 <= radius <= pattern_radius mach) ->
  forall legs angle,
    hoare (fun e => emitted mach c e /\ is_legs_event e = true)
          (fun _ => True)
          (legs_loop mach random_long c dir radius legs angle).
Proof.
  intros Hlegs Hrad. induction legs as [|legs IH]; intros angle; simpl.
  - apply hoare_ret. exact I.
  - eapply hoare_bind with (Q1 := fun _ => True).
    { destruct (schizoid_flag c); [apply hoare_ret; exact I|].
      eapply hoare_bind; [apply hoare_random|].
      intros r _. apply hoare_ret. exact I. }
    intros d _. eapply hoare_bind; [apply wrap_angle_range|].
    intros a _. eapply hoare_bind;
      [apply correction_inventory; [exact Hlegs | exact Hrad]|].
    intros XY [HXY Hnear]. eapply hoare_bind.
    { apply hoare_when_emit. intros Hv. simpl. split; [|reflexivity].
      split; [apply verbose_above, Hv | split; assumption]. }
    intros _ _. eapply hoare_bind.
    { apply hoare_emit. simpl.
      split; [split; [|split]; assumption | reflexivity]. }
    intros _ _. apply IH.
Qed.

Lemma dir_of_draw_cases r : dir_of_draw r = 1%Z \/ dir_of_draw r = (-1)%Z.
Proof. unfold dir_of_draw. destruct (r >? 5)%Z; auto. Qed.

Lemma legs_pattern_inventory :
  n_legs c <> 0%Z ->
  hoare (fun e => emitted mach c e /\ is_legs_event e = true)
        (fun _ => True) (legs_pattern mach random_long c).
Proof.
  intros Hlegs. unfold legs_pattern.
  eapply hoare_bind; [apply hoare_random|]. intros r1 _.
  eapply hoare_bind; [apply hoare_random|]. intros r2 [H2 _].
  eapply hoare_bind
    with (Q1 := fun r => MECH_DELTA mach = false ->
                         0 <= IZR r <= pattern_radius mach).
  { destruct (MECH_DELTA mach);
      (eapply hoare_weaken;
       [apply (hoare_random
                 (fun e => emitted mach c e /\ is_legs_event e = true))
       | auto |]).
    - intros r _ Hd. discriminate.
    - intros r Hr _. apply cartesian_radius_draw. exact Hr. }
  intros r3 Hr3. eapply hoare_bind.
  { apply hoare_when_emit. intros Hv. simpl. split; [|reflexivity].
    split; [apply verbose_above, Hv|]. split; [exact Hlegs|].
    split; [apply dir_of_draw_cases|].
    specialize (H2 ltac:(lia)).
    split; [apply (IZR_le 0); lia | apply (IZR_lt _ 360); lia]. }
  intros _ _. apply legs_loop_inventory; [exact Hlegs | exact Hr3].
Qed.

Lemma sample_pass_inventory (n : nat) (st : Stats) :
  hoare (fun e => emitted mach c e /\ is_loop_event e = true)
        (fun _ => True)
        (sample_pass mach check_pt_result random_long c n st).
Proof.
  unfold sample_pass.
  eapply hoare_bind.
  { apply hoare_when_emit. intros Hl. simpl. split; [|reflexivity].
    repeat split; [exact Hl | lia]. }
  intros _ _. eapply hoare_bind with (Q1 := fun _ => True).
  { destruct (n_legs c =? 0)%Z eqn:E; simpl.
    - apply hoare_ret. exact I.
    - eapply hoare_weaken;
        [apply legs_pattern_inventory; apply Z.eqb_neq; exact E | | auto].
      intros e [He Hl]. split; [exact He|].
      apply legs_event_loop_event. exact Hl. }
  intros _ _. eapply hoare_bind.
  { apply hoare_emit_check_pt. simpl. split; [|reflexivity].
    repeat split. right. reflexivity. }
  intros [sample|] _.
  - eapply hoare_bind.
    + apply hoare_when_emit. intros Hv. apply andb_true_iff in Hv.
      destruct Hv as [_ Hv1]. apply verbose_above in Hv1. simpl.
      split; [|reflexivity].
      split; [exact Hv1|]. split; [lia|]. split; [reflexivity|].
      destruct (Z.gtb_spec (verbose_level c) 2).
      * left. split; [lia | discriminate].
      * right. split; [lia | reflexivity].
    + intros _ _. apply hoare_ret. exact I.
  - apply hoare_ret. exact I.
Qed.

Lemma probe_loop_inventory (todo : nat) : forall n st,
  hoare (fun e => emitted mach c e /\ is_loop_event e = true)
        (fun _ => True)
        (probe_loop mach check_pt_result random_long c todo n st).
Proof.
  induction todo as [|todo IH]; intros n st; simpl.
  - apply hoare_ret. exact I.
  - eapply hoare_bind; [apply sample_pass_inventory|].
    intros st1 _. destruct (probing_good st1); [apply IH|].
    apply hoare_ret. exact I.
Qed.

(** Every event of lines 99-270 is in the inventory. *)
Lemma M48_probe_inventory :
  hoare (emitted mach c) (fun _ => True)
        (M48_probe mach check_pt_result random_long c).
Proof.
  unfold M48_probe.
  eapply hoare_bind.
  { apply hoare_when_emit. intros Hv. simpl. left.
    split; [reflexivity | apply verbose_above, Hv]. }
  intros _ _. eapply hoare_bind.
  { apply hoare_when_emit. intros Hl. simpl. split; [exact Hl | reflexivity]. }
  intros _ _. eapply hoare_bind; [apply hoare_emit; exact I|].
  intros _ _. eapply hoare_bind.
  { apply hoare_emit_check_pt. simpl. repeat split. left. reflexivity. }
  intros t _. cbv zeta.
  eapply hoare_bind with (Q1 := fun _ => True).
  { destruct (probing_good (stats_init c (negb (isnan t)))).
    - eapply hoare_bind; [apply hoare_emit; exact I|].
      intros _ _. eapply hoare_weaken;
        [apply probe_loop_inventory | intros e [He _]; exact He | auto].
    - apply hoare_ret. exact I. }
  intros st _. eapply hoare_bind; [apply hoare_emit; exact I|].
  intros _ _. eapply hoare_bind with (Q1 := fun _ => True).
  { destruct (probing_good st); simpl; [|apply hoare_ret; exact I].
    eapply hoare_bind; [apply hoare_emit; simpl; right; reflexivity|].
    intros _ _. eapply hoare_bind.
    { apply hoare_when_emit. intros Hv. simpl. apply verbose_above, Hv. }
    intros _ _. eapply hoare_bind; [apply hoare_emit; exact I|].
    intros _ _. apply hoare_when_emit. intros Hl. exact Hl. }
  intros _ _. eapply hoare_bind; [apply hoare_emit; exact I|].
  intros _ _. eapply hoare_bind.
  { apply hoare_when_emit. intros Hl. exact Hl. }
  intros _ _. apply hoare_emit. exact I.
Qed.

End Inventory.

(** ** Whole runs, whenever they return *)

Lemma all_gates_dec mach p : {all_gates mach p} + {~ all_gates mach p}.
Proof.
  unfold all_gates, target_ok.
  destruct (axis_unhomed_error mach); [right; intros [H _]; discriminate|].
  destruct (range_dec 0 (asked_verbose p) 4) as [Hv | Hv];
    [|right; intros (_ & H & _); contradiction].
  destruct (range_dec 4 (asked_samples p) 50) as [Hs | Hs];
    [|right; intros (_ & _ & H & _); contradiction].
  destruct (position_is_reachable_by_probe mach (asked_X mach p) (asked_Y mach p));
    [|right; intros (_ & _ & _ & H & _); discriminate].
  destruct (range_dec 0 (asked_legs p) 15) as [Hl | Hl];
    [|right; intros (_ & _ & _ & _ & H); contradiction].
  left. repeat split; solve [apply Hv | apply Hs | apply Hl].
Qed.

(** A closed gate: the run is over after at most the title and one of the
    four error lines, whatever the probe, the generator and the fuel. *)
Lemma gate_closed_events mach p :
  ~ all_gates mach p ->
  exists evs,
    (forall fuel w, M48_parameters mach p fuel w = Some (None, log w evs))
    /\ ((axis_unhomed_error mach = true /\ evs = [])
        \/ (axis_unhomed_error mach = false
            /\ exists msg,
                 In msg [MSG_VERBOSE; MSG_SAMPLES; MSG_BOUNDS; MSG_LEGS]
                 /\ (evs = [SERIAL_ERROR msg]
                     \/ (evs = [SERIAL_ECHO "M48 Z-Probe Repeatability Test";
                                SERIAL_ERROR msg]
                         /\ (0 < asked_verbose p)%Z)))).
Proof.
  intros Hn.
  assert (Htitle : forall msg,
    In msg [MSG_VERBOSE; MSG_SAMPLES; MSG_BOUNDS; MSG_LEGS] ->
    exists msg0,
      In msg0 [MSG_VERBOSE; MSG_SAMPLES; MSG_BOUNDS; MSG_LEGS]
      /\ (title p ++ [SERIAL_ERROR msg] = [SERIAL_ERROR msg0]
          \/ (title p ++ [SERIAL_ERROR msg]
              = [SERIAL_ECHO "M48 Z-Probe Repeatability Test";
                 SERIAL_ERROR msg0]
              /\ (0 < asked_verbose p)%Z))).
  { intros msg Hin. exists msg. split; [exact Hin|].
    unfold title. destruct (Z.gtb_spec (asked_verbose p) 0).
    - right. split; [reflexivity | lia].
    - left. reflexivity. }
  destruct (axis_unhomed_error mach) eqn:Hh.
  { exists []. split; [|left; split; reflexivity].
    intros fuel w. rewrite log_nil. apply M48_parameters_unhomed, Hh. }
  destruct (range_dec 0 (asked_verbose p) 4) as [Hv | Hv].
  2:{ exists [SERIAL_ERROR MSG_VERBOSE]. split.
      - intros fuel w. apply M48_parameters_verbose; assumption.
      - right. split; [reflexivity|].
        exists MSG_VERBOSE. split; [simpl; auto | left; reflexivity]. }
  destruct (range_dec 4 (asked_samples p) 50) as [Hs | Hs].
  2:{ exists (title p ++ [SERIAL_ERROR MSG_SAMPLES]). split.
      - intros fuel w. apply M48_parameters_samples; assumption.
      - right. split; [reflexivity|]. apply Htitle. simpl. auto. }
  destruct (position_is_reachable_by_probe mach (asked_X mach p) (asked_Y mach p))
    eqn:Ht.
  2:{ exists (title p ++ [SERIAL_ERROR MSG_BOUNDS]). split.
      - intros fuel w. apply M48_parameters_target; try assumption.
        unfold target_ok. congruence.
      - right. split; [reflexivity|]. apply Htitle. simpl. auto. }
  destruct (range_dec 0 (asked_legs p) 15) as [Hl | Hl].
  2:{ exists (title p ++ [SERIAL_ERROR MSG_LEGS]). split.
      - intros fuel w. apply M48_parameters_legs; assumption.
      - right. split; [reflexivity|]. apply Htitle. simpl. auto. }
  exfalso. apply Hn. unfold all_gates, verbose_ok, samples_ok, legs_ok, target_ok.
  auto.
Qed.

(** Past the gates, a run that returns has printed the title line (when the
    verbose level is not 0) and then only events of the inventory. *)
Lemma run_inventory mach cpr rnd p fuel w' :
  all_gates mach p ->
  gcode_M48 mach cpr rnd p fuel W0 = Some (tt, w') ->
  exists evs,
    trace w' = title p ++ evs
    /\ Forall (emitted mach (locals_of mach p)) evs.
Proof.
  intros (Hh & Hv & Hs & Ht & Hl) H.
  rewrite (gcode_M48_gate_open mach cpr rnd p fuel W0 _ _
             (M48_parameters_pass mach p fuel W0 Hh Hv Hs Ht Hl)) in H.
  destruct (M48_probe_inventory mach cpr rnd (locals_of mach p) _ _ _ _ H)
    as (_ & evs & Htr & Hf).
  exists evs. split; [exact Htr | exact Hf].
Qed.

(** A property of the events that holds for the lines of the gates and for
    the inventory holds along every run that returns. *)
Lemma run_invariant (P : Event -> Prop) mach cpr rnd p fuel w' :
  (forall msg, P (SERIAL_ERROR msg)) ->
  ((0 < asked_verbose p)%Z -> P (SERIAL_ECHO "M48 Z-Probe Repeatability Test")) ->
  (all_gates mach p -> forall e, emitted mach (locals_of mach p) e -> P e) ->
  gcode_M48 mach cpr rnd p fuel W0 = Some (tt, w') ->
  Forall P (trace w').
Proof.
  intros Perr Ptitle Pem H.
  destruct (all_gates_dec mach p) as [Hg | Hg].
  - destruct (run_inventory mach cpr rnd p fuel w' Hg H) as (evs & Htr & Hf).
    rewrite Htr. apply Forall_app. split.
    + unfold title. destruct (Z.gtb_spec (asked_verbose p) 0);
        [repeat constructor; apply Ptitle; lia | constructor].
    + eapply Forall_impl; [|exact Hf]. apply Pem. exact Hg.
  - destruct (gate_closed_events mach p Hg) as (evs & Hrun & Hshape).
    rewrite (gcode_M48_gate_closed mach cpr rnd p fuel W0 _ (Hrun fuel W0)) in H.
    inversion H; subst. simpl.
    destruct Hshape as [[_ E] | (_ & msg & _ & [E | [E Hpos]])]; rewrite E;
      repeat constructor; auto.
Qed.

(** A run of four samples with two legs on the bench returns. *)
Lemma bench_run_returns :
  exists fuel w',
    gcode_M48 bench (steady 1) zeros
      (request None (Some x04) (Some x02) false) fuel W0 = Some (tt, w').
Proof.
  destruct (gcode_M48_success bench (steady 1) zeros
              (request None (Some x04) (Some x02) false) 1 [1; 1; 1; 1])
    as (st & w' & evs & [f0 Hf] & _).
  - apply pulls_in_cartesian. reflexivity.
  - reflexivity.
  - gate_arith.
  - gate_arith.
  - reflexivity.
  - gate_arith.
  - reflexivity.
  - reflexivity.
  - reflexivity.
  - exists f0, w'. apply Hf. lia.
Qed.

(** X2: every move of a run goes to a corrected waypoint: a point the probe
    can reach on a delta build, a point within the bed on the others. *)
Theorem moves_are_safe mach cpr rnd p fuel w' :
  gcode_M48 mach cpr rnd p fuel W0 = Some (tt, w') ->
  Forall (safe_move mach) (trace w').
Proof.
  apply run_invariant; try (intros; exact I).
  intros _ e He. destruct e; simpl in *; try exact I. apply He.
Qed.

Lemma moves_are_safe_witness :
  exists fuel w',
    gcode_M48 bench (steady 1) zeros
      (request None (Some x04) (Some x02) false) fuel W0 = Some (tt, w')
    /\ Forall (safe_move bench) (trace w').
Proof.
  destruct bench_run_returns as (fuel & w' & H).
  exists fuel, w'. split; [exact H|].
  exact (moves_are_safe bench (steady 1) zeros _ fuel w' H).
Defined.

(** X3: every probe read of a run is made at the target of the request (the
    X and Y given, else the current position plus the probe offset), with
    the way of raising chosen by E. *)
Theorem reads_are_at_target mach cpr rnd p fuel w' :
  gcode_M48 mach cpr rnd p fuel W0 = Some (tt, w') ->
  Forall (read_at_target mach p) (trace w').
Proof.
  apply run_invariant; try (intros; exact I).
  intros _ e He. destruct e; simpl in *; try exact I.
  destruct He as (Hx & Hy & Hr & _). repeat split; assumption.
Qed.

Lemma reads_are_at_target_witness :
  exists fuel w',
    gcode_M48 bench (steady 1) zeros
      (request None (Some x04) (Some x02) false) fuel W0 = Some (tt, w')
    /\ Forall (read_at_target bench (request None (Some x04) (Some x02) false))
              (trace w').
Proof.
  destruct bench_run_returns as (fuel & w' & H).
  exists fuel, w'. split; [exact H|].
  exact (reads_are_at_target bench (steady 1) zeros _ fuel w' H).
Defined.

(** X4: no line is printed above the verbose level asked: the title and the
    mean line need level 1, the progress lines level 2 and their statistics
    level 3, "Positioning the probe..." level 3, the lines that trace the
    pattern level 4. *)
Theorem lines_respect_verbose_level mach cpr rnd p fuel w' :
  gcode_M48 mach cpr rnd p fuel W0 = Some (tt, w') ->
  Forall (fun e => (level_of e <= asked_verbose p)%Z) (trace w').
Proof.
  pose proof (asked_verbose_range p) as Hr.
  apply run_invariant.
  - intros msg. simpl. lia.
  - intros Hpos. simpl. lia.
  - intros (_ & Hv & _) e He. unfold verbose_ok in Hv.
    change (verbose_level (locals_of mach p)) with (asked_verbose p) in *.
    destruct e; simpl in *; try lia.
    + destruct He as [[E Hlt] | E]; subst; simpl; lia.
    + destruct detail; [|lia].
      destruct He as (_ & _ & _ & [[Hlt _] | [_ E]]); [lia | discriminate].
Qed.

Lemma lines_respect_verbose_level_witness :
  exists fuel w',
    gcode_M48 bench (steady 1) zeros
      (request None (Some x04) (Some x02) false) fuel W0 = Some (tt, w')
    /\ Forall (fun e => (level_of e <= 1)%Z) (trace w').
Proof.
  destruct bench_run_returns as (fuel & w' & H).
  exists fuel, w'. split; [exact H|].
  exact (lines_respect_verbose_level bench (steady 1) zeros _ fuel w' H).
Defined.

(** X5: a build without bed levelling never calls the levelling, and a
    build without display never writes to it. *)
Theorem absent_options_are_not_called mach cpr rnd p fuel w' :
  gcode_M48 mach cpr rnd p fuel W0 = Some (tt, w') ->
  (HAS_LEVELING mach = false ->
   Forall (fun e => is_level_off e = false /\ is_restore e = false) (trace w'))
  /\ (HAS_LCD mach = false ->
      Forall (fun e => match e with
                       | LCD_POINT _ _ | LCD_DEVIATION _ => False
                       | _ => True
                       end) (trace w')).
Proof.
  intros H. split; intros Hoff; revert H; apply run_invariant.
  - intros msg. split; reflexivity.
  - intros _. split; reflexivity.
  - intros _ e He. destruct e; simpl in *; try (split; reflexivity).
    + destruct He as [He _]. congruence.
    + congruence.
  - intros msg. exact I.
  - intros _. exact I.
  - intros _ e He. destruct e; simpl in *; try exact I.
    + destruct He as [He _]. congruence.
    + congruence.
Qed.

Lemma absent_options_are_not_called_witness :
  exists fuel w',
    gcode_M48 bench (steady 1) zeros
      (request None (Some x04) (Some x02) false) fuel W0 = Some (tt, w')
    /\ Forall (fun e => match e with
                        | LCD_POINT _ _ | LCD_DEVIATION _ => False
                        | _ => True
                        end) (trace w').
Proof.
  destruct bench_run_returns as (fuel & w' & H).
  exists fuel, w'. split; [exact H|].
  exact (proj2 (absent_options_are_not_called bench (steady 1) zeros _ fuel w' H)
               eq_refl).
Defined.

(** ** The gates, the end of a run and its counts *)

(** X1: when one of the five gates is closed (axes not homed, verbose level,
    sample count, target out of reach, legs), the run is over after at most
    the title and one error line, the same for every probe, generator and
    fuel: no call acts on the machine and no line but the title comes before
    the error line.  With homed axes there is exactly one error line, the
    last event; without, there is no event at all. *)
Theorem closed_gate_stops_the_run mach p :
  ~ all_gates mach p ->
  exists evs,
    (forall cpr rnd fuel w,
       gcode_M48 mach cpr rnd p fuel w = Some (tt, log w evs))
    /\ Forall (fun e => is_mechanical e = false) evs
    /\ (List.length evs <= 2)%nat
    /\ (axis_unhomed_error mach = true -> evs = [])
    /\ (axis_unhomed_error mach = false ->
        exists msg front,
          In msg [MSG_VERBOSE; MSG_SAMPLES; MSG_BOUNDS; MSG_LEGS]
          /\ evs = front ++ [SERIAL_ERROR msg]
          /\ (front = []
              \/ front = [SERIAL_ECHO "M48 Z-Probe Repeatability Test"])).
Proof.
  intros Hn.
  destruct (gate_closed_events mach p Hn) as (evs & Hrun & Hshape).
  exists evs. split.
  { intros cpr rnd fuel w. apply gcode_M48_gate_closed, Hrun. }
  destruct Hshape as [[Hh E] | (Hh & msg & Hin & [E | [E Hpos]])]; subst evs.
  - split; [constructor|]. split; [simpl; lia|]. split; [auto|].
    intros Hh'. congruence.
  - split; [repeat constructor|]. split; [simpl; lia|].
    split; [intros Hh'; congruence|].
    intros _. exists msg, []. auto.
  - split; [repeat constructor|]. split; [simpl; lia|].
    split; [intros Hh'; congruence|].
    intros _. exists msg, [SERIAL_ECHO "M48 Z-Probe Repeatability Test"]. auto.
Qed.

(** X1 at work: "M48" on the bench whose probe reaches nothing. *)
Lemma closed_gate_stops_the_run_witness :
  exists evs,
    (forall cpr rnd fuel w,
       gcode_M48 bench_out_of_reach cpr rnd (request None None None false)
         fuel w = Some (tt, log w evs))
    /\ Forall (fun e => is_mechanical e = false) evs.
Proof.
  destruct (closed_gate_stops_the_run bench_out_of_reach
              (request None None None false))
    as (evs & Hrun & Hq & _).
  - intros (_ & _ & _ & Ht & _). discriminate.
  - exists evs. split; assumption.
Defined.

Lemma reads_or_failure (cpr : nat -> option R) (n : nat) :
  (exists j, (j <= n)%nat /\ cpr j = None
             /\ forall i, (i < j)%nat -> cpr i <> None)
  \/ (exists t samples, cpr 0%nat = Some t /\ reads cpr 1 samples
                        /\ List.length samples = n).
Proof.
  assert (D : (exists j, (j <= n)%nat /\ cpr j = None)
              \/ (forall i, (i <= n)%nat -> cpr i <> None)).
  { induction n as [|n IH].
    - destruct (cpr 0%nat) eqn:E.
      + right. intros i Hi. replace i with 0%nat by lia. congruence.
      + left. exists 0%nat. split; [lia | exact E].
    - destruct IH as [(j & Hj & Hn) | Hall].
      + left. exists j. split; [lia | exact Hn].
      + destruct (cpr (Datatypes.S n)) eqn:E.
        * right. intros i Hi.
          destruct (Nat.eq_dec i (Datatypes.S n)); [subst; congruence|].
          apply Hall. lia.
        * left. exists (Datatypes.S n). split; [lia | exact E]. }
  destruct D as [(j & Hj & Hn) | Hall].
  - left. destruct (first_failure j cpr Hn) as (j0 & Hle & Hn0 & Hb).
    exists j0. repeat split; [lia | exact Hn0 | exact Hb].
  - right. destruct (cpr 0%nat) as [t|] eqn:E0.
    + destruct (reads_of_prefix cpr n 1) as (samples & Hl & Hr).
      { intros i Hi. apply Hall. lia. }
      exists t, samples. auto.
    + exfalso. apply (Hall 0%nat); [lia | exact E0].
Qed.

Lemma filter_none (f : Event -> bool) evs :
  Forall (fun e => f e = false) evs -> filter f evs = [].
Proof.
  intros H. induction H as [|e l He _ IH]; [reflexivity|].
  simpl. rewrite He. exact IH.
Qed.

Lemma loop_event_no_bracket e :
  is_loop_event e = true \/ e = randomSeed -> is_bracket e = false.
Proof.
  intros [H | H]; [|subst; reflexivity].
  destruct e; simpl in H; try discriminate; reflexivity.
Qed.

Lemma title_no_bracket p : filter is_bracket (title p) = [].
Proof. unfold title. destruct (asked_verbose p >? 0)%Z; reflexivity. Qed.

Lemma prologue_bracket mach c :
  filter is_bracket (prologue mach c)
  = (if HAS_LEVELING mach then [set_bed_leveling_enabled false] else [])
    ++ [setup_for_endstop_or_probe_move].
Proof.
  unfold prologue.
  destruct (verbose_level c >? 2)%Z, (HAS_LEVELING mach); reflexivity.
Qed.

Lemma final_block_quiet mach c st :
  filter is_bracket (final_block mach c st) = []
  /\ count is_probe_read (final_block mach c st) = 0%nat.
Proof.
  unfold final_block.
  destruct (verbose_level c >? 0)%Z, (HAS_LCD mach); split; reflexivity.
Qed.

(** X6: given that the pull loop of a delta build can end, every run ends,
    whatever the request, the probe and the generator.  Past the gates it
    ends closed, after a failed read as after the last sample: bed levelling
    switched off (when built in), set-up, probe reads, stow of the probe,
    final block if any, clean-up, bed levelling restored (when built in),
    report of the position, each of these calls once and in this order, and
    no probe read after the stow. *)
Theorem every_run_ends_closed mach cpr rnd p :
  pulls_in mach ->
  exists w',
    converges (gcode_M48 mach cpr rnd p) W0 (tt, w')
    /\ (all_gates mach p ->
        exists mid fb,
          trace w' = title p ++ prologue mach (locals_of mach p) ++ mid
                     ++ [STOW_PROBE] ++ fb ++ epilogue mach
          /\ count is_probe_read (fb ++ epilogue mach) = 0%nat
          /\ filter is_bracket (trace w')
             = (if HAS_LEVELING mach
                then [set_bed_leveling_enabled false] else [])
               ++ [setup_for_endstop_or_probe_move; STOW_PROBE;
                   clean_up_after_endstop_or_probe_move]
               ++ (if HAS_LEVELING mach
                   then [restore_bed_leveling_state] else [])
               ++ [report_current_position]).
Proof.
  intros Hp.
  assert (Hfilter : forall mid fb,
    Forall (fun e => is_loop_event e = true \/ e = randomSeed) mid ->
    filter is_bracket fb = [] ->
    filter is_bracket
      (title p ++ prologue mach (locals_of mach p) ++ mid
       ++ [STOW_PROBE] ++ fb ++ epilogue mach)
    = (if HAS_LEVELING mach then [set_bed_leveling_enabled false] else [])
      ++ [setup_for_endstop_or_probe_move; STOW_PROBE;
          clean_up_after_endstop_or_probe_move]
      ++ (if HAS_LEVELING mach then [restore_bed_leveling_state] else [])
      ++ [report_current_position]).
  { intros mid fb Hmid Hfb.
    rewrite !filter_app, title_no_bracket, prologue_bracket, Hfb.
    rewrite (filter_none is_bracket mid).
    - unfold epilogue. destruct (HAS_LEVELING mach); reflexivity.
    - eapply Forall_impl; [|exact Hmid]. apply loop_event_no_bracket. }
  destruct (all_gates_dec mach p) as [Hg | Hg].
  - destruct Hg as (Hh & Hv & Hs & Ht & Hl).
    destruct (reads_or_failure cpr (Z.to_nat (asked_samples p)))
      as [(j & Hj & Hn & Hb) | (t & samples & H0 & Hr & Hlen)].
    + destruct (gcode_M48_failure mach cpr rnd p j Hp Hh Hv Hs Ht Hl Hj Hb Hn)
        as (w' & evs & Hc & Htr & _ & Hev & _).
      exists w'. split; [exact Hc|]. intros _. exists evs, [].
      assert (E : trace w' = title p ++ prologue mach (locals_of mach p) ++ evs
                             ++ [STOW_PROBE] ++ [] ++ epilogue mach).
      { rewrite Htr, <- !app_assoc. reflexivity. }
      split; [exact E|]. split.
      * apply (epilogue_counts mach).
      * rewrite E. apply Hfilter; [exact Hev | reflexivity].
    + destruct (gcode_M48_success mach cpr rnd p t samples
                  Hp Hh Hv Hs Ht Hl H0 Hr Hlen)
        as (st & w' & evs & Hc & Htr & _ & Hev & _).
      exists w'. split; [exact Hc|]. intros _.
      exists ([randomSeed] ++ evs), (final_block mach (locals_of mach p) st).
      assert (E : trace w' = title p ++ prologue mach (locals_of mach p)
                             ++ ([randomSeed] ++ evs) ++ [STOW_PROBE]
                             ++ final_block mach (locals_of mach p) st
                             ++ epilogue mach).
      { rewrite Htr, <- !app_assoc. reflexivity. }
      destruct (final_block_quiet mach (locals_of mach p) st) as [Q1 Q2].
      split; [exact E|]. split.
      * rewrite count_app, Q2. apply (epilogue_counts mach).
      * rewrite E. apply Hfilter; [|exact Q1].
        constructor; [right; reflexivity|].
        eapply Forall_impl; [|exact Hev]. intros e He. left. exact He.
  - destruct (gate_closed_events mach p Hg) as (evs & Hrun & _).
    exists (log W0 evs). split; [|intros Hg'; contradiction].
    apply converges_total. intros fuel.
    apply gcode_M48_gate_closed, Hrun.
Qed.

(** X6 at work: "M48" on the bench with a probe that never reads. *)
Lemma every_run_ends_closed_witness :
  exists w',
    converges (gcode_M48 bench dead zeros (request None None None false))
              W0 (tt, w').
Proof.
  destruct (every_run_ends_closed bench dead zeros
              (request None None None false)) as (w' & Hc & _).
  - apply pulls_in_cartesian. reflexivity.
  - exists w'. exact Hc.
Defined.



(** ** A request without legs *)

Section NoLegs.

Variable mach : Machine.
Variable check_pt_result : nat -> option R.
Variables random_long random_long' : nat -> N.
Variable c : Locals.
Hypothesis Hlegs : n_legs c = 0%Z.

Lemma sample_pass_no_legs n st fuel w :
  sample_pass mach check_pt_result random_long c n st fuel w
  = sample_pass mach check_pt_result random_long' c n st fuel w.
Proof. unfold sample_pass. rewrite Hlegs. reflexivity. Qed.

Lemma probe_loop_no_legs : forall todo n st fuel w,
  probe_loop mach check_pt_result random_long c todo n st fuel w
  = probe_loop mach check_pt_result random_long' c todo n st fuel w.
Proof.
  induction todo as [|todo IH]; intros n st fuel w; [reflexivity|].
  simpl. unfold bind. rewrite <- sample_pass_no_legs.
  destruct (sample_pass mach check_pt_result random_long c n st fuel w)
    as [[st1 w1]|]; [|reflexivity].
  destruct (probing_good st1); [apply IH | reflexivity].
Qed.

Lemma M48_probe_no_legs fuel w :
  M48_probe mach check_pt_result random_long c fuel w
  = M48_probe mach check_pt_result random_long' c fuel w.
Proof.
  unfold M48_probe.
  apply bind_agree. intros u1 w1 _.
  apply bind_agree. intros u2 w2 _.
  apply bind_agree. intros u3 w3 _.
  apply bind_agree. intros t w4 _. cbv zeta.
  apply bind_agree_left.
  destruct (probing_good (stats_init c (negb (isnan t)))); [|reflexivity].
  apply bind_agree. intros u5 w5 _.
  apply probe_loop_no_legs.
Qed.

End NoLegs.

(** X8: a request that leaves no legs (L absent or 0, and not S alone) never
    moves the head between the reads and prints no line of the pattern, and
    the run is the same for every random generator, although the generator
    is still seeded after a successful first read. *)
Theorem no_legs_no_pattern mach cpr p :
  n_legs (locals_of mach p) = 0%Z ->
  (forall rnd rnd' fuel w,
     gcode_M48 mach cpr rnd p fuel w = gcode_M48 mach cpr rnd' p fuel w)
  /\ (forall rnd fuel w',
        gcode_M48 mach cpr rnd p fuel W0 = Some (tt, w') ->
        Forall (fun e => is_legs_event e = false) (trace w')
        /\ (all_gates mach p -> cpr 0%nat <> None ->
            In randomSeed (trace w'))).
Proof.
  intros Hlegs. split.
  - intros rnd rnd' fuel w. unfold gcode_M48.
    apply bind_agree. intros [c|] w1 E; [|reflexivity].
    destruct (M48_parameters_inv mach p fuel w c w1 E)
      as (_ & _ & _ & _ & _ & Hc & _).
    subst c. apply M48_probe_no_legs. exact Hlegs.
  - intros rnd fuel w' H. split.
    + revert H. apply run_invariant.
      * intros msg. reflexivity.
      * intros _. reflexivity.
      * intros _ e He. destruct e; simpl in *; try reflexivity;
          destruct He as (H1 & H2); try (destruct H2 as (H2 & _)); congruence.
    + intros (Hh & Hv & Hs & Ht & Hl) H0.
      rewrite (gcode_M48_gate_open mach cpr rnd p fuel W0 _ _
                 (M48_parameters_pass mach p fuel W0 Hh Hv Hs Ht Hl)) in H.
      unfold M48_probe in H.
      apply bind_inv in H. destruct H as (u1 & w1 & E1 & H).
      apply bind_inv in H. destruct H as (u2 & w2 & E2 & H).
      apply bind_inv in H. destruct H as (u3 & w3 & E3 & H).
      apply keeps_when in E1; [|apply keeps_emit].
      apply keeps_when in E2; [|apply keeps_emit].
      apply keeps_emit in E3.
      rewrite bind_emit_check_pt in H.
      assert (Hw3 : probe_calls w3 = 0%nat).
      { rewrite E3, E2, E1. reflexivity. }
      rewrite Hw3 in H.
      destruct (cpr 0%nat) as [t|]; [|congruence].
      cbv zeta in H. simpl isnan in H. simpl negb in H.
      change (probing_good (stats_init (locals_of mach p) true)) with true in H.
      cbv iota in H.
      apply bind_inv in H. destruct H as (st & w5 & E5 & H).
      apply bind_inv in E5. destruct E5 as (u6 & w6 & E6 & E5).
      assert (T6 : In randomSeed (trace w6)).
      { unfold emit in E6. inversion E6; subst. simpl.
        apply in_or_app. right. left. reflexivity. }
      assert (Grow : forall A (m : M A) fl wa a wb,
                hoare (fun _ => True) (fun _ => True) m ->
                m fl wa = Some (a, wb) ->
                In randomSeed (trace wa) -> In randomSeed (trace wb)).
      { intros A m fl wa a wb Hm Hrun Hin.
        destruct (Hm fl wa a wb Hrun) as (_ & evs & Htr & _).
        rewrite Htr. apply in_or_app. left. exact Hin. }
      assert (T5 : In randomSeed (trace w5)).
      { eapply (Grow _ _ fuel w6 st w5); [|exact E5|exact T6].
        eapply hoare_weaken;
          [apply (probe_loop_inventory mach cpr rnd (locals_of mach p))
          |auto|auto]. }
      eapply (Grow _ _ fuel w5 tt w'); [|exact H|exact T5].
      eapply hoare_bind with (Q1 := fun _ => True);
        [apply hoare_emit; exact I|].
      intros _ _. eapply hoare_bind with (Q1 := fun _ => True).
      { unfold when. destruct (probing_good st); [|apply hoare_ret; exact I].
        eapply hoare_bind with (Q1 := fun _ => True);
          [apply hoare_emit; exact I|].
        intros _ _. eapply hoare_bind with (Q1 := fun _ => True);
          [apply hoare_when_emit; intros; exact I|].
        intros _ _. eapply hoare_bind with (Q1 := fun _ => True);
          [apply hoare_emit; exact I|].
        intros _ _. apply hoare_when_emit. intros; exact I. }
      intros _ _. eapply hoare_bind with (Q1 := fun _ => True);
        [apply hoare_emit; exact I|].
      intros _ _. eapply hoare_bind with (Q1 := fun _ => True);
        [apply hoare_when_emit; intros; exact I|].
      intros _ _. apply hoare_emit. exact I.
Qed.

(** X8 at work: plain "M48" on the bench. *)
Lemma no_legs_no_pattern_witness :
  gcode_M48 bench (steady 1) zeros (request None None None false) 2%nat W0
  = gcode_M48 bench (steady 1) (fun _ => 7%N) (request None None None false)
      2%nat W0.
Proof.
  exact (proj1 (no_legs_no_pattern bench (steady 1)
                  (request None None None false) eq_refl)
           zeros (fun _ => 7%N) 2%nat W0).
Defined.

(** ** The order of the figures *)

Lemma sum_list_between (a b : R) (l : list R) :
  (forall s, In s l -> a <= s <= b) ->
  INR (List.length l) * a <= sum_list l <= INR (List.length l) * b.
Proof.
  induction l as [|x t IH]; intros H.
  - simpl. lra.
  - assert (Hx : a <= x <= b) by (apply H; left; reflexivity).
    assert (Ht : forall s, In s t -> a <= s <= b)
      by (intros s Hs; apply H; right; exact Hs).
    specialize (IH Ht).
    change (List.length (x :: t)) with (Datatypes.S (List.length t)).
    rewrite S_INR. unfold sum_list in *. simpl. lra.
Qed.

Lemma INR_length_pos (l : list R) : l <> [] -> 0 < INR (List.length l).
Proof.
  intros H. destruct l as [|x t]; [congruence|].
  apply lt_0_INR. simpl. lia.
Qed.

Lemma mean_of_between (a b : R) (l : list R) :
  l <> [] -> (forall s, In s l -> a <= s <= b) -> a <= mean_of l <= b.
Proof.
  intros Hne H.
  pose proof (INR_length_pos l Hne) as Hn.
  pose proof (sum_list_between a b l H) as [Hlo Hhi].
  unfold mean_of. split.
  - apply Rmult_le_reg_r with (r := INR (List.length l)); [exact Hn|].
    unfold Rdiv. rewrite Rmult_assoc, Rinv_l by lra. lra.
  - apply Rmult_le_reg_r with (r := INR (List.length l)); [exact Hn|].
    unfold Rdiv. rewrite Rmult_assoc, Rinv_l by lra. lra.
Qed.

Lemma sigma_of_between (a b : R) (l : list R) :
  l <> [] -> (forall s, In s l -> a <= s <= b) ->
  0 <= sigma_of l <= b - a.
Proof.
  intros Hne H.
  pose proof (INR_length_pos l Hne) as Hn.
  pose proof (mean_of_between a b l Hne H) as Hm.
  unfold sigma_of. split; [apply sqrt_pos|].
  set (m := mean_of l) in *.
  assert (Hsq : forall v, In v (map (fun s => (s - m) * (s - m)) l) ->
                          0 <= v <= (b - a) * (b - a)).
  { intros v Hv. apply in_map_iff in Hv. destruct Hv as (s & E & Hs).
    subst v. specialize (H s Hs). clearbody m.
    assert (0 <= (b - a - (s - m)) * (b - a + (s - m)))
      by (apply Rmult_le_pos; lra).
    split; [apply (Rle_0_sqr (s - m))|].
    replace ((b - a) * (b - a))
      with ((s - m) * (s - m) + (b - a - (s - m)) * (b - a + (s - m)))
      by ring.
    lra. }
  pose proof (sum_list_between _ _ _ Hsq) as [_ Hhi].
  rewrite length_map in Hhi.
  rewrite <- (sqrt_square (b - a)) by lra.
  apply sqrt_le_1_alt.
  apply Rmult_le_reg_r with (r := INR (List.length l)); [exact Hn|].
  unfold Rdiv. rewrite Rmult_assoc, Rinv_l by lra. lra.
Qed.

(** X9: the figures of a full run are in order (in exact arithmetic): the
    minimum and maximum printed enclose every sample and the mean, and the
    standard deviation printed lies between 0 and the range.  A probe that
    repeats one height exactly is reported with that mean and deviation 0;
    its minimum and maximum are that height, and the range 0, when the height
    lies from -99999.9 to 99999.9. *)
Theorem reported_figures_are_ordered mach cpr rnd p (t : R) (samples : list R) :
  pulls_in mach -> all_gates mach p ->
  cpr 0%nat = Some t -> reads cpr 1 samples ->
  List.length samples = Z.to_nat (asked_samples p) ->
  exists st w',
    converges (gcode_M48 mach cpr rnd p) W0 (tt, w')
    /\ In (ECHO_STD_DEV (sigma st)) (trace w')
    /\ ((0 < asked_verbose p)%Z ->
        In (ECHO_SUMMARY (mean st) (min st) (max st) (max st - min st))
           (trace w'))
    /\ (forall s, In s samples -> min st <= s <= max st)
    /\ min st <= mean st <= max st
    /\ 0 <= sigma st <= max st - min st
    /\ (forall z, (forall s, In s samples -> s = z) ->
                  mean st = z /\ sigma st = 0
                  /\ (-99999.9 <= z <= 99999.9 ->
                      min st = z /\ max st = z /\ max st - min st = 0)).
Proof.
  intros Hp (Hh & Hv & Hs & Ht & Hl) H0 Hreads Hlen.
  destruct (gcode_M48_success mach cpr rnd p t samples
              Hp Hh Hv Hs Ht Hl H0 Hreads Hlen)
    as (st & w' & evs & Hc & Htr & _ & _ & _ & _ & Hmean & Hsigma & Hmin & Hmax).
  assert (Hne : samples <> []).
  { intros E. rewrite E in Hlen. unfold samples_ok in Hs. simpl in Hlen. lia. }
  destruct (min_from_below samples 99999.9) as (_ & Hlo & Hglb).
  destruct (max_from_above samples (-99999.9)) as (_ & Hhi & Hlub).
  assert (Hin : forall s, In s samples -> min st <= s <= max st).
  { intros s Hs'. rewrite Hmin, Hmax. split; [apply Hlo | apply Hhi]; exact Hs'. }
  assert (Hm : min st <= mean st <= max st).
  { rewrite Hmean. apply mean_of_between; assumption. }
  assert (Hsg : 0 <= sigma st <= max st - min st).
  { rewrite Hsigma. apply sigma_of_between; assumption. }
  exists st, w'. split; [exact Hc|].
  split; [|split; [|split; [exact Hin|split; [exact Hm|split; [exact Hsg|]]]]].
  - rewrite Htr. apply in_or_app. right. apply in_or_app. right.
    apply in_or_app. left. unfold final_block.
    apply in_or_app. right. apply in_or_app. right.
    apply in_or_app. left. left. reflexivity.
  - intros Hpos. rewrite Htr. apply in_or_app. right. apply in_or_app. right.
    apply in_or_app. left. apply final_block_has_summary.
    apply Z.gtb_lt. exact Hpos.
  - intros z Hall.
    assert (Hz' : forall s, In s samples -> z <= s <= z).
    { intros s Hs'. rewrite (Hall s Hs'). lra. }
    pose proof (mean_of_between z z samples Hne Hz') as Mz.
    pose proof (sigma_of_between z z samples Hne Hz') as Sz.
    rewrite <- Hmean in Mz. rewrite <- Hsigma in Sz.
    split; [lra|]. split; [lra|]. intros Hz.
    assert (Emin : min st = z).
    { destruct samples as [|s0 rest]; [congruence|].
      assert (E0 : s0 = z) by (apply Hall; left; reflexivity).
      apply Rle_antisym.
      - rewrite <- E0. apply Hin. left. reflexivity.
      - rewrite Hmin. apply Hglb; [lra|].
        intros s Hs'. rewrite (Hall s Hs'). lra. }
    assert (Emax : max st = z).
    { destruct samples as [|s0 rest]; [congruence|].
      assert (E0 : s0 = z) by (apply Hall; left; reflexivity).
      apply Rle_antisym.
      - rewrite Hmax. apply Hlub; [lra|].
        intros s Hs'. rewrite (Hall s Hs'). lra.
      - rewrite <- E0. apply Hin. left. reflexivity. }
    rewrite Emin, Emax. repeat split; lra.
Qed.

(** X9 at work: "M48 P4" on the bench with a probe that always reads 1. *)
Lemma reported_figures_are_ordered_witness :
  exists st w',
    converges (gcode_M48 bench (steady 1) zeros
                 (request None (Some x04) None false)) W0 (tt, w')
    /\ In (ECHO_STD_DEV (sigma st)) (trace w')
    /\ sigma st = 0.
Proof.
  destruct (reported_figures_are_ordered bench (steady 1) zeros
              (request None (Some x04) None false) 1 [1; 1; 1; 1])
    as (st & w' & Hc & Hdev & _ & _ & _ & _ & Hsame).
  - apply pulls_in_cartesian. reflexivity.
  - unfold all_gates. repeat split; try reflexivity; gate_arith.
  - reflexivity.
  - reflexivity.
  - reflexivity.
  - exists st, w'. split; [exact Hc|]. split; [exact Hdev|].
    apply (Hsame 1).
    intros s Hs. simpl in Hs. intuition.
Defined.

(** ** The pull loop stops at the first reachable point *)

Lemma within_radius_false (r x y : R) :
  r * r < x * x + y * y -> within_radius r x y = false.
Proof.
  intros H. unfold within_radius.
  destruct (Rle_dec (x * x + y * y) (r * r)); [lra | reflexivity].
Qed.

Lemma pulling_lines_step c x y N :
  (if (verbose_level c >? 3)%Z
   then [ECHO_PULLING (x * 0.8) (y * 0.8)] else [])
  ++ pulling_lines c (x * 0.8) (y * 0.8) N
  = pulling_lines c x y (Datatypes.S N).
Proof.
  unfold pulling_lines. destruct (verbose_level c >? 3)%Z; [|reflexivity].
  change (seq 1 (Datatypes.S N)) with (1%nat :: seq 2 N).
  rewrite <- (seq_shift N 1). cbn [map app]. rewrite map_map. f_equal.
  - simpl. f_equal; ring.
  - apply map_ext. intros k. simpl. f_equal; ring.
Qed.

(** X10: on a delta build the pull loop stops at the first reachable point:
    when the point scaled [N] times by 0.8 is reachable and none of the
    earlier ones is, the loop returns exactly that point, whatever lies
    further in, and prints its [N] lines at verbose level 4 only.  A point
    reachable at once is left as it is, in silence. *)
Theorem pull_loop_stops_at_first_reachable mach c (N : nat) : forall x y w,
  position_is_reachable_by_probe mach (x * 0.8 ^ N) (y * 0.8 ^ N) = true ->
  (forall k, (k < N)%nat ->
     position_is_reachable_by_probe mach (x * 0.8 ^ k) (y * 0.8 ^ k) = false) ->
  converges (pull_to_center mach c (x, y)) w
    ((x * 0.8 ^ N, y * 0.8 ^ N), log w (pulling_lines c x y N))
  /\ (N = 0%nat ->
      converges (pull_to_center mach c (x, y)) w ((x, y), w)).
Proof.
  set (cond := fun XY : R * R =>
         negb (position_is_reachable_by_probe mach (fst XY) (snd XY))).
  set (body := fun XY : R * R =>
         bind (when (verbose_level c >? 3)%Z
                 (emit (ECHO_PULLING (fst XY * 0.8) (snd XY * 0.8))))
              (fun _ => ret (fst XY * 0.8, snd XY * 0.8))).
  assert (Hloops : forall N x y w,
    position_is_reachable_by_probe mach (x * 0.8 ^ N) (y * 0.8 ^ N) = true ->
    (forall k, (k < N)%nat ->
       position_is_reachable_by_probe mach (x * 0.8 ^ k) (y * 0.8 ^ k) = false) ->
    loops cond body (x, y) w
      ((x * 0.8 ^ N, y * 0.8 ^ N), log w (pulling_lines c x y N))).
  { clear N. intros N. induction N as [|N IH]; intros x y w HN Hbefore.
    - simpl in *. rewrite !Rmult_1_r in *.
      unfold pulling_lines. simpl.
      replace (log w (if (verbose_level c >? 3)%Z then [] else [])) with w
        by (destruct (verbose_level c >? 3)%Z; rewrite log_nil; reflexivity).
      apply loops_done. unfold cond. simpl. rewrite HN. reflexivity.
    - assert (H0 : position_is_reachable_by_probe mach x y = false).
      { specialize (Hbefore 0%nat ltac:(lia)). simpl in Hbefore.
        rewrite !Rmult_1_r in Hbefore. exact Hbefore. }
      eapply loops_step with
        (s' := (x * 0.8, y * 0.8))
        (w' := log w (if (verbose_level c >? 3)%Z
                      then [ECHO_PULLING (x * 0.8) (y * 0.8)] else [])).
      + unfold cond. simpl. rewrite H0. reflexivity.
      + unfold body. simpl fst. simpl snd.
        eapply converges_bind; [apply converges_when_emit | apply converges_ret].
      + replace (x * 0.8 ^ Datatypes.S N) with (x * 0.8 * 0.8 ^ N)
          by (simpl; ring).
        replace (y * 0.8 ^ Datatypes.S N) with (y * 0.8 * 0.8 ^ N)
          by (simpl; ring).
        rewrite <- pulling_lines_step, <- log_log.
        apply IH.
        * rewrite <- HN. simpl. f_equal; ring.
        * intros k Hk. rewrite <- (Hbefore (Datatypes.S k)) by lia.
          simpl. f_equal; ring. }
  intros x y w HN Hbefore. split.
  - apply loops_converges. apply Hloops; assumption.
  - intros E. subst N. simpl in HN. rewrite !Rmult_1_r in HN.
    apply loops_converges. apply loops_done.
    simpl. rewrite HN. reflexivity.
Qed.

(** X10 at work: the point (150, 0) of a delta build of radius 100 is pulled
    to 120 and then to 96. *)
Lemma pull_loop_stops_at_first_reachable_witness :
  converges
    (pull_to_center delta_100
       (locals_of delta_100 (request (Some x04) None None false)) (150, 0))
    W0
    ((150 * 0.8 ^ 2, 0 * 0.8 ^ 2),
     log W0 (pulling_lines
               (locals_of delta_100 (request (Some x04) None None false))
               150 0 2)).
Proof.
  apply (pull_loop_stops_at_first_reachable delta_100
           (locals_of delta_100 (request (Some x04) None None false))
           2 150 0 W0).
  - apply within_radius_true. simpl. lra.
  - intros k Hk. apply within_radius_false.
    destruct k as [|[|k]]; [simpl; lra | simpl; lra | lia].
Defined.

(** ** The pattern stays around the target *)



(** ** The wrap of the angle does not move the waypoint *)

Lemma RADIANS_turns (a : R) (k : Z) :
  RADIANS (a + 360 * IZR k) = RADIANS a + 2 * IZR k * PI.
Proof. unfold RADIANS. field. Qed.

Lemma cos_sin_turns (x : R) (k : Z) :
  cos (x + 2 * IZR k * PI) = cos x /\ sin (x + 2 * IZR k * PI) = sin x.
Proof.
  destruct (Z_le_gt_dec 0 k) as [Hk | Hk].
  - rewrite <- (Z2Nat.id k Hk), <- INR_IZR_INZ.
    split; [apply cos_period | apply sin_period].
  - set (n := Z.to_nat (- k)).
    assert (E : IZR k = - INR n).
    { unfold n. rewrite INR_IZR_INZ, Z2Nat.id by lia.
      rewrite opp_IZR. ring. }
    rewrite E.
    rewrite <- (cos_period (x + 2 * - INR n * PI) n).
    rewrite <- (sin_period (x + 2 * - INR n * PI) n).
    split; f_equal; ring.
Qed.

(** X12: the two loops that wrap the angle always end, on an angle from 0 to
    360 whose cosine and sine are those of the angle given: the wrap never
    moves a waypoint.  An angle already from 0 to 360 is left as it is. *)
Theorem wrap_angle_keeps_waypoint (angle : R) (w : World) :
  exists a,
    converges (wrap_angle angle) w (a, w)
    /\ 0 <= a <= 360
    /\ cos (RADIANS a) = cos (RADIANS angle)
    /\ sin (RADIANS a) = sin (RADIANS angle)
    /\ (0 <= angle <= 360 -> a = angle).
Proof.
  destruct (wrap_angle_converges angle w) as (k & Hc & Hr).
  exists (angle + 360 * IZR k).
  split; [exact Hc|]. split; [exact Hr|].
  rewrite RADIANS_turns.
  destruct (cos_sin_turns (RADIANS angle) k) as [Ecos Esin].
  split; [exact Ecos|]. split; [exact Esin|].
  intros Hin.
  assert (Hid : converges (wrap_angle angle) w (angle, w)).
  { unfold wrap_angle. eapply converges_bind.
    - apply loops_converges, loops_done. apply fgt_false. lra.
    - apply loops_converges, loops_done. apply flt_false. lra. }
  pose proof (converges_unique _ _ _ _ Hc Hid) as E.
  injection E as E'. exact E'.
Qed.

(** Given that the pull loop can end, a run returns for some fuel. *)
Lemma every_run_returns_on mach cpr rnd p :
  pulls_in mach ->
  exists fuel w', gcode_M48 mach cpr rnd p fuel W0 = Some (tt, w').
Proof.
  intros Hp.
  destruct (all_gates_dec mach p) as [Hg | Hg].
  - destruct Hg as (Hh & Hv & Hs & Ht & Hl).
    destruct (reads_or_failure cpr (Z.to_nat (asked_samples p)))
      as [(j & Hj & Hn & Hb) | (t & samples & H0 & Hr & Hlen)].
    + destruct (gcode_M48_failure mach cpr rnd p j Hp Hh Hv Hs Ht Hl Hj Hb Hn)
        as (w' & evs & [f0 Hf] & _).
      exists f0, w'. apply Hf. lia.
    + destruct (gcode_M48_success mach cpr rnd p t samples
                  Hp Hh Hv Hs Ht Hl H0 Hr Hlen)
        as (st & w' & evs & [f0 Hf] & _).
      exists f0, w'. apply Hf. lia.
  - destruct (gate_closed_events mach p Hg) as (evs & Hrun & _).
    exists 0%nat, (log W0 evs). apply gcode_M48_gate_closed, Hrun.
Qed.

(** ** The progress lines *)

Lemma shown_app a b : shown (a ++ b) = shown a ++ shown b.
Proof. unfold shown. rewrite filter_app, map_app. reflexivity. Qed.

Lemma shown_none evs :
  Forall (fun e => is_sample_line e = false) evs -> shown evs = [].
Proof. intros H. unfold shown. rewrite filter_none by exact H. reflexivity. Qed.

Lemma hoare_run {A} P (Q : A -> Prop) (m : M A) fuel w a w' :
  hoare P Q m -> m fuel w = Some (a, w') ->
  exists evs, trace w' = trace w ++ evs /\ Forall P evs.
Proof. intros Hm H. destruct (Hm fuel w a w' H) as [_ He]. exact He. Qed.

Ltac quiet_step E :=
  eapply hoare_run; [|exact E];
  first [apply hoare_when_emit; intros; reflexivity
        |apply hoare_emit; reflexivity].

Lemma legs_event_no_line e :
  is_legs_event e = true -> is_sample_line e = false.
Proof. destruct e; simpl; congruence. Qed.

Section Progress.

Variable mach : Machine.
Variable check_pt_result : nat -> option R.
Variable random_long : nat -> N.
Variable c : Locals.

Lemma optional_pattern_no_line :
  hoare (fun e => is_sample_line e = false) (fun _ => True)
        (when (negb (n_legs c =? 0)%Z) (legs_pattern mach random_long c)).
Proof.
  destruct (n_legs c =? 0)%Z eqn:E; simpl.
  - apply hoare_ret. exact I.
  - eapply hoare_weaken;
      [apply legs_pattern_inventory; apply Z.eqb_neq; exact E | | auto].
    intros e [_ Hl]. apply legs_event_no_line. exact Hl.
Qed.

(** One pass: one more read, and one progress line at most, after a read
    that succeeded. *)
Lemma sample_pass_line n st fuel w st' w' :
  probe_calls w = Datatypes.S n ->
  sample_pass mach check_pt_result random_long c n st fuel w = Some (st', w') ->
  probe_calls w' = Datatypes.S (Datatypes.S n)
  /\ exists evs,
       trace w' = trace w ++ evs
       /\ match check_pt_result (Datatypes.S n) with
          | Some sample =>
              probing_good st' = true
              /\ shown evs = (if (1 <? verbose_level c)%Z
                              then [(Z.of_nat (Datatypes.S n), Some sample)]
                              else [])
          | None => probing_good st' = false /\ shown evs = []
          end.
Proof.
  intros Hw H.
  split.
  { pose proof H as Hr. apply sample_pass_reads_once in Hr.
    rewrite Hr, Hw. reflexivity. }
  unfold sample_pass in H.
  apply bind_inv in H. destruct H as (u1 & w1 & E1 & H).
  assert (exists evs, trace w1 = trace w ++ evs
            /\ Forall (fun e => is_sample_line e = false) evs)
    as (evs1 & T1 & F1) by quiet_step E1.
  apply keeps_when in E1; [|apply keeps_emit].
  apply bind_inv in H. destruct H as (u2 & w2 & E2 & H).
  destruct (hoare_run _ _ _ _ _ _ _ optional_pattern_no_line E2)
    as (evs2 & T2 & F2).
  apply keeps_when in E2; [|apply keeps_legs_pattern].
  rewrite bind_emit_check_pt in H.
  assert (Hw2 : probe_calls w2 = Datatypes.S n) by lia.
  rewrite Hw2 in H.
  set (read := check_pt (X_probe_location c) (Y_probe_location c)
                 (raise_after c) 0) in *.
  assert (Hfront : shown (evs1 ++ evs2 ++ [read]) = []).
  { apply shown_none. apply Forall_app. split; [exact F1|].
    apply Forall_app. split; [exact F2 | repeat constructor]. }
  destruct (check_pt_result (Datatypes.S n)) as [sample|].
  - apply bind_inv in H. destruct H as (u4 & w4 & E4 & H).
    inversion H; subst st' w4; clear H.
    assert (Hcond : ((verbose_level c >? 0) && (verbose_level c >? 1))%Z
                    = (1 <? verbose_level c)%Z).
    { destruct (Z.gtb_spec (verbose_level c) 0),
               (Z.gtb_spec (verbose_level c) 1),
               (Z.ltb_spec 1 (verbose_level c)); simpl; try reflexivity; lia. }
    rewrite Hcond in E4.
    destruct (1 <? verbose_level c)%Z; simpl in E4; inversion E4; subst w'.
    + eexists (evs1 ++ evs2 ++ [read] ++ [_]). simpl trace.
      split; [rewrite T2, T1, <- !app_assoc; reflexivity|].
      split; [reflexivity|].
      rewrite !app_assoc, shown_app, <- !app_assoc, Hfront. simpl.
      unfold shown. simpl. f_equal. f_equal. lia.
    + exists (evs1 ++ evs2 ++ [read]). simpl trace.
      split; [rewrite T2, T1, <- !app_assoc; reflexivity|].
      split; [reflexivity | exact Hfront].
  - inversion H; subst st' w'; clear H.
    exists (evs1 ++ evs2 ++ [read]). simpl trace.
    split; [rewrite T2, T1, <- !app_assoc; reflexivity|].
    split; [reflexivity | exact Hfront].
Qed.

Lemma probe_loop_lines : forall todo n st fuel w st' w',
  probe_calls w = Datatypes.S n ->
  probe_loop mach check_pt_result random_long c todo n st fuel w
  = Some (st', w') ->
  exists evs j,
    trace w' = trace w ++ evs
    /\ (j <= todo)%nat
    /\ shown evs = (if (1 <? verbose_level c)%Z
                    then numbered_reads check_pt_result (Datatypes.S n) j
                    else [])
    /\ (forall k, (Datatypes.S n <= k < Datatypes.S n + j)%nat ->
                  check_pt_result k <> None)
    /\ (j = todo \/ check_pt_result (Datatypes.S n + j)%nat = None).
Proof.
  induction todo as [|todo IH]; intros n st fuel w st' w' Hw H.
  - inversion H; subst. exists [], 0%nat. rewrite app_nil_r.
    split; [reflexivity|]. split; [lia|]. split; [|split].
    + destruct (1 <? verbose_level c)%Z; reflexivity.
    + intros k Hk. lia.
    + left. reflexivity.
  - simpl in H. apply bind_inv in H. destruct H as (st1 & w1 & E1 & H).
    destruct (sample_pass_line n st fuel w st1 w1 Hw E1)
      as (Hw1 & evs1 & T1 & Hcase).
    destruct (check_pt_result (Datatypes.S n)) as [sample|] eqn:Eread.
    + destruct Hcase as [Hgood Hshown]. rewrite Hgood in H.
      destruct (IH (Datatypes.S n) st1 fuel w1 st' w' Hw1 H)
        as (evs & j & T & Hj & Hsh & Hok & Hend).
      exists (evs1 ++ evs), (Datatypes.S j).
      split; [rewrite T, T1, app_assoc; reflexivity|].
      split; [lia|]. split; [|split].
      * rewrite shown_app, Hshown, Hsh.
        destruct (1 <? verbose_level c)%Z; [|reflexivity].
        unfold numbered_reads. simpl. rewrite Eread. reflexivity.
      * intros k Hk.
        destruct (Nat.eq_dec k (Datatypes.S n)) as [E | E];
          [subst k; congruence | apply Hok; lia].
      * destruct Hend as [E | E]; [left; lia|]. right.
        replace (Datatypes.S n + Datatypes.S j)%nat
          with (Datatypes.S (Datatypes.S n) + j)%nat by lia.
        exact E.
    + destruct Hcase as [Hbad Hshown]. rewrite Hbad in H.
      inversion H; subst st' w'; clear H.
      exists evs1, 0%nat. split; [exact T1|]. split; [lia|].
      split; [|split].
      * rewrite Hshown. destruct (1 <? verbose_level c)%Z; reflexivity.
      * intros k Hk. lia.
      * right. rewrite Nat.add_0_r. exact Eread.
Qed.

Lemma M48_probe_lines fuel w w' :
  probe_calls w = 0%nat ->
  M48_probe mach check_pt_result random_long c fuel w = Some (tt, w') ->
  exists evs j,
    trace w' = trace w ++ evs
    /\ (j <= Z.to_nat (n_samples c))%nat
    /\ shown evs = (if (1 <? verbose_level c)%Z
                    then numbered_reads check_pt_result 1 j
                    else [])
    /\ (forall k, (1 <= k <= j)%nat -> check_pt_result k <> None)
    /\ (check_pt_result 0%nat <> None ->
        j = Z.to_nat (n_samples c)
        \/ check_pt_result (Datatypes.S j) = None)
    /\ (check_pt_result 0%nat = None -> j = 0%nat).
Proof.
  intros Hw H. unfold M48_probe in H.
  apply bind_inv in H. destruct H as (u1 & w1 & E1 & H).
  assert (exists evs, trace w1 = trace w ++ evs
            /\ Forall (fun e => is_sample_line e = false) evs)
    as (evs1 & T1 & F1) by quiet_step E1.
  apply keeps_when in E1; [|apply keeps_emit].
  apply bind_inv in H. destruct H as (u2 & w2 & E2 & H).
  assert (exists evs, trace w2 = trace w1 ++ evs
            /\ Forall (fun e => is_sample_line e = false) evs)
    as (evs2 & T2 & F2) by quiet_step E2.
  apply keeps_when in E2; [|apply keeps_emit].
  apply bind_inv in H. destruct H as (u3 & w3 & E3 & H).
  assert (exists evs, trace w3 = trace w2 ++ evs
            /\ Forall (fun e => is_sample_line e = false) evs)
    as (evs3 & T3 & F3) by quiet_step E3.
  apply keeps_emit in E3.
  rewrite bind_emit_check_pt in H. cbv zeta in H.
  assert (Hw3 : probe_calls w3 = 0%nat) by lia.
  rewrite Hw3 in H.
  set (read := check_pt (X_probe_location c) (Y_probe_location c)
                 (raise_after c) (verbose_level c)) in *.
  set (w4 := {| trace := trace w3 ++ [read];
                probe_calls := 1;
                rand_calls := rand_calls w3 |}) in *.
  assert (Hw4 : probe_calls w4 = 1%nat) by reflexivity.
  assert (T4 : trace w4 = trace w ++ (evs1 ++ evs2 ++ evs3 ++ [read])).
  { unfold w4. simpl. rewrite T3, T2, T1, <- !app_assoc. reflexivity. }
  assert (F4 : Forall (fun e => is_sample_line e = false)
                      (evs1 ++ evs2 ++ evs3 ++ [read])).
  { repeat (apply Forall_app; split); try assumption. repeat constructor. }
  apply bind_inv in H. destruct H as (st & w5 & E5 & H).
  assert (Hloop : exists evs j,
    trace w5 = trace w4 ++ evs
    /\ (j <= Z.to_nat (n_samples c))%nat
    /\ shown evs = (if (1 <? verbose_level c)%Z
                    then numbered_reads check_pt_result 1 j
                    else [])
    /\ (forall k, (1 <= k <= j)%nat -> check_pt_result k <> None)
    /\ (check_pt_result 0%nat <> None ->
        j = Z.to_nat (n_samples c)
        \/ check_pt_result (Datatypes.S j) = None)
    /\ (check_pt_result 0%nat = None -> j = 0%nat)).
  { destruct (check_pt_result 0%nat) as [t|] eqn:E0;
      simpl isnan in E5; simpl negb in E5;
      [change (probing_good (stats_init c true)) with true in E5
      |change (probing_good (stats_init c false)) with false in E5];
      cbv iota in E5.
    - apply bind_inv in E5. destruct E5 as (u6 & w6 & E6 & E5).
      assert (exists evs, trace w6 = trace w4 ++ evs
            /\ Forall (fun e => is_sample_line e = false) evs)
    as (evs6 & T6 & F6) by quiet_step E6.
      apply keeps_emit in E6.
      assert (Hw6 : probe_calls w6 = 1%nat) by lia.
      destruct (probe_loop_lines _ 0%nat _ _ _ _ _ Hw6 E5)
        as (evs & j & T & Hj & Hsh & Hok & Hend).
      exists (evs6 ++ evs), j.
      split; [rewrite T, T6, app_assoc; reflexivity|].
      split; [exact Hj|]. split; [|split; [|split]].
      + rewrite shown_app, (shown_none evs6 F6). exact Hsh.
      + intros k Hk. apply Hok. lia.
      + intros _. exact Hend.
      + discriminate.
    - inversion E5; subst. exists [], 0%nat. rewrite app_nil_r.
      split; [reflexivity|]. split; [lia|]. split; [|split; [|split]].
      + destruct (1 <? verbose_level c)%Z; reflexivity.
      + intros k Hk. lia.
      + congruence.
      + reflexivity. }
  destruct Hloop as (evs & j & T5 & Hj & Hsh & Hok & Hend & Hnone).
  assert (Htail : exists evs', trace w' = trace w5 ++ evs'
                    /\ Forall (fun e => is_sample_line e = false) evs').
  { eapply hoare_run; [|exact H].
    eapply hoare_bind with (Q1 := fun _ => True);
      [apply hoare_emit; reflexivity|].
    intros _ _. eapply hoare_bind with (Q1 := fun _ => True).
    { unfold when. destruct (probing_good st); [|apply hoare_ret; exact I].
      eapply hoare_bind with (Q1 := fun _ => True);
        [apply hoare_emit; reflexivity|].
      intros _ _. eapply hoare_bind with (Q1 := fun _ => True);
        [apply hoare_when_emit; intros; reflexivity|].
      intros _ _. eapply hoare_bind with (Q1 := fun _ => True);
        [apply hoare_emit; reflexivity|].
      intros _ _. apply hoare_when_emit. intros; reflexivity. }
    intros _ _. eapply hoare_bind with (Q1 := fun _ => True);
      [apply hoare_emit; reflexivity|].
    intros _ _. eapply hoare_bind with (Q1 := fun _ => True);
      [apply hoare_when_emit; intros; reflexivity|].
    intros _ _. apply hoare_emit. reflexivity. }
  destruct Htail as (evs' & T' & F').
  exists ((evs1 ++ evs2 ++ evs3 ++ [read]) ++ evs ++ evs'), j.
  split; [rewrite T', T5, T4, <- !app_assoc; reflexivity|].
  split; [exact Hj|].
  split; [|split; [exact Hok | split; [exact Hend | exact Hnone]]].
  rewrite shown_app, (shown_none _ F4), shown_app, (shown_none _ F'),
    app_nil_r.
  exact Hsh.
Qed.

End Progress.

(** X13: at verbose level 2 and above the progress lines of a run are
    numbered 1, 2, ... [j] in this order with no gap, and line number [k]
    shows reading number [k] of the probe, the first reading of the run
    being number 0.  There is one line for each sample read that succeeded
    and none else: past the gates and after a successful first reading, the
    readings 1 to [j] succeeded and either [j] is the sample count or
    reading [j + 1] failed; with a closed gate or a failed first reading
    there is no line.  Below level 2 there is no progress line. *)
Theorem progress_lines_count_up mach cpr rnd p fuel w' :
  gcode_M48 mach cpr rnd p fuel W0 = Some (tt, w') ->
  exists j,
    (j <= Z.to_nat (asked_samples p))%nat
    /\ shown (trace w') = (if (1 <? asked_verbose p)%Z
                           then numbered_reads cpr 1 j else [])
    /\ (forall k, (1 <= k <= j)%nat -> cpr k <> None)
    /\ (all_gates mach p -> cpr 0%nat <> None ->
        j = Z.to_nat (asked_samples p) \/ cpr (Datatypes.S j) = None)
    /\ (~ all_gates mach p \/ cpr 0%nat = None -> j = 0%nat).
Proof.
  intros H.
  destruct (all_gates_dec mach p) as [Hg | Hg].
  - destruct Hg as (Hh & Hv & Hs & Ht & Hl).
    rewrite (gcode_M48_gate_open mach cpr rnd p fuel W0 _ _
               (M48_parameters_pass mach p fuel W0 Hh Hv Hs Ht Hl)) in H.
    destruct (M48_probe_lines mach cpr rnd (locals_of mach p) fuel
                (log W0 (title p)) w' eq_refl H)
      as (evs & j & T & Hj & Hsh & Hok & Hend & Hnone).
    exists j. split; [exact Hj|].
    split; [|split; [exact Hok | split]].
    + rewrite T. simpl trace. rewrite shown_app.
      replace (shown (title p)) with (@nil (Z * option R)); [exact Hsh|].
      unfold title. destruct (asked_verbose p >? 0)%Z; reflexivity.
    + intros _ H0. apply Hend. exact H0.
    + intros [Hn | H0]; [|apply Hnone; exact H0].
      exfalso. apply Hn. exact (conj Hh (conj Hv (conj Hs (conj Ht Hl)))).
  - destruct (gate_closed_events mach p Hg) as (evs & Hrun & Hshape).
    rewrite (gcode_M48_gate_closed mach cpr rnd p fuel W0 _ (Hrun fuel W0)) in H.
    inversion H; subst w'; clear H.
    exists 0%nat. split; [lia|].
    split; [|split; [intros k Hk; lia | split]].
    + replace (shown (trace (log W0 evs))) with (@nil (Z * option R)).
      { destruct (1 <? asked_verbose p)%Z; reflexivity. }
      destruct Hshape as [[_ E] | (_ & msg & _ & [E | [E _]])]; subst evs;
        reflexivity.
    + intros Hg'. contradiction.
    + intros _. reflexivity.
Qed.

(** X13 at work: "M48 V2 P4" on the bench with a probe that always reads 1
    shows the four lines 1 to 4, each with the reading 1. *)
Lemma progress_lines_count_up_witness :
  exists fuel w',
    gcode_M48 bench (steady 1) zeros
      (request (Some x02) (Some x04) None false) fuel W0 = Some (tt, w')
    /\ shown (trace w')
       = [(1%Z, Some 1); (2%Z, Some 1); (3%Z, Some 1); (4%Z, Some 1)].
Proof.
  destruct (every_run_returns_on bench (steady 1) zeros
              (request (Some x02) (Some x04) None false)) as (fuel & w' & H).
  { apply pulls_in_cartesian. reflexivity. }
  destruct (progress_lines_count_up bench (steady 1) zeros _ fuel w' H)
    as (j & _ & Hsh & _ & Hend & _).
  exists fuel, w'. split; [exact H|].
  destruct Hend as [E | E].
  - unfold all_gates. repeat split; try reflexivity; gate_arith.
  - discriminate.
  - rewrite Hsh, E. reflexivity.
  - discriminate.
Defined.

End M48.
